(** * ed-copilot: the hybrid question retrieval engine (rag_python)

    A shallow embedding of the Python package [rag_python] (text utilities,
    fingerprints, embedder, BM25 and vector indexes, fusion, reranker,
    engine, JSONL store) and the properties of its specification.

    Conventions of the embedding.
    - A Python [str] is a [string], read as a sequence of code points below
      256.  Case mapping is the ASCII one ([A-Z] and [a-z]); [normalize_text]
      turns every code point outside [a-z0-9] into a space after lowering,
      so tokens and fingerprints of ASCII text are the interpreter's.
      [stable_hash] is also given on arbitrary sequences of code units.
    - A Python [float] is a binary64 number: [PrimFloat.float], with the
      IEEE operations the interpreter uses; [sum] adds from left to right.
      The numeric kernels ([dot], norms, [cosine_similarity], [clamp01], the
      embedder and the weight reallocation of the fusion) are written once
      over an arithmetic interface [Arith], so that they run in binary64 and
      can be read in the real numbers, where the statements of the
      specification that speak of a tolerance or of an equality of sums
      live.
    - A Python [dict] is an association list in insertion order
      ([dict_set] keeps the position of a key that is already there).  A
      [set] of strings is a duplicate-free list in the order of first
      insertion; the interpreter's iteration order over a set is not
      specified and only decides between candidates of equal score.
    - Rows, metadata and filters are dynamically typed: they are values of
      [pyval], read with [get] as the code reads them with [dict.get].
      Fields are read at the types the dataclasses declare.
    - A raised exception is a value [Raise e] of the [result] type: the
      [ValueError] of NumPy on rows of unequal length or on an out-of-range
      partition index, and the [IndexError] of [heap[0]] on an empty heap.
      An operation that mutates the engine returns the engine it leaves,
      also when it raises.
    - What the package takes from its environment is a [Runtime]:
      [math.log], the text of floats and containers, [json.dumps], NumPy
      when it can be imported, and the parser of file rows.
    - [evaluate], [to_json], logging and the clock ([took_ms]) are left
      out. *)

From Stdlib Require Import ZArith List String Ascii Bool Lia.
From Stdlib Require Import Floats Reals Lra DecimalString.
From Stdlib Require Import Permutation Sorted.
Import ListNotations.

Open Scope string_scope.
Open Scope Z_scope.

Set Implicit Arguments.
Set Warnings "-inexact-float".

(** ** Python values and containers *)

Module Py.

(** Exceptions the modelled code can raise. *)
Inductive exn : Type :=
| ValueError
| IndexError.

Inductive result (A : Type) : Type :=
| Ok (a : A)
| Raise (e : exn).
Arguments Ok {A} a.
Arguments Raise {A} e.

Definition bind {A B : Type} (m : result A) (k : A -> result B) : result B :=
  match m with
  | Ok a => k a
  | Raise e => Raise e
  end.

(** Insertion-ordered dictionaries with string keys. *)
Section Dict.
Variable V : Type.

Definition dict : Type := list (string * V).

Fixpoint dict_get (k : string) (d : dict) : option V :=
  match d with
  | [] => None
  | (k', v) :: rest => if String.eqb k' k then Some v else dict_get k rest
  end.

Fixpoint dict_set (k : string) (v : V) (d : dict) : dict :=
  match d with
  | [] => [(k, v)]
  | (k', v') :: rest =>
      if String.eqb k' k then (k, v) :: rest else (k', v') :: dict_set k v rest
  end.

Definition dict_keys (d : dict) : list string := map fst d.
Definition dict_values (d : dict) : list V := map snd d.
Definition dict_mem (k : string) (d : dict) : bool :=
  match dict_get k d with Some _ => true | None => false end.
End Dict.

(** [xs[:k]] for a list. *)
Definition slice_to {A : Type} (k : Z) (xs : list A) : list A :=
  if 0 <=? k then firstn (Z.to_nat k) xs
  else firstn (Z.to_nat (Z.of_nat (List.length xs) + k)) xs.

(** Membership in a [set] of strings. *)
Definition set_mem (k : string) (s : list string) : bool :=
  existsb (String.eqb k) s.

Definition set_add (k : string) (s : list string) : list string :=
  if set_mem k s then s else s ++ [k].

End Py.

Import Py.

Notation "x <- m ;; k" := (Py.bind m (fun x => k))
  (at level 61, m at next level, right associativity).

(** ** utils.py: text utilities *)

Module Utils.

Definition code (c : ascii) : Z := Z.of_N (N_of_ascii c).

Definition in_range (lo hi : Z) (c : ascii) : bool :=
  (lo <=? code c) && (code c <=? hi).

Definition is_upper (c : ascii) : bool := in_range 65 90 c.
Definition is_lower (c : ascii) : bool := in_range 97 122 c.
Definition is_digit (c : ascii) : bool := in_range 48 57 c.

(** [str.isspace] on code points below 256. *)
Definition is_space (c : ascii) : bool :=
  in_range 9 13 c || in_range 28 32 c || (code c =? 133) || (code c =? 160).

Definition lower_char (c : ascii) : ascii :=
  if is_upper c then ascii_of_N (N_of_ascii c + 32) else c.

Definition upper_char (c : ascii) : ascii :=
  if is_lower c then ascii_of_N (N_of_ascii c - 32) else c.

Definition chars (s : string) : list ascii := list_ascii_of_string s.
Definition str (cs : list ascii) : string := string_of_list_ascii cs.

Definition lower (s : string) : string := str (map lower_char (chars s)).
Definition upper (s : string) : string := str (map upper_char (chars s)).

Fixpoint lstrip_chars (cs : list ascii) : list ascii :=
  match cs with
  | c :: rest => if is_space c then lstrip_chars rest else cs
  | [] => []
  end.

(** [s.strip()] *)
Definition strip (s : string) : string :=
  str (rev (lstrip_chars (rev (lstrip_chars (chars s))))).

(** [re.sub(r"[^a-z0-9\s]", " ", s)] *)
Definition sub_non_alnum (cs : list ascii) : list ascii :=
  map (fun c => if is_lower c || is_digit c || is_space c then c else " "%char) cs.

(** [re.sub(r"\s+", " ", s)]: every maximal run of whitespace becomes one
    space ([in_run] tells that the previous character was whitespace). *)
Fixpoint sub_ws_runs (in_run : bool) (cs : list ascii) : list ascii :=
  match cs with
  | [] => []
  | c :: rest =>
      if is_space c
      then (if in_run then sub_ws_runs true rest else " "%char :: sub_ws_runs true rest)
      else c :: sub_ws_runs false rest
  end.

Definition normalize_text (text : string) : string :=
  strip (str (sub_ws_runs false (sub_non_alnum (chars (lower text))))).

(** [s.split(" ")]: the pieces between single spaces, empty ones kept. *)
Fixpoint split_space_aux (cur : list ascii) (cs : list ascii) : list string :=
  match cs with
  | [] => [str (rev cur)]
  | c :: rest =>
      if Ascii.eqb c " "%char then str (rev cur) :: split_space_aux [] rest
      else split_space_aux (c :: cur) rest
  end.

Definition split_space (s : string) : list string := split_space_aux [] (chars s).

Definition nonempty (s : string) : bool := negb (String.eqb s "").

Definition tokenize (text : string) : list string :=
  let t := normalize_text text in
  if nonempty t then filter nonempty (split_space t) else [].

(** [re.sub(r"\b\d+(\.\d+)?\b", "<num>", normalize_text(text))].  The
    normalised text holds only [a-z0-9] and single spaces, so the optional
    decimal part never matches and a match is exactly a maximal run of
    word characters made of digits only: a whole space-separated piece. *)
Definition all_digits (s : string) : bool :=
  nonempty s && forallb is_digit (chars s).

Definition normalize_template_text (text : string) : string :=
  String.concat " "
    (map (fun w => if all_digits w then "<num>" else w)
         (split_space (normalize_text text))).

(** *** stable_hash *)

Definition mask32 : Z := 0xFFFFFFFF.

(** The loop body of [stable_hash] on the pair [(h1, h2)]. *)
Definition hash_step (h : Z * Z) (c : Z) : Z * Z :=
  (Z.land (Z.lxor (fst h) c * 2654435761) mask32,
   Z.land (Z.lxor (snd h) c * 1597334677) mask32).

(** The two assignments after the loop; the second reads the new [h1]. *)
Definition hash_finish (h : Z * Z) : Z * Z :=
  let h1 := fst h in
  let h2 := snd h in
  let h1 := Z.land (Z.lxor (Z.lxor h1 (Z.shiftr h1 16) * 2246822507)
                           (Z.lxor h2 (Z.shiftr h2 13) * 3266489909)) mask32 in
  let h2 := Z.land (Z.lxor (Z.lxor h2 (Z.shiftr h2 16) * 2246822507)
                           (Z.lxor h1 (Z.shiftr h1 13) * 3266489909)) mask32 in
  (h1, h2).

Definition hex_digit (d : Z) : ascii :=
  if d <? 10 then ascii_of_N (Z.to_N (48 + d)) else ascii_of_N (Z.to_N (87 + d)).

(** Hexadecimal digits of [n], least significant first, no leading zero. *)
Fixpoint hex_digits_rev (fuel : nat) (n : Z) : list ascii :=
  match fuel with
  | O => []
  | S fuel' =>
      hex_digit (n mod 16) ::
      (if n / 16 =? 0 then [] else hex_digits_rev fuel' (n / 16))
  end.

(** [f"{n:08x}"] for [n >= 0]: lowercase hexadecimal, padded with zeros on
    the left to a width of at least 8. *)
Definition format_08x (n : Z) : string :=
  let ds := hex_digits_rev (S (Z.to_nat (Z.log2 n))) n in
  str (rev (ds ++ repeat "0"%char (8 - List.length ds))).

(** [ord(ch)] for every character of the text. *)
Definition code_units (text : string) : list Z := map code (chars text).

Definition stable_hash_units (cs : list Z) : string :=
  let h := hash_finish (fold_left hash_step cs (0xDEADBEEF, 0x41C6CE57)) in
  format_08x (snd h) ++ format_08x (fst h).

Definition stable_hash (text : string) : string :=
  stable_hash_units (code_units text).

End Utils.

(** The reference recipe of the specification for [stable_hash], written
    from its wording: two 32-bit accumulators updated per code unit, the
    finalising assignments modulo [2^32], and the two words printed as eight
    hexadecimal digits each, [h2] first. *)
Module HashRecipe.

Definition two32 : Z := 2 ^ 32.

Definition accumulate (cs : list Z) : Z * Z :=
  fold_left
    (fun h c => ((Z.lxor (fst h) c * 2654435761) mod two32,
                 (Z.lxor (snd h) c * 1597334677) mod two32))
    cs (0xDEADBEEF, 0x41C6CE57).

Definition finalise_h1 (h1 h2 : Z) : Z :=
  (Z.lxor (Z.lxor h1 (h1 / 2 ^ 16) * 2246822507)
          (Z.lxor h2 (h2 / 2 ^ 13) * 3266489909)) mod two32.

(** "swap roles to produce h2 the same way", after [h1] was assigned. *)
Definition finalise (h : Z * Z) : Z * Z :=
  let h1 := finalise_h1 (fst h) (snd h) in
  let h2 := finalise_h1 (snd h) h1 in
  (h1, h2).

Definition digit_char (d : Z) : ascii :=
  nth (Z.to_nat d) (Utils.chars "0123456789abcdef") "0"%char.

(** The eight hexadecimal digits of a 32-bit word, most significant first. *)
Definition hex32 (w : Z) : string :=
  Utils.str (map (fun i => digit_char ((w / 16 ^ i) mod 16)) [7; 6; 5; 4; 3; 2; 1; 0]).

Definition stable_hash (cs : list Z) : string :=
  let h := finalise (accumulate cs) in
  hex32 (snd h) ++ hex32 (fst h).

End HashRecipe.


(** ** Arithmetic of Python floats *)

(** The operations the numeric code uses.  [of_Z] is the conversion of an
    [int]; [eqb], [ltb] and [leb] are [==], [<] and [<=]. *)
Class Arith (F : Type) : Type := {
  of_Z : Z -> F;
  add : F -> F -> F;
  sub : F -> F -> F;
  mul : F -> F -> F;
  div : F -> F -> F;
  sqrt : F -> F;
  eqb : F -> F -> bool;
  ltb : F -> F -> bool;
  leb : F -> F -> bool
}.

(** Binary64, as the interpreter computes. *)
Definition float_of_Z (z : Z) : float :=
  if 0 <=? z then PrimFloat.of_uint63 (Uint63.of_Z z)
  else PrimFloat.opp (PrimFloat.of_uint63 (Uint63.of_Z (- z))).

#[export] Instance float_arith : Arith float := {
  of_Z := float_of_Z;
  add := PrimFloat.add;
  sub := PrimFloat.sub;
  mul := PrimFloat.mul;
  div := PrimFloat.div;
  sqrt := PrimFloat.sqrt;
  eqb := PrimFloat.eqb;
  ltb := PrimFloat.ltb;
  leb := PrimFloat.leb
}.


Module Numeric.
Section Kernels.
Context {F : Type} {A : Arith F}.

Definition zero : F := of_Z 0.
Definition one : F := of_Z 1.

(** A decimal literal [p/q] with [q] a power of ten: the quotient of two
    exactly represented integers is the correctly rounded literal. *)
Definition lit (p q : Z) : F := div (of_Z p) (of_Z q).

(** [x > y] and [x >= y] *)
Definition gtb (x y : F) : bool := ltb y x.
Definition geb (x y : F) : bool := leb y x.

(** [max(a, b)] and [min(a, b)] of two numbers: the first argument wins
    unless the second is strictly better. *)
Definition max2 (a b : F) : F := if gtb b a then b else a.
Definition min2 (a b : F) : F := if ltb b a then b else a.

(** [sum(xs)], from the integer 0, left to right. *)
Definition sum (xs : list F) : F := fold_left add xs zero.

(** [sum(x * y for x, y in zip(a, b))] *)
Definition dot (a b : list F) : F :=
  sum (map (fun xy => mul (fst xy) (snd xy)) (combine a b)).

(** [math.sqrt(sum(x * x for x in a))] *)
Definition norm (a : list F) : F := sqrt (sum (map (fun x => mul x x) a)).

Definition clamp01 (x : F) : F := max2 zero (min2 one x).

Definition is_empty {T : Type} (xs : list T) : bool :=
  match xs with [] => true | _ => false end.

Definition cosine_similarity (a b : list F) : F :=
  if is_empty a || is_empty b || negb (Nat.eqb (List.length a) (List.length b))
  then zero
  else
    let d := dot a b in
    let na := norm a in
    let nb := norm b in
    if eqb na zero || eqb nb zero then zero else div d (mul na nb).

(** [out[i] += s] *)
Fixpoint add_at (i : nat) (s : F) (out : list F) {struct out} : list F :=
  match out, i with
  | [], _ => []
  | x :: rest, O => add x s :: rest
  | x :: rest, S i' => x :: add_at i' s rest
  end.

(** The reallocation of the image weight at the head of
    [fuse_hybrid_scores]: the triple [(sparse_w, dense_w, image_w)] the
    scoring loop uses. *)
Definition effective_weights (sparse_weight dense_weight image_weight : F)
           (has_image_query : bool) : F * F * F :=
  if negb has_image_query && gtb image_weight zero
  then
    let spare := image_weight in
    (add sparse_weight (mul spare (lit 5 10)),
     add dense_weight (mul spare (lit 5 10)),
     zero)
  else (sparse_weight, dense_weight, image_weight).

End Kernels.
End Numeric.

(** ** embedding.py: the deterministic hash embedder *)

Module Embedding.
Import Utils Numeric.

Definition hex_value (c : ascii) : Z :=
  if is_digit c then code c - 48
  else if in_range 97 102 c then code c - 87
  else if in_range 65 70 c then code c - 55
  else 0.

(** [int(s, 16)] on a string of hexadecimal digits. *)
Definition int16 (s : string) : Z :=
  fold_left (fun acc c => acc * 16 + hex_value c) (chars s) 0.

Section Encode.
Context {F : Type} {A : Arith F}.

(** The bucket and the sign of one token. *)
Definition bucket_of (dim : Z) (token : string) : Z :=
  let h := stable_hash token in
  int16 (substring 0 8 h) mod dim.

Definition sign_of (token : string) : F :=
  let h := stable_hash token in
  if int16 (substring 8 8 h) mod 2 =? 0 then of_Z 1 else of_Z (-1).

(** The loop over the tokens. *)
Definition accumulate (dim : Z) (tokens : list string) : list F :=
  fold_left
    (fun out token => add_at (Z.to_nat (bucket_of dim token)) (sign_of token) out)
    tokens (repeat zero (Z.to_nat dim)).

(** [DeterministicHashEmbedder(dim).encode(text)], for [dim >= 1] (the
    interpreter raises on [dim <= 0] as soon as there is a token). *)
Definition encode (dim : Z) (text : string) : list F :=
  let out := repeat zero (Z.to_nat dim) in
  let tokens := tokenize text in
  if is_empty tokens then out
  else
    let out := accumulate dim tokens in
    let nrm := norm out in
    if eqb nrm zero then out else map (fun x => div x nrm) out.
End Encode.
End Embedding.

(** ** Values of dynamically typed rows *)

Module Value.

#[local] Set Warnings "-register-all".

(** What a raw row, a metadata mapping, a filter or a JSON line holds. *)
Inductive pyval : Type :=
| VNone
| VBool (b : bool)
| VInt (n : Z)
| VFloat (x : float)
| VStr (s : string)
| VList (xs : list pyval)
| VDict (kvs : list (string * pyval)).

(** Truth value of an object. *)
Definition truthy (v : pyval) : bool :=
  match v with
  | VNone => false
  | VBool b => b
  | VInt n => negb (n =? 0)
  | VFloat x => negb (PrimFloat.eqb x 0%float)
  | VStr s => Utils.nonempty s
  | VList xs => negb (Numeric.is_empty xs)
  | VDict kvs => negb (Numeric.is_empty kvs)
  end.

Definition is_none (v : pyval) : bool :=
  match v with VNone => true | _ => false end.

(** [a or b] *)
Definition py_or (a b : pyval) : pyval := if truthy a then a else b.

(** [d.get(k)] and [d.get(k, default)]; a value that is not a mapping has
    no keys. *)
Definition get_default (k : string) (default : pyval) (d : pyval) : pyval :=
  match d with
  | VDict kvs => match dict_get k kvs with Some v => v | None => default end
  | _ => default
  end.

Definition get (k : string) (d : pyval) : pyval := get_default k VNone d.

(** [k in d] *)
Definition has_key (k : string) (d : pyval) : bool :=
  match d with
  | VDict kvs => dict_mem k kvs
  | _ => false
  end.

(** Numbers compare across [bool], [int] and [float]. *)
Definition as_number (v : pyval) : option (Z + float) :=
  match v with
  | VBool b => Some (inl (if b then 1 else 0))
  | VInt n => Some (inl n)
  | VFloat x => Some (inr x)
  | _ => None
  end.

Definition number_eqb (a b : Z + float) : bool :=
  match a, b with
  | inl m, inl n => m =? n
  | inl m, inr y => PrimFloat.eqb (float_of_Z m) y
  | inr x, inl n => PrimFloat.eqb x (float_of_Z n)
  | inr x, inr y => PrimFloat.eqb x y
  end.

(** [a == b] *)
Fixpoint py_eqb (a b : pyval) {struct a} : bool :=
  match a, b with
  | VNone, VNone => true
  | VStr s, VStr t => String.eqb s t
  | VList xs, VList ys =>
      (fix all2 (xs ys : list pyval) : bool :=
         match xs, ys with
         | [], [] => true
         | x :: xs', y :: ys' => py_eqb x y && all2 xs' ys'
         | _, _ => false
         end) xs ys
  | VDict kvs, VDict kvs' =>
      Nat.eqb (List.length kvs) (List.length kvs') &&
      (fix all (kvs : list (string * pyval)) : bool :=
         match kvs with
         | [] => true
         | (k, v) :: rest =>
             match dict_get k kvs' with
             | Some w => py_eqb v w
             | None => false
             end && all rest
         end) kvs
  | _, _ =>
      match as_number a, as_number b with
      | Some m, Some n => number_eqb m n
      | _, _ => false
      end
  end.

(** [a != b] *)
Definition py_neb (a b : pyval) : bool := negb (py_eqb a b).

Definition opt_str (o : option string) : pyval :=
  match o with Some s => VStr s | None => VNone end.

End Value.

Import Value.

(** ** What the embedding takes from outside the package *)

(** NumPy, when it can be imported: the float32 similarities
    [(mat @ q) / (mat_norm * q_norm)] of [_search_numpy], one per row of the
    matrix. *)
Record Numpy : Type := {
  np_sims : list (list float) -> list float -> list float
}.

(** The library functions the engine calls and that are not given a body
    here: [math.log], the text of a float, list or mapping under [str()],
    [json.dumps], NumPy (absent when the import fails), and the regex parser
    of file rows, an external collaborator of the engine. *)
Record Runtime : Type := {
  math_log : float -> float;
  py_repr : pyval -> string;
  json_dumps : pyval -> string;
  numpy : option Numpy;
  parse_questions_from_file : pyval -> list pyval
}.

(** ** Sorting *)

Module Sorting.
Section Sort.
Variable T : Type.
Variable lt : T -> T -> bool.

(** [xs.sort(reverse=True)] and [sorted(xs, reverse=True)] under the
    comparison [lt]: descending, elements that compare equal keep their
    order. *)
Fixpoint insert_desc (x : T) (l : list T) : list T :=
  match l with
  | [] => [x]
  | y :: rest => if lt x y then y :: insert_desc x rest else x :: l
  end.

Definition sort_desc (l : list T) : list T := fold_right insert_desc [] l.

End Sort.
End Sorting.

(** A row [{"qid": ..., "score": ...}] of a ranking. *)
Record Hit : Type := {
  hit_qid : string;
  hit_score : float
}.

(** [rows.sort(key=lambda x: x["score"], reverse=True)] *)
Definition sort_by_score (rows : list Hit) : list Hit :=
  Sorting.sort_desc (fun a b => PrimFloat.ltb (hit_score a) (hit_score b)) rows.

(** ** vector_index.py *)

Module VectorIndex.
Import Numeric.

(** The state of a [VectorIndex]: [self.rows]. *)
Definition t : Type := dict (list float).

Definition empty : t := [].

(** [upsert(rows)], a row being the pair of its ["qid"] and ["vector"]. *)
Definition upsert (new_rows : list (string * list float)) (rows : t) : t :=
  fold_left (fun d r => dict_set (fst r) (snd r) d) new_rows rows.

(** An entry [(score, qid)] of the heap. *)
Definition entry : Type := (float * string)%type.

(** Tuple comparison [a < b]: the first components decide unless they are
    equal. *)
Definition entry_ltb (a b : entry) : bool :=
  if negb (PrimFloat.eqb (fst a) (fst b)) then PrimFloat.ltb (fst a) (fst b)
  else String.ltb (snd a) (snd b).

(** The heap of [heapq] is kept as the ascending list of its entries: the
    loop only reads [heap[0]] (the least entry), [len(heap)] and, at the
    end, [sorted(heap)]. *)
Fixpoint heappush (x : entry) (heap : list entry) : list entry :=
  match heap with
  | [] => [x]
  | y :: rest => if entry_ltb x y then x :: heap else y :: heappush x rest
  end.

(** One turn of the loop of [_search_heap]; [heap[0]] raises [IndexError]
    on an empty heap. *)
Definition heap_step (vector : list float) (top_k : Z)
           (heap : list entry) (row : string * list float) : result (list entry) :=
  let qid := fst row in
  let v := snd row in
  if negb (Nat.eqb (List.length v) (List.length vector)) then Ok heap
  else
    let score := cosine_similarity vector v in
    if PrimFloat.leb score 0%float then Ok heap
    else if Z.of_nat (List.length heap) <? top_k then Ok (heappush (score, qid) heap)
    else
      match heap with
      | [] => Raise IndexError
      | least :: rest =>
          if PrimFloat.ltb (fst least) score
          then Ok (heappush (score, qid) rest)
          else Ok heap
      end.

Fixpoint heap_loop (vector : list float) (top_k : Z)
         (rows : t) (heap : list entry) : result (list entry) :=
  match rows with
  | [] => Ok heap
  | row :: rest =>
      heap' <- heap_step vector top_k heap row ;;
      heap_loop vector top_k rest heap'
  end.

Definition _search_heap (rows : t) (vector : list float) (top_k : Z)
  : result (list Hit) :=
  heap <- heap_loop vector top_k rows [] ;;
  Ok (map (fun e => {| hit_qid := snd e; hit_score := fst e |})
          (Sorting.sort_desc entry_ltb heap)).

(** [np.array(rows, dtype=np.float32)] of a non-empty list of rows: NumPy
    raises [ValueError] when the rows do not all have one length, and
    otherwise gives the matrix, here with its number of columns. *)
Definition np_array (rs : list (list float)) : result (nat * list (list float)) :=
  match rs with
  | [] => Raise IndexError
  | r :: rest =>
      if forallb (fun r' => Nat.eqb (List.length r') (List.length r)) rest
      then Ok (List.length r, rs)
      else Raise ValueError
  end.

Definition _search_numpy (np : Numpy) (rows : t) (vector : list float) (top_k : Z)
  : result (list Hit) :=
  let qids := dict_keys rows in
  mat <- np_array (dict_values rows) ;;
  if negb (Nat.eqb (fst mat) (List.length vector)) then Ok []
  else
    let sims := np_sims np (snd mat) vector in
    let sim := fun i => nth i sims 0%float in
    let n := Z.of_nat (List.length qids) in
    let order :=
      Sorting.sort_desc (fun i j => PrimFloat.ltb (sim i) (sim j))
                        (seq 0 (List.length qids)) in
    idx <- (if n <=? top_k then Ok order
            else if top_k - 1 <? - n then Raise ValueError
            else Ok (slice_to top_k order)) ;;
    Ok (map (fun i => {| hit_qid := nth i qids ""; hit_score := sim i |})
            (filter (fun i => PrimFloat.ltb 0%float (sim i)) idx)).

Definition search (rt : Runtime) (rows : t) (vector : list float) (top_k : Z)
  : result (list Hit) :=
  if is_empty vector then Ok []
  else
    match numpy rt with
    | Some np =>
        if negb (is_empty rows) then _search_numpy np rows vector top_k
        else _search_heap rows vector top_k
    | None => _search_heap rows vector top_k
    end.

End VectorIndex.

(** ** bm25.py *)

Module BM25.

Record BM25Index : Type := {
  k1 : float;
  b : float;
  docs : dict (list string);
  doc_len : dict Z;
  inverted : dict (list (string * Z));
  total_docs : Z;
  avg_doc_len : float
}.

(** [BM25Index()] *)
Definition empty : BM25Index :=
  {| k1 := 1.2%float; b := 0.75%float; docs := []; doc_len := [];
     inverted := []; total_docs := 0; avg_doc_len := 0%float |}.

(** [tf[t] += 1] for every token, in a [defaultdict(int)]. *)
Definition term_counts (tokens : list string) : dict Z :=
  fold_left
    (fun tf t => dict_set t (match dict_get t tf with Some c => c + 1 | None => 1 end) tf)
    tokens [].

(** [self.inverted[term].append((qid, count))] for every counted term. *)
Definition add_postings (qid : string) (tf : dict Z)
           (inv : dict (list (string * Z))) : dict (list (string * Z)) :=
  fold_left
    (fun inv tc =>
       let posting := match dict_get (fst tc) inv with Some p => p | None => [] end in
       dict_set (fst tc) (posting ++ [(qid, snd tc)])%list inv)
    tf inv.

Definition _rebuild (self : BM25Index) : BM25Index :=
  let total_len :=
    fold_left (fun acc d => acc + Z.of_nat (List.length (snd d))) (docs self) 0 in
  let lens :=
    fold_left (fun dl d => dict_set (fst d) (Z.of_nat (List.length (snd d))) dl)
              (docs self) [] in
  let inv :=
    fold_left (fun inv d => add_postings (fst d) (term_counts (snd d)) inv)
              (docs self) [] in
  let n := Z.of_nat (List.length (docs self)) in
  {| k1 := k1 self; b := b self; docs := docs self;
     doc_len := lens; inverted := inv; total_docs := n;
     avg_doc_len := if n =? 0 then 0%float
                    else PrimFloat.div (float_of_Z total_len) (float_of_Z n) |}.

(** [add_documents(rows)], a row being the pair of its ["qid"] and
    ["text"]. *)
Definition add_documents (rows : list (string * string)) (self : BM25Index)
  : BM25Index :=
  _rebuild
    {| k1 := k1 self; b := b self;
       docs := fold_left (fun d r => dict_set (fst r) (Utils.tokenize (snd r)) d)
                         rows (docs self);
       doc_len := doc_len self; inverted := inverted self;
       total_docs := total_docs self; avg_doc_len := avg_doc_len self |}.

(** [set(tokens)], in the order of first occurrence. *)
Definition distinct (tokens : list string) : list string :=
  fold_left (fun s t => set_add t s) tokens [].

Section Search.
Variable rt : Runtime.
Local Open Scope float_scope.

(** The contribution [idf * (num / den)] of one posting. *)
Definition term_score (self : BM25Index) (avgdl idf : float) (qid : string) (tf : Z)
  : float :=
  let dl := Z.max (match dict_get qid (doc_len self) with Some l => l | None => 0%Z end) 1 in
  let num := float_of_Z tf * (k1 self + 1) in
  let den := float_of_Z tf + k1 self * (1 - b self + b self * (float_of_Z dl / avgdl)) in
  idf * (num / den).

(** [scores[qid] += x] in a [defaultdict(float)]. *)
Definition add_score (qid : string) (x : float) (scores : dict float) : dict float :=
  dict_set qid (match dict_get qid scores with Some s => s | None => 0 end + x) scores.

Definition search (self : BM25Index) (query : string) (top_k : Z) : list Hit :=
  let q_terms := distinct (Utils.tokenize query) in
  if Numeric.is_empty q_terms || (total_docs self =? 0)%Z then []
  else
    let avgdl := Numeric.max2 (avg_doc_len self) 1 in
    let scores :=
      fold_left
        (fun scores term =>
           match dict_get term (inverted self) with
           | None => scores
           | Some [] => scores
           | Some posting =>
               let df := Z.of_nat (List.length posting) in
               let idf :=
                 math_log rt
                   (1 + (float_of_Z (total_docs self - df) + 0.5) / (float_of_Z df + 0.5)) in
               fold_left
                 (fun scores p => add_score (fst p) (term_score self avgdl idf (fst p) (snd p)) scores)
                 posting scores
           end)
        q_terms [] in
    let out :=
      map (fun s => {| hit_qid := fst s; hit_score := snd s |})
          (filter (fun s => 0 <? snd s) scores) in
    slice_to top_k (sort_by_score out).

End Search.
End BM25.

(** ** types.py *)

(** The dataclasses, with the names of their fields.  Where two classes
    have a field of one name, the later one carries a prefix: [q_] for
    [QueryInput.image_vector], [r_] for the [qid], [score] and [question] of
    a [RetrievalResult]. *)

Record QuestionImage : Type := {
  image_id : string;
  path : pyval;
  ocr_text : option string;
  caption : option string;
  image_vector : list float
}.

(** [fingerprints] holds the two keys ["exact_hash"] and ["template_hash"]. *)
Record Fingerprints : Type := {
  exact_hash : string;
  template_hash : string
}.

Record QuestionDocument : Type := {
  qid : string;
  stem : string;
  options : list string;
  answer : option string;
  explanation : option string;
  images : list QuestionImage;
  tags : list pyval;
  metadata : dict pyval;
  fingerprints : Fingerprints;
  source : pyval
}.

Inductive DedupStatus : Type :=
| StatusNew
| StatusExactDuplicate
| StatusNearDuplicate.

Record IngestedQuestion : Type := {
  question : QuestionDocument;
  status : DedupStatus;
  matched_qid : option string;
  score : option float
}.

Record IngestionInput : Type := {
  questions : list pyval;
  files : list pyval
}.

(** [image_vector] is the empty list when the query has none. *)
Record QueryInput : Type := {
  text : option string;
  q_image_vector : list float;
  question_id : option string;
  filters : pyval;
  top_k : option Z;
  top_m : option Z;
  top_n : option Z
}.

Inductive DuplicateClass : Type :=
| Duplicate
| NearDuplicate
| Similar
| Related.

Record RetrievalResult : Type := {
  r_qid : string;
  r_score : float;
  bm25_score : option float;
  dense_score : option float;
  image_score : option float;
  rerank_score : float;
  duplicate_class : DuplicateClass;
  reason : string;
  r_question : QuestionDocument
}.

Record Counts : Type := {
  bm25Candidates : nat;
  denseCandidates : nat;
  imageCandidates : nat;
  fusedCandidates : nat;
  rerankedCandidates : nat;
  finalResults : nat
}.

(** [took_ms], read from the clock, is left out. *)
Record RetrievalResponse : Type := {
  query : QueryInput;
  counts : Counts;
  results : list RetrievalResult
}.

Record RAGConfig : Type := {
  dense_dim : Z;
  bm25_top_k : Z;
  dense_top_k : Z;
  image_top_k : Z;
  rrf_k : Z;
  sparse_weight : float;
  dense_weight : float;
  image_weight : float;
  rrf_weight : float;
  rerank_top_m : Z;
  final_top_n : Z;
  near_duplicate_threshold : float;
  duplicate_threshold : float
}.

(** [RAGConfig()] *)
Definition default_config : RAGConfig :=
  {| dense_dim := 512; bm25_top_k := 300; dense_top_k := 300; image_top_k := 300;
     rrf_k := 60;
     sparse_weight := 0.45%float; dense_weight := 0.45%float;
     image_weight := 0.10%float; rrf_weight := 0.15%float;
     rerank_top_m := 200; final_top_n := 20;
     near_duplicate_threshold := 0.85%float; duplicate_threshold := 0.95%float |}.

(** The [Embedder] protocol: one operation [encode]. *)
Definition Embedder : Type := string -> list float.

(** ** fusion.py *)

Module Fusion.
Local Open Scope float_scope.

(** [enumerate(rows)] *)
Definition enumerate {T : Type} (rows : list T) : list (Z * T) :=
  combine (map Z.of_nat (seq 0 (List.length rows))) rows.

(** [rrf_fuse(rankings, rrf_k)], with [rrf_k >= 0] as configured. *)
Definition rrf_fuse (rankings : list (list Hit)) (rrf_k : Z) : list Hit :=
  let merged :=
    fold_left
      (fun merged rows =>
         fold_left
           (fun merged ir =>
              let i := fst ir in
              let row := snd ir in
              dict_set (hit_qid row)
                (match dict_get (hit_qid row) merged with Some s => s | None => 0 end
                 + 1 / float_of_Z (rrf_k + i + 1))
                merged)
           (enumerate rows) merged)
      rankings [] in
  sort_by_score (map (fun s => {| hit_qid := fst s; hit_score := snd s |}) merged).

End Fusion.

(** ** scoring.py *)

Module Scoring.
Local Open Scope float_scope.

Definition score_sparse (rt : Runtime) (bm25 : BM25.BM25Index) (query_text : string)
           (top_k : Z) (allowed_qids : list string) : list Hit :=
  if negb (Utils.nonempty (Utils.strip query_text)) then []
  else filter (fun x => set_mem (hit_qid x) allowed_qids)
              (BM25.search rt bm25 query_text top_k).

(** [merged[qid] = max(merged.get(qid, -1), score)] *)
Definition merge_max (qid : string) (s : float) (merged : dict float) : dict float :=
  dict_set qid
    (Numeric.max2 (match dict_get qid merged with Some m => m | None => -1 end) s)
    merged.

Definition hits_of (merged : dict float) : list Hit :=
  map (fun s => {| hit_qid := fst s; hit_score := snd s |}) merged.

Definition score_dense (rt : Runtime) (stem_index explanation_index : VectorIndex.t)
           (query_vector : list float) (top_k : Z) (allowed_qids : list string)
  : result (list Hit) :=
  if Numeric.is_empty query_vector then Ok []
  else
    stem <- VectorIndex.search rt stem_index query_vector top_k ;;
    exp <- VectorIndex.search rt explanation_index query_vector top_k ;;
    let merged := fold_left (fun m row => merge_max (hit_qid row) (hit_score row) m) stem [] in
    let merged := fold_left (fun m row => merge_max (hit_qid row) (hit_score row) m) exp merged in
    let out := filter (fun x => set_mem (hit_qid x) allowed_qids) (hits_of merged) in
    Ok (slice_to top_k (sort_by_score out)).

Definition score_image (rt : Runtime) (image_index : VectorIndex.t)
           (image_owner : dict string) (image_vector : list float) (top_k : Z)
           (allowed_qids : list string) : result (list Hit) :=
  if Numeric.is_empty image_vector then Ok []
  else
    raw <- VectorIndex.search rt image_index image_vector top_k ;;
    let merged :=
      fold_left
        (fun m row =>
           match dict_get (hit_qid row) image_owner with
           | None => m
           | Some qid =>
               if negb (Utils.nonempty qid) || negb (set_mem qid allowed_qids) then m
               else merge_max qid (hit_score row) m
           end)
        raw [] in
    Ok (sort_by_score (hits_of merged)).

(** [max(x["score"] for x in rows)] of a non-empty list: the first greatest
    score. *)
Definition max_score (first : Hit) (rest : list Hit) : float :=
  fold_left (fun m x => if m <? hit_score x then hit_score x else m)
            rest (hit_score first).

Definition _normalize_by_max (rows : list Hit) : dict float :=
  match rows with
  | [] => []
  | first :: rest =>
      let mx := max_score first rest in
      if mx <=? 0 then []
      else fold_left (fun d x => dict_set (hit_qid x) (hit_score x / mx) d) rows []
  end.

Definition get0 (qid : string) (d : dict float) : float :=
  match dict_get qid d with Some s => s | None => 0 end.

(** The [set] of qids of the four rankings is iterated in the order of
    first insertion; the interpreter's order depends on string hashing and
    only matters between candidates of equal score. *)
Definition fuse_hybrid_scores (bm25_hits dense_hits image_hits : list Hit)
           (config : RAGConfig) (has_image_query : bool) : list Hit :=
  let w := Numeric.effective_weights (sparse_weight config) (dense_weight config)
                                     (image_weight config) has_image_query in
  let sparse_w := fst (fst w) in
  let dense_w := snd (fst w) in
  let image_w := snd w in
  let bm25_norm := _normalize_by_max bm25_hits in
  let dense_norm := _normalize_by_max dense_hits in
  let image_norm := _normalize_by_max image_hits in
  let rrf := Fusion.rrf_fuse [bm25_hits; dense_hits; image_hits] (rrf_k config) in
  let rrf_norm := _normalize_by_max rrf in
  let qids :=
    fold_left (fun s rows => fold_left (fun s row => set_add (hit_qid row) s) rows s)
              [bm25_hits; dense_hits; image_hits; rrf] [] in
  let out :=
    flat_map
      (fun qid =>
         let score :=
           sparse_w * get0 qid bm25_norm
           + dense_w * get0 qid dense_norm
           + image_w * get0 qid image_norm
           + rrf_weight config * get0 qid rrf_norm in
         if 0 <? score then [{| hit_qid := qid; hit_score := score |}] else [])
      qids in
  sort_by_score out.

End Scoring.

(** ** reranker.py *)

Module Reranker.
Local Open Scope float_scope.

Definition _token_overlap (a b : string) : float :=
  let sa := BM25.distinct (Utils.tokenize a) in
  let sb := BM25.distinct (Utils.tokenize b) in
  if Numeric.is_empty sa || Numeric.is_empty sb then 0
  else
    let inter := List.length (filter (fun t => set_mem t sb) sa) in
    float_of_Z (Z.of_nat inter)
    / float_of_Z (Z.max 1 (Z.min (Z.of_nat (List.length sa)) (Z.of_nat (List.length sb)))).

Definition rerank_pair_score (query_text doc_text : string) (dense_score : float)
           (embedder : Embedder) : float :=
  let overlap := _token_overlap query_text doc_text in
  let qv := embedder query_text in
  let dv := embedder doc_text in
  let cos := Numeric.dot qv dv in
  Numeric.clamp01
    (0.5 * overlap
     + 0.3 * Numeric.clamp01 ((cos + 1) / 2)
     + 0.2 * Numeric.clamp01 ((dense_score + 1) / 2)).

End Reranker.

(** ** fingerprint.py *)

Module Fingerprint.

Definition or_empty (o : option string) : string :=
  match o with
  | Some s => s
  | None => ""
  end.

Definition build_exact_hash (stem : string) (options : list string)
           (answer : option string) : string :=
  Utils.stable_hash
    (Utils.normalize_text stem ++ "||"
     ++ String.concat "|" (map Utils.normalize_text options) ++ "||"
     ++ Utils.normalize_text (or_empty answer)).

Definition build_template_hash (stem : string) : string :=
  Utils.stable_hash (Utils.normalize_template_text stem).

End Fingerprint.

(** ** local_store.py *)

Module LocalStore.

Definition image_asdict (i : QuestionImage) : pyval :=
  VDict [("image_id", VStr (image_id i));
         ("path", path i);
         ("ocr_text", opt_str (ocr_text i));
         ("caption", opt_str (caption i));
         ("image_vector", VList (map VFloat (image_vector i)))].

(** [dataclasses.asdict(q)] *)
Definition asdict (q : QuestionDocument) : pyval :=
  VDict [("qid", VStr (qid q));
         ("stem", VStr (stem q));
         ("options", VList (map VStr (options q)));
         ("answer", opt_str (answer q));
         ("explanation", opt_str (explanation q));
         ("images", VList (map image_asdict (images q)));
         ("tags", VList (tags q));
         ("metadata", VDict (metadata q));
         ("fingerprints",
          VDict [("exact_hash", VStr (exact_hash (fingerprints q)));
                 ("template_hash", VStr (template_hash (fingerprints q)))]);
         ("source", source q)].

(** A JSONL file is the list of the objects of its lines: [json.loads]
    gives back the object [json.dumps] was given. *)
Definition jsonl : Type := list pyval.

(** [save_questions_jsonl(path, questions)]: the count and the file. *)
Definition save_questions_jsonl (questions : list QuestionDocument) : Z * jsonl :=
  (Z.of_nat (List.length questions), map asdict questions).

(** [load_questions_jsonl(path)]; [None] is a path with no file. *)
Definition load_questions_jsonl (file : option jsonl) : list pyval :=
  match file with
  | None => []
  | Some lines => lines
  end.

End LocalStore.

(** ** engine.py *)

Module Engine.
Import Numeric.

Definition nl : string := String (ascii_of_nat 10) EmptyString.

Definition string_of_Z (z : Z) : string :=
  NilZero.string_of_int (Z.to_int z).

(** [str(v)] and the text of [v] in an f-string. *)
Definition py_str (rt : Runtime) (v : pyval) : string :=
  match v with
  | VStr s => s
  | VNone => "None"
  | VBool true => "True"
  | VBool false => "False"
  | VInt n => string_of_Z n
  | _ => py_repr rt v
  end.

(** A value read where the dataclasses declare [Optional[str]]. *)
Definition as_opt_str (v : pyval) : option string :=
  match v with
  | VStr s => Some s
  | _ => None
  end.

(** The elements of a value read where a list is declared. *)
Definition as_list (v : pyval) : list pyval :=
  match v with
  | VList xs => xs
  | _ => []
  end.

Definition as_float (v : pyval) : float :=
  match v with
  | VFloat x => x
  | VInt n => float_of_Z n
  | VBool b => if b then 1%float else 0%float
  | _ => 0%float
  end.

(** [s or None] *)
Definition nonempty_or_none (s : string) : option string :=
  if Utils.nonempty s then Some s else None.

(** The state of a [HybridQuestionRAGPy]; [vectors[qid]] is the pair of its
    ["stem"] and ["exp"] entries. *)
Record t : Type := {
  config : RAGConfig;
  embedder : Embedder;
  docs : dict QuestionDocument;
  vectors : dict (list float * list float);
  exact_hash_map : dict string;
  template_hash_map : dict (list string);
  bm25 : BM25.BM25Index;
  stem_index : VectorIndex.t;
  explanation_index : VectorIndex.t;
  image_index : VectorIndex.t;
  image_owner : dict string
}.

(** [HybridQuestionRAGPy(config, embedder)] *)
Definition init (cfg : option RAGConfig) (emb : option Embedder) : t :=
  let cfg := match cfg with Some c => c | None => default_config end in
  {| config := cfg;
     embedder := match emb with
                 | Some e => e
                 | None => Embedding.encode (dense_dim cfg)
                 end;
     docs := []; vectors := []; exact_hash_map := []; template_hash_map := [];
     bm25 := BM25.empty; stem_index := VectorIndex.empty;
     explanation_index := VectorIndex.empty; image_index := VectorIndex.empty;
     image_owner := [] |}.

Section WithRuntime.
Variable rt : Runtime.

Definition _resolve_stem (row : pyval) : string :=
  Utils.strip (py_str rt (py_or (get "stem" row) (py_or (get "stem_md" row) (VStr "")))).

Definition _resolve_explanation (row : pyval) : option string :=
  let value := get "explanation" row in
  let value := if is_none value then get "explanation_md" row else value in
  if is_none value then None
  else nonempty_or_none (Utils.strip (py_str rt value)).

Definition _normalize_options (opts : pyval) : list string :=
  match opts with
  | VDict _ =>
      flat_map
        (fun k =>
           if has_key k opts && Utils.nonempty (Utils.strip (py_str rt (get k opts)))
           then [Utils.strip (py_str rt (get k opts))] else [])
        ["A"; "B"; "C"; "D"]
  | VList xs =>
      flat_map
        (fun x =>
           if Utils.nonempty (Utils.strip (py_str rt x))
           then [Utils.strip (py_str rt x)] else [])
        xs
  | _ => []
  end.

Definition _normalize_answer (ans : pyval) : option string :=
  if is_none ans then None
  else nonempty_or_none (Utils.upper (Utils.strip (py_str rt ans))).

(** [metadata[key] = value] unless the key is there. *)
Definition promote (key : string) (value : pyval) (md : dict pyval) : dict pyval :=
  if negb (is_none value) && negb (dict_mem key md) then dict_set key value md else md.

Definition _normalize_metadata (row : pyval) : dict pyval :=
  let md := match py_or (get "metadata" row) (VDict []) with
            | VDict kvs => kvs
            | _ => []
            end in
  let md := promote "source_id" (get "id" row) md in
  let md := fold_left (fun md key => promote key (get key row) md)
                      ["area"; "subject"; "topic"; "difficulty"] md in
  match get "skillIds" row with
  | VList xs => if negb (dict_mem "skillIds" md) then dict_set "skillIds" (VList xs) md else md
  | _ => md
  end.

Definition _normalize_images (emb : Embedder) (rows : list pyval) (q : string)
  : list QuestionImage :=
  map
    (fun ir =>
       let idx := fst ir in
       let img := snd ir in
       let image_id :=
         py_str rt (py_or (get "imageId" img)
                          (VStr (q ++ "_img_" ++ string_of_Z (idx + 1)))) in
       let given := get "imageVector" img in
       let image_vector :=
         if truthy given then map as_float (as_list given)
         else emb (py_str rt (get_default "caption" (VStr "") img) ++ nl
                   ++ py_str rt (get_default "ocrText" (VStr "") img)) in
       {| image_id := image_id;
          path := get "path" img;
          ocr_text := as_opt_str (get "ocrText" img);
          caption := as_opt_str (get "caption" img);
          image_vector := image_vector |})
    (Fusion.enumerate rows).

(** The qid of a row that brings none: [q_<id>], or [q_<hash>] of the
    stem and the position in the batch. *)
Definition derived_qid (stem : string) (i : Z) (row : pyval) : string :=
  if negb (is_none (get "id" row)) then "q_" ++ py_str rt (get "id" row)
  else "q_" ++ Utils.stable_hash (stem ++ ":" ++ string_of_Z i).

(** The document of the question row at position [i] of the batch.  A qid
    is a [str], as [QuestionDocument] declares it: a ["qid"] entry of
    another type is read as absent. *)
Definition document_of_row (emb : Embedder) (i : Z) (row : pyval) : QuestionDocument :=
  let stem := _resolve_stem row in
  let q :=
    match as_opt_str (get "qid" row) with
    | Some s => if Utils.nonempty s then s else derived_qid stem i row
    | None => derived_qid stem i row
    end in
  let options := _normalize_options (get "options" row) in
  let explanation := _resolve_explanation row in
  let answer := _normalize_answer (get "answer" row) in
  let images := _normalize_images emb (as_list (py_or (get "images" row) (VList []))) q in
  let metadata := _normalize_metadata row in
  {| qid := q; stem := stem; options := options; answer := answer;
     explanation := explanation; images := images;
     tags := as_list (py_or (get "tags" row) (VList []));
     metadata := metadata;
     fingerprints :=
       {| exact_hash := Fingerprint.build_exact_hash stem options answer;
          template_hash := Fingerprint.build_template_hash stem |};
     source := VNone |}.

(** The document of one question [p] the parser found in [file_row]. *)
Definition document_of_parsed (file_row p : pyval) : QuestionDocument :=
  let file_id := get_default "fileId" (VStr "f") file_row in
  let question_no := get "source_question_no" p in
  let stem_text := get_default "stem" (VStr "") p in
  let q := "q_" ++ Utils.stable_hash (py_str rt file_id ++ ":" ++ py_str rt question_no
                                       ++ ":" ++ py_str rt stem_text) in
  let stem := py_str rt (get "stem" p) in
  let options := map (py_str rt) (as_list (py_or (get "options" p) (VList []))) in
  let answer := as_opt_str (get "answer" p) in
  {| qid := q; stem := stem; options := options; answer := answer;
     explanation := as_opt_str (get "explanation" p);
     images := []; tags := [];
     metadata := [("sourceMimeType", get "mimeType" file_row);
                  ("scanned", VBool (truthy (get "scanned" file_row)))];
     fingerprints :=
       {| exact_hash := Fingerprint.build_exact_hash stem options answer;
          template_hash := Fingerprint.build_template_hash stem |};
     source := VDict [("fileId", get "fileId" file_row);
                      ("questionNo", get "source_question_no" p)] |}.

Definition _normalize_input (self : t) (inp : IngestionInput) : list QuestionDocument :=
  (map (fun ir => document_of_row (embedder self) (fst ir) (snd ir))
       (Fusion.enumerate (questions inp))
   ++ flat_map
        (fun file_row =>
           map (document_of_parsed file_row) (parse_questions_from_file rt file_row))
        (files inp))%list.

(** The text the stem vector of a document is computed from. *)
Definition stem_text (q : QuestionDocument) : string :=
  String.concat nl (stem q :: options q).

Definition _find_near_duplicate (self : t) (q : QuestionDocument) : result (option Hit) :=
  let qv := embedder self (stem_text q) in
  hits <- VectorIndex.search rt (stem_index self) qv 5 ;;
  Ok (match hits with
      | h :: _ => Some h
      | [] => None
      end).

Definition _store_question (self : t) (q : QuestionDocument) : t :=
  let h := template_hash (fingerprints q) in
  let stem_vec := embedder self (stem_text q) in
  let exp_vec := match explanation q with
                 | Some e => if Utils.nonempty e then embedder self e else []
                 | None => []
                 end in
  {| config := config self;
     embedder := embedder self;
     docs := dict_set (qid q) q (docs self);
     vectors := dict_set (qid q) (stem_vec, exp_vec) (vectors self);
     exact_hash_map := dict_set (exact_hash (fingerprints q)) (qid q) (exact_hash_map self);
     template_hash_map :=
       dict_set h
         (match dict_get h (template_hash_map self) with Some l => l | None => [] end
          ++ [qid q])%list
         (template_hash_map self);
     bm25 := bm25 self;
     stem_index := stem_index self;
     explanation_index := explanation_index self;
     image_index := image_index self;
     image_owner := image_owner self |}.

(** The text of a document in the sparse index. *)
Definition sparse_text (d : QuestionDocument) : string :=
  String.concat nl
    (stem d :: stem d ::
     List.app (options d)
       [Fingerprint.or_empty (explanation d);
        String.concat " " (map (fun i => Fingerprint.or_empty (ocr_text i)) (images d));
        String.concat " " (map (fun i => Fingerprint.or_empty (caption i)) (images d));
        json_dumps rt (VDict (metadata d))]).

(** [self.vectors[qid]]; every stored document has its entry. *)
Definition vectors_of (self : t) (q : string) : list float * list float :=
  match dict_get q (vectors self) with
  | Some v => v
  | None => ([], [])
  end.

Definition _rebuild_indexes (self : t) : t :=
  let ds := dict_values (docs self) in
  let with_vectors :=
    flat_map
      (fun d => map (fun i => (d, i))
                    (filter (fun i => negb (is_empty (image_vector i))) (images d)))
      ds in
  {| config := config self;
     embedder := embedder self;
     docs := docs self;
     vectors := vectors self;
     exact_hash_map := exact_hash_map self;
     template_hash_map := template_hash_map self;
     bm25 := BM25.add_documents (map (fun d => (qid d, sparse_text d)) ds) BM25.empty;
     stem_index :=
       VectorIndex.upsert (map (fun d => (qid d, fst (vectors_of self (qid d)))) ds)
                          VectorIndex.empty;
     explanation_index :=
       VectorIndex.upsert
         (map (fun d => (qid d, snd (vectors_of self (qid d))))
              (filter (fun d => negb (is_empty (snd (vectors_of self (qid d))))) ds))
         VectorIndex.empty;
     image_index :=
       VectorIndex.upsert
         (map (fun di => (image_id (snd di), image_vector (snd di))) with_vectors)
         VectorIndex.empty;
     image_owner :=
       fold_left (fun own di => dict_set (image_id (snd di)) (qid (fst di)) own)
                 with_vectors [] |}.


(** *** ingest *)

(** One turn of the loop of [ingest] on the normalised document [q]: the
    engine after the turn and the row appended to [out], or the exception
    of the near-duplicate search. *)
Definition ingest_step (self : t) (q : QuestionDocument)
  : t * result IngestedQuestion :=
  let matched_exact :=
    match dict_get (exact_hash (fingerprints q)) (exact_hash_map self) with
    | Some m => if Utils.nonempty m then Some m else None
    | None => None
    end in
  match matched_exact with
  | Some m =>
      (self, Ok {| question := q; status := StatusExactDuplicate;
                   matched_qid := Some m; score := Some 1%float |})
  | None =>
      match _find_near_duplicate self q with
      | Raise e => (self, Raise e)
      | Ok near =>
          let row :=
            match near with
            | Some h =>
                if PrimFloat.leb (near_duplicate_threshold (config self)) (hit_score h)
                then {| question := q; status := StatusNearDuplicate;
                        matched_qid := Some (hit_qid h); score := Some (hit_score h) |}
                else {| question := q; status := StatusNew;
                        matched_qid := None; score := None |}
            | None => {| question := q; status := StatusNew;
                         matched_qid := None; score := None |}
            end in
          (_store_question self q, Ok row)
      end
  end.

(** The loop over the normalised documents; an exception leaves the engine
    as the turns before it made it. *)
Fixpoint ingest_loop (self : t) (normalized : list QuestionDocument)
         (out : list IngestedQuestion) : t * result (list IngestedQuestion) :=
  match normalized with
  | [] => (self, Ok out)
  | q :: rest =>
      match ingest_step self q with
      | (self', Ok row) => ingest_loop self' rest (out ++ [row])%list
      | (self', Raise e) => (self', Raise e)
      end
  end.

(** The loop and the rebuild of [ingest], on the normalised documents. *)
Definition ingest_normalized (self : t) (normalized : list QuestionDocument)
  : t * result (list IngestedQuestion) :=
  match ingest_loop self normalized [] with
  | (self', Ok out) => (_rebuild_indexes self', Ok out)
  | (self', Raise e) => (self', Raise e)
  end.

Definition ingest (self : t) (payload : IngestionInput)
  : t * result (list IngestedQuestion) :=
  ingest_normalized self (_normalize_input self payload).

(** *** retrieve *)

(** [self.docs.get(query.question_id).stem], or [""]. *)
Definition stem_by_id (self : t) (q : QueryInput) : string :=
  match question_id q with
  | Some i =>
      if Utils.nonempty i
      then match dict_get i (docs self) with
           | Some d => stem d
           | None => ""
           end
      else ""
  | None => ""
  end.

Definition _resolve_query_text (self : t) (q : QueryInput) : string :=
  match text q with
  | Some s =>
      if Utils.nonempty s && Utils.nonempty (Utils.strip s) then Utils.strip s
      else stem_by_id self q
  | None => stem_by_id self q
  end.

(** One document against the filters [f]: the six tests of the loop of
    [_filter_qids], each a [continue] when it holds. *)
Definition passes_filters (f md : pyval) : bool :=
  if truthy (get "subject" f) && py_neb (get "subject" md) (get "subject" f) then false
  else if truthy (get "gradeLevel" f) && py_neb (get "gradeLevel" md) (get "gradeLevel" f) then false
  else if truthy (get "difficulty" f) && py_neb (get "difficulty" md) (get "difficulty" f) then false
  else if truthy (get "questionType" f) && py_neb (get "questionType" md) (get "questionType" f) then false
  else if truthy (get "examBoard" f) && py_neb (get "examBoard" md) (get "examBoard" f) then false
  else if negb (is_none (get "year" f)) && py_neb (get "year" md) (get "year" f) then false
  else true.

Definition _filter_qids (self : t) (q : QueryInput) : list string :=
  let f := py_or (filters q) (VDict []) in
  fold_left
    (fun out d =>
       let md := py_or (VDict (metadata d)) (VDict []) in
       if passes_filters f md then set_add (qid d) out else out)
    (dict_values (docs self)) [].

Definition _classify (self : t) (s : float) : DuplicateClass :=
  if PrimFloat.leb (duplicate_threshold (config self)) s then Duplicate
  else if PrimFloat.leb (near_duplicate_threshold (config self)) s then NearDuplicate
  else if PrimFloat.leb 0.65%float s then Similar
  else Related.

(** Three digits, zero-padded. *)
Definition pad3 (n : Z) : string :=
  let s := string_of_Z n in
  Utils.str (repeat "0"%char (3 - String.length s)) ++ s.

(** [f"{x:.3f}"]: the exact value of the float rounded to three decimals,
    ties to even. *)
Definition format_3f (x : float) : string :=
  match Prim2SF x with
  | S754_nan => "nan"
  | S754_infinity s => if s then "-inf" else "inf"
  | S754_zero s => (if s then "-" else "") ++ "0.000"
  | S754_finite s m e =>
      let num := Zpos m * 1000 * 2 ^ Z.max e 0 in
      let den := 2 ^ Z.max (- e) 0 in
      let q := num / den in
      let r := num mod den in
      let n := if 2 * r <? den then q
               else if den <? 2 * r then q + 1
               else if Z.even q then q else q + 1 in
      (if s then "-" else "") ++ string_of_Z (n / 1000) ++ "." ++ pad3 (n mod 1000)
  end.

(** A row of [reranked]. *)
Record RerankedRow : Type := {
  rr_qid : string;
  rr_score : float;
  rr_rerank_score : float;
  rr_bm25_score : option float;
  rr_dense_score : option float;
  rr_image_score : option float;
  rr_question : QuestionDocument
}.

(** [parts.append(f"{label}={value:.3f}")] when the value is not [None]. *)
Definition reason_part (label : string) (value : option float) : list string :=
  match value with
  | Some s => [label ++ "=" ++ format_3f s]
  | None => []
  end.

Definition _reason_text (row : RerankedRow) : string :=
  String.concat ", "
    (List.app (reason_part "bm25" (rr_bm25_score row))
       (List.app (reason_part "dense" (rr_dense_score row))
          (List.app (reason_part "image" (rr_image_score row))
             ["rerank=" ++ format_3f (rr_rerank_score row)]))).

(** [q.top_k or config_value] *)
Definition or_config (o : option Z) (c : Z) : Z :=
  match o with
  | Some k => if k =? 0 then c else k
  | None => c
  end.

(** [{x["qid"]: x["score"] for x in hits}] *)
Definition score_map (hits : list Hit) : dict float :=
  fold_left (fun d x => dict_set (hit_qid x) (hit_score x) d) hits [].

(** The text of a document for the reranker. *)
Definition doc_text (doc : QuestionDocument) : string :=
  String.concat nl
    (stem doc :: List.app (options doc) [Fingerprint.or_empty (explanation doc)]).

(** The row the rerank loop appends for the candidate [cand], when its
    document is in the bank. *)
Definition rerank_row (self : t) (query_text : string)
           (bm25_map dense_map image_map : dict float) (cand : Hit)
  : list RerankedRow :=
  match dict_get (hit_qid cand) (docs self) with
  | None => []
  | Some doc =>
      let dense_score := match dict_get (qid doc) dense_map with
                         | Some s => s
                         | None => 0%float
                         end in
      let rr := Reranker.rerank_pair_score query_text (doc_text doc) dense_score
                                           (embedder self) in
      [{| rr_qid := qid doc;
          rr_score := hit_score cand;
          rr_rerank_score := rr;
          rr_bm25_score := dict_get (qid doc) bm25_map;
          rr_dense_score := Some dense_score;
          rr_image_score := dict_get (qid doc) image_map;
          rr_question := doc |}]
  end.

Definition result_of_row (self : t) (row : RerankedRow) : RetrievalResult :=
  {| r_qid := rr_qid row;
     r_score := rr_score row;
     bm25_score := rr_bm25_score row;
     dense_score := rr_dense_score row;
     image_score := rr_image_score row;
     rerank_score := rr_rerank_score row;
     duplicate_class := _classify self (rr_rerank_score row);
     reason := _reason_text row;
     r_question := rr_question row |}.

Definition retrieve (self : t) (q : QueryInput) : result RetrievalResponse :=
  let query_text := _resolve_query_text self q in
  let top_k := or_config (top_k q) (bm25_top_k (config self)) in
  let top_m := or_config (top_m q) (rerank_top_m (config self)) in
  let top_n := or_config (top_n q) (final_top_n (config self)) in
  let filtered_qids := _filter_qids self q in
  if is_empty filtered_qids
  then Ok {| query := q;
             counts := {| bm25Candidates := 0; denseCandidates := 0;
                          imageCandidates := 0; fusedCandidates := 0;
                          rerankedCandidates := 0; finalResults := 0 |};
             results := [] |}
  else
    let bm25_hits := Scoring.score_sparse rt (bm25 self) query_text top_k filtered_qids in
    let q_vector := if Utils.nonempty query_text then embedder self query_text else [] in
    dense_hits <- Scoring.score_dense rt (stem_index self) (explanation_index self)
                    q_vector (dense_top_k (config self)) filtered_qids ;;
    image_hits <- Scoring.score_image rt (image_index self) (image_owner self)
                    (q_image_vector q) (image_top_k (config self)) filtered_qids ;;
    let fused := Scoring.fuse_hybrid_scores bm25_hits dense_hits image_hits (config self)
                   (negb (is_empty (q_image_vector q))) in
    let rerank_candidates := slice_to top_m fused in
    let bm25_map := score_map bm25_hits in
    let dense_map := score_map dense_hits in
    let image_map := score_map image_hits in
    let reranked :=
      flat_map (rerank_row self query_text bm25_map dense_map image_map)
               rerank_candidates in
    let reranked :=
      Sorting.sort_desc
        (fun a b => PrimFloat.ltb (rr_rerank_score a) (rr_rerank_score b)) reranked in
    let results := map (result_of_row self) (slice_to top_n reranked) in
    Ok {| query := q;
          counts := {| bm25Candidates := List.length bm25_hits;
                       denseCandidates := List.length dense_hits;
                       imageCandidates := List.length image_hits;
                       fusedCandidates := List.length fused;
                       rerankedCandidates := List.length reranked;
                       finalResults := List.length results |};
          results := results |}.

(** *** save_local_bank, load_local_bank *)

Definition save_local_bank (self : t) : Z * LocalStore.jsonl :=
  LocalStore.save_questions_jsonl (dict_values (docs self)).

Definition load_local_bank (self : t) (file : option LocalStore.jsonl)
  : t * result Z :=
  let rows := LocalStore.load_questions_jsonl file in
  if is_empty rows then (self, Ok 0)
  else
    let cleared :=
      {| config := config self; embedder := embedder self;
         docs := []; vectors := []; exact_hash_map := []; template_hash_map := [];
         bm25 := bm25 self; stem_index := stem_index self;
         explanation_index := explanation_index self;
         image_index := image_index self; image_owner := image_owner self |} in
    match ingest cleared {| questions := rows; files := [] |} with
    | (self', Ok _) => (self', Ok (Z.of_nat (List.length (docs self'))))
    | (self', Raise e) => (self', Raise e)
    end.

End WithRuntime.
End Engine.

(** ** Example banks *)

Module Examples.

(** A runtime without NumPy, to run the examples.  The examples ingest
    rows and send image-only queries: their results do not depend on
    [math_log], [py_repr], [json_dumps] or the file parser, which stand here
    as placeholders. *)
Definition bare_runtime : Runtime :=
  {| math_log := fun x => x;
     py_repr := fun _ => "";
     json_dumps := fun _ => "";
     numpy := None;
     parse_questions_from_file := fun _ => [] |}.

(** The runtime [rt] with NumPy importable. *)
Definition with_numpy (rt : Runtime) (np : Numpy) : Runtime :=
  {| math_log := math_log rt;
     py_repr := py_repr rt;
     json_dumps := json_dumps rt;
     numpy := Some np;
     parse_questions_from_file := parse_questions_from_file rt |}.

Definition derivative_row (q : string) : pyval :=
  VDict [("qid", VStr q);
         ("stem", VStr "Find the derivative of x^2 + 3x.");
         ("options", VList [VStr "2x+3"; VStr "x+3"; VStr "2x"; VStr "3x"]);
         ("answer", VStr "A")].

Definition row_a : pyval := derivative_row "a".
Definition row_b : pyval := derivative_row "b".

(** A row that takes the qid ["a"] again, with another content. *)
Definition row_a_again : pyval :=
  VDict [("qid", VStr "a"); ("stem", VStr "Solve 2x + 5 = 11.");
         ("options", VList [VStr "x=3"; VStr "x=2"; VStr "x=8"; VStr "x=6"]);
         ("answer", VStr "A")].

(** The content of [row_a] with another answer: another exact hash, the
    same stem vector. *)
Definition row_other_answer : pyval :=
  VDict [("qid", VStr "n");
         ("stem", VStr "Find the derivative of x^2 + 3x.");
         ("options", VList [VStr "2x+3"; VStr "x+3"; VStr "2x"; VStr "3x"]);
         ("answer", VStr "B")].

Definition batch (rows : list pyval) : IngestionInput :=
  {| questions := rows; files := [] |}.

Definition new_engine : Engine.t := Engine.init None None.

(** The bank after [ingest] of [row_a]. *)
Definition bank_a : Engine.t :=
  fst (Engine.ingest bare_runtime new_engine (batch [row_a])).

Definition doc_of (i : Z) (row : pyval) : QuestionDocument :=
  Engine.document_of_row bare_runtime (Engine.embedder new_engine) i row.

(** A document with one image that brings its vector, and a numeric
    difficulty. *)
Definition row_img : pyval :=
  VDict [("qid", VStr "a"); ("stem", VStr "Label the diagram");
         ("images",
          VList [VDict [("imageId", VStr "i1");
                        ("imageVector", VList [VInt 1; VInt 0; VInt 0])]]);
         ("metadata", VDict [("difficulty", VInt 3)])].

(** A document with an image that brings a caption and no vector. *)
Definition row_caption : pyval :=
  VDict [("qid", VStr "c"); ("stem", VStr "Name the organ");
         ("images", VList [VDict [("imageId", VStr "i2"); ("caption", VStr "a heart")]])].

Definition bank_img : Engine.t :=
  fst (Engine.ingest bare_runtime new_engine (batch [row_img])).

(** The image-only query: no text, the image vector [[1, 0, 0]]. *)
Definition image_query (f : pyval) : QueryInput :=
  {| text := Some ""; q_image_vector := [1%float; 0%float; 0%float];
     question_id := None; filters := f;
     top_k := None; top_m := None; top_n := None |}.

(** The bank a new engine loads from the file [bank_img] saves. *)
Definition bank_img_reloaded : Engine.t :=
  fst (Engine.load_local_bank bare_runtime new_engine
         (Some (snd (Engine.save_local_bank bank_img)))).

(** What a test reads of the rows [ingest] returns. *)
Definition statuses_of (r : result (list IngestedQuestion))
  : option (list (string * DedupStatus * option string)) :=
  match r with
  | Ok rows => Some (map (fun x => (qid (question x), status x, matched_qid x)) rows)
  | Raise _ => None
  end.

(** What a test reads of the results of a response. *)
Definition scores_of (r : result RetrievalResponse)
  : option (list (string * option float * option float * option float * string)) :=
  match r with
  | Ok resp =>
      Some (map (fun x => (r_qid x, bm25_score x, dense_score x, image_score x, reason x))
                (results resp))
  | Raise _ => None
  end.

(** An index that holds vectors of two lengths. *)
Definition mixed_index : VectorIndex.t :=
  VectorIndex.upsert [("a", [1%float; 0%float]); ("b", [1%float])] VectorIndex.empty.

End Examples.

(** ** Notions of the statements *)

Unset Implicit Arguments.

Module Bank.
Import Engine.

(** The engines a program can hold: a new one, and what [ingest] and
    [load_local_bank] leave, whether they return or raise. *)
Inductive reachable (rt : Runtime) : Engine.t -> Prop :=
| reach_init (cfg : option RAGConfig) (emb : option Embedder) :
    reachable rt (Engine.init cfg emb)
| reach_ingest (self : Engine.t) (payload : IngestionInput) :
    reachable rt self -> reachable rt (fst (Engine.ingest rt self payload))
| reach_load (self : Engine.t) (file : option LocalStore.jsonl) :
    reachable rt self -> reachable rt (fst (Engine.load_local_bank rt self file)).

(** What holds of the documents and of the exact-hash map of every
    reachable engine. *)
Record bank_ok (self : Engine.t) : Prop := {
  ok_keys : NoDup (dict_keys (docs self));
  ok_doc_key : forall k d, In (k, d) (docs self) -> qid d = k;
  ok_doc_hash : forall k d,
      In (k, d) (docs self) ->
      dict_get (exact_hash (fingerprints d)) (exact_hash_map self) = Some k;
  ok_truthy : forall h k,
      dict_get h (exact_hash_map self) = Some k -> Utils.nonempty k = true
}.

(** The near-duplicate searches of the engine do not raise. *)
Definition searchable (rt : Runtime) (self : Engine.t) : Prop :=
  forall q, exists near, _find_near_duplicate rt self q = Ok near.

(** All the vectors of an index have the length [n]. *)
Definition uniform (n : nat) (rows : VectorIndex.t) : Prop :=
  forall k v, In (k, v) rows -> List.length v = n.

(** The embedder returns vectors of the length [n]. *)
Definition fixed_length (emb : Embedder) (n : nat) : Prop :=
  forall s, List.length (emb s) = n.

(** The stored stem vectors and the stem index under an embedder of fixed
    length. *)
Record vec_ok (n : nat) (self : Engine.t) : Prop := {
  vk_vectors : forall k d,
      In (k, d) (docs self) ->
      exists v, dict_get (qid d) (vectors self) = Some v /\ List.length (fst v) = n;
  vk_stem : uniform n (stem_index self)
}.

End Bank.

Module Notions.

(** A lowercase hexadecimal digit. *)
Definition is_lower_hex (c : ascii) : bool :=
  Utils.is_digit c || Utils.in_range 97 102 c.

(** The [k] low hexadecimal digits of [n], least significant first. *)
Fixpoint fixed_rev (k : nat) (n : Z) : list ascii :=
  match k with
  | O => []
  | S k' => Utils.hex_digit (n mod 16) :: fixed_rev k' (n / 16)
  end.



(** An entry the loop may hold, for the query [vector] on [rows]. *)
Definition scored (rows : VectorIndex.t) (vector : list float)
           (e : VectorIndex.entry) : Prop :=
  exists v,
    In (snd e, v) rows /\
    List.length v = List.length vector /\
    fst e = Numeric.cosine_similarity vector v /\
    PrimFloat.leb (fst e) 0%float = false.

(** The hits of a ranking all have their qid in [allowed]. *)
Definition within (allowed : list string) (hits : list Hit) : Prop :=
  forall h, In h hits -> In (hit_qid h) allowed.

End Notions.

(** ** Notions of the properties of the text utilities *)

Module Text.
Import Utils.

(** A character of a token: [a-z0-9]. *)
Definition is_word (c : ascii) : bool := is_lower c || is_digit c.

(** A character of a normalised text: a token character or the space. *)
Definition is_clean (c : ascii) : bool := is_word c || Ascii.eqb c " "%char.

(** What [sub_non_alnum] leaves: token characters and whitespace. *)
Definition is_word_or_space (c : ascii) : bool := is_word c || is_space c.

(** No two spaces in a row; [after_space] tells that a space came just
    before. *)
Fixpoint single_spaced (after_space : bool) (cs : list ascii) : bool :=
  match cs with
  | [] => true
  | c :: rest =>
      if Ascii.eqb c " "%char then negb after_space && single_spaced true rest
      else single_spaced false rest
  end.

(** The first character, if any, is not whitespace. *)
Definition no_lead (cs : list ascii) : bool :=
  match cs with
  | [] => true
  | c :: _ => negb (is_space c)
  end.

(** Splitting at the spaces gives no empty piece; [at_start] tells that
    the piece being read is still empty. *)
Fixpoint tight (at_start : bool) (cs : list ascii) : bool :=
  match cs with
  | [] => negb at_start
  | c :: rest =>
      if Ascii.eqb c " "%char then negb at_start && tight true rest
      else tight false rest
  end.

(** [strip] and [normalize_text] on the characters of a string. *)
Definition strip_chars (cs : list ascii) : list ascii :=
  rev (lstrip_chars (rev (lstrip_chars cs))).

Definition normalize_chars (cs : list ascii) : list ascii :=
  strip_chars (sub_ws_runs false (sub_non_alnum (map lower_char cs))).

(** A normalised text: token characters separated by single spaces. *)
Record clean (cs : list ascii) : Prop := {
  clean_chars : forallb is_clean cs = true;
  clean_lead : no_lead cs = true;
  clean_trail : no_lead (rev cs) = true;
  clean_single : single_spaced false cs = true
}.

(** What [normalize_template_text] does to a token: a number becomes
    [<num>]. *)
Definition mask_number (w : string) : string :=
  if all_digits w then "<num>" else w.

End Text.

(** ** The operations of the indexes that take documents out *)

Module Removal.

(** [d.pop(k, None)]: the dictionary without the key [k]; nothing happens
    when the key is absent. *)
Fixpoint dict_pop {V : Type} (k : string) (d : dict V) : dict V :=
  match d with
  | [] => []
  | (k', v) :: rest =>
      if String.eqb k' k then dict_pop k rest else (k', v) :: dict_pop k rest
  end.

(** [VectorIndex.remove(qids)] *)
Definition remove (qids : list string) (rows : VectorIndex.t) : VectorIndex.t :=
  fold_left (fun d q => dict_pop q d) qids rows.

(** [BM25Index.remove_documents(qids)] *)
Definition remove_documents (qids : list string) (self : BM25.BM25Index)
  : BM25.BM25Index :=
  BM25._rebuild
    {| BM25.k1 := BM25.k1 self; BM25.b := BM25.b self;
       BM25.docs := fold_left (fun d q => dict_pop q d) qids (BM25.docs self);
       BM25.doc_len := BM25.doc_len self; BM25.inverted := BM25.inverted self;
       BM25.total_docs := BM25.total_docs self;
       BM25.avg_doc_len := BM25.avg_doc_len self |}.

End Removal.

(** ** Notions of the properties of rankings *)

Module Ranking.

(** A ranking in non-increasing order of score. *)
Definition descending (hits : list Hit) : Prop :=
  StronglySorted
    (fun a b => PrimFloat.leb (hit_score b) (hit_score a) = true) hits.

(** The results of a response in non-increasing order of rerank score. *)
Definition ranked (rs : list RetrievalResult) : Prop :=
  StronglySorted
    (fun a b => PrimFloat.leb (rerank_score b) (rerank_score a) = true) rs.

(** The order of the duplicate classes, from [Related] up to
    [Duplicate]. *)
Definition class_rank (c : DuplicateClass) : Z :=
  match c with
  | Related => 0
  | Similar => 1
  | NearDuplicate => 2
  | Duplicate => 3
  end.

End Ranking.

(** ** Notions of the properties of the engine *)

Module Report.

(** What a row of the output of [ingest] tells, read against the documents
    [docs] of the bank and the near-duplicate threshold [thr]: an exact
    duplicate names a stored document and has the score 1.0; a near
    duplicate has a score at or above the threshold and its question is
    stored; a new question has no match and is stored. *)
Definition row_stored (thr : float) (docs : dict QuestionDocument)
           (row : IngestedQuestion) : Prop :=
  match status row with
  | StatusExactDuplicate =>
      exists m, matched_qid row = Some m /\ In m (dict_keys docs) /\
                score row = Some 1%float
  | StatusNearDuplicate =>
      exists m s, matched_qid row = Some m /\ score row = Some s /\
                  PrimFloat.leb thr s = true /\
                  In (qid (question row)) (dict_keys docs)
  | StatusNew =>
      matched_qid row = None /\ score row = None /\
      In (qid (question row)) (dict_keys docs)
  end.

End Report.

Module Vectors.
Import Engine Bank.

(** The stored explanation vectors and the explanation index under an
    embedder of fixed length: a document without explanation has the empty
    vector, which the index leaves out. *)
Record exp_ok (n : nat) (self : Engine.t) : Prop := {
  ek_vectors : forall k d,
      In (k, d) (docs self) ->
      exists v, dict_get (qid d) (vectors self) = Some v /\
                (snd v = [] \/ List.length (snd v) = n);
  ek_index : uniform n (explanation_index self)
}.

End Vectors.

(** ** Notions of the properties of the store *)

Module Persist.

(** A document in the form [_normalize_input] gives to a question row: the
    stem is stripped; the options are stripped and not empty; the answer
    is stripped, upper-cased and not empty; the explanation is stripped and
    not empty; the qid is not empty; the fingerprints are those of the
    stem, the options and the answer. *)
Record normal (d : QuestionDocument) : Prop := {
  nm_qid : Utils.nonempty (qid d) = true;
  nm_stem : Utils.strip (stem d) = stem d;
  nm_options : forall o, In o (options d) ->
                         Utils.strip o = o /\ Utils.nonempty o = true;
  nm_answer : forall a, answer d = Some a ->
                        Utils.upper (Utils.strip a) = a /\ Utils.nonempty a = true;
  nm_explanation : forall e, explanation d = Some e ->
                             Utils.strip e = e /\ Utils.nonempty e = true;
  nm_fingerprints :
    fingerprints d
    = {| exact_hash := Fingerprint.build_exact_hash (stem d) (options d) (answer d);
         template_hash := Fingerprint.build_template_hash (stem d) |}
}.

(** What a saved line keeps of a document: everything but its images. *)
Definition kept (d : QuestionDocument)
  : string * string * list string * option string * option string
    * list pyval * dict pyval * Fingerprints * pyval :=
  (qid d, stem d, options d, answer d, explanation d, tags d, metadata d,
   fingerprints d, source d).

End Persist.

(** * Properties *)

(** ** Examples of the text utilities *)

Example stable_hash_empty : Utils.stable_hash "" = HashRecipe.stable_hash [].
Proof. vm_compute. reflexivity. Qed.

Example tokenize_ex :
  Utils.tokenize "  Find the  derivative of x^2 + 3x. " =
  ["find"; "the"; "derivative"; "of"; "x"; "2"; "3x"].
Proof. vm_compute. reflexivity. Qed.

(** ** stable_hash against the reference recipe *)

Module HashProofs.
Import Utils Notions.

Lemma land_mask32 (x : Z) : Z.land x mask32 = x mod HashRecipe.two32.
Proof.
  change mask32 with (Z.ones 32).
  rewrite Z.land_ones by lia. reflexivity.
Qed.

Lemma hash_step_recipe (h : Z * Z) (c : Z) :
  hash_step h c =
  ((Z.lxor (fst h) c * 2654435761) mod HashRecipe.two32,
   (Z.lxor (snd h) c * 1597334677) mod HashRecipe.two32).
Proof. unfold hash_step. now rewrite !land_mask32. Qed.

Lemma accumulate_recipe (cs : list Z) (h : Z * Z) :
  fold_left hash_step cs h =
  fold_left
    (fun h c => ((Z.lxor (fst h) c * 2654435761) mod HashRecipe.two32,
                 (Z.lxor (snd h) c * 1597334677) mod HashRecipe.two32))
    cs h.
Proof.
  revert h. induction cs as [|c cs IH]; intros h; simpl; [reflexivity|].
  rewrite hash_step_recipe. apply IH.
Qed.

Lemma hash_finish_recipe (h : Z * Z) : hash_finish h = HashRecipe.finalise h.
Proof.
  unfold hash_finish, HashRecipe.finalise, HashRecipe.finalise_h1.
  cbv zeta. rewrite !land_mask32, !Z.shiftr_div_pow2 by lia. reflexivity.
Qed.

(** Both accumulators stay 32-bit words. *)
Lemma hash_finish_range (h : Z * Z) :
  0 <= fst (hash_finish h) < HashRecipe.two32 /\
  0 <= snd (hash_finish h) < HashRecipe.two32.
Proof.
  unfold hash_finish. cbv zeta. simpl fst. simpl snd.
  rewrite !land_mask32. split; apply Z.mod_pos_bound; reflexivity.
Qed.

Lemma fixed_rev_zero (k : nat) : fixed_rev k 0 = repeat "0"%char k.
Proof.
  induction k as [|k IH]; [reflexivity|].
  cbn [fixed_rev repeat]. change (0 / 16) with 0. rewrite IH. reflexivity.
Qed.

Lemma hex_digits_pad (fuel : nat) :
  forall (k : nat) (n : Z),
    0 <= n < 16 ^ Z.of_nat k -> n < 16 ^ Z.of_nat fuel -> (1 <= k)%nat ->
    (hex_digits_rev fuel n ++
       repeat "0"%char (k - List.length (hex_digits_rev fuel n)))%list = fixed_rev k n.
Proof.
  induction fuel as [|fuel IH]; intros k n Hk Hf Hk1.
  - simpl in Hf. assert (n = 0) by lia. subst n.
    cbn [hex_digits_rev List.length app]. rewrite Nat.sub_0_r.
    symmetry. apply fixed_rev_zero.
  - destruct k as [|k]; [lia|].
    cbn [hex_digits_rev fixed_rev].
    rewrite Nat2Z.inj_succ, Z.pow_succ_r in Hk, Hf by lia.
    destruct (Z.eqb_spec (n / 16) 0) as [E|E].
    + cbn [List.length app]. rewrite E, fixed_rev_zero.
      change (S k - 1)%nat with (k - 0)%nat. rewrite Nat.sub_0_r. reflexivity.
    + assert (16 <= n).
      { destruct (Z_lt_le_dec n 16) as [L|L]; [|exact L].
        exfalso. apply E. apply Z.div_small. lia. }
      assert (0 <= n / 16 < 16 ^ Z.of_nat k).
      { split; [apply Z.div_pos; lia|]. apply Z.div_lt_upper_bound; lia. }
      assert (n / 16 < 16 ^ Z.of_nat fuel).
      { apply Z.div_lt_upper_bound; lia. }
      assert (1 <= k)%nat.
      { destruct k; [simpl in *; lia | lia]. }
      cbn [List.length app]. rewrite Nat.sub_succ.
      f_equal. apply IH; try lia.
Qed.

Lemma hex_digit_char (d : Z) : 0 <= d < 16 -> hex_digit d = HashRecipe.digit_char d.
Proof.
  intros H.
  assert (d = 0 \/ d = 1 \/ d = 2 \/ d = 3 \/ d = 4 \/ d = 5 \/ d = 6 \/ d = 7 \/
          d = 8 \/ d = 9 \/ d = 10 \/ d = 11 \/ d = 12 \/ d = 13 \/ d = 14 \/ d = 15)
    as C by lia.
  repeat (destruct C as [C|C]; [subst d; reflexivity|]). subst d. reflexivity.
Qed.

Lemma fixed_rev_hex32 (w : Z) :
  0 <= w -> str (rev (fixed_rev 8 w)) = HashRecipe.hex32 w.
Proof.
  intros H. unfold HashRecipe.hex32. f_equal.
  cbn [fixed_rev rev app map].
  rewrite !Z.div_div by lia.
  rewrite !hex_digit_char by (apply Z.mod_pos_bound; lia).
  change (16 ^ 0) with 1. rewrite Z.div_1_r.
  reflexivity.
Qed.

Lemma format_08x_hex32 (w : Z) :
  0 <= w < HashRecipe.two32 -> format_08x w = HashRecipe.hex32 w.
Proof.
  intros H. unfold format_08x. cbv zeta.
  rewrite (@hex_digits_pad _ 8%nat w).
  - apply fixed_rev_hex32. lia.
  - change (16 ^ Z.of_nat 8) with HashRecipe.two32. exact H.
  - destruct (Z.eq_dec w 0) as [->|N]; [reflexivity|].
    rewrite Nat2Z.inj_succ, Z2Nat.id by (apply Z.log2_nonneg).
    apply Z.lt_le_trans with (2 ^ Z.succ (Z.log2 w)).
    + apply Z.log2_spec. lia.
    + change 16 with (2 ^ 4). rewrite <- Z.pow_mul_r by (try lia; pose proof (Z.log2_nonneg w); lia).
      apply Z.pow_le_mono_r; [lia|]. pose proof (Z.log2_nonneg w). lia.
  - lia.
Qed.


Lemma chars_append (a b : string) : chars (a ++ b) = (chars a ++ chars b)%list.
Proof. induction a as [|c a IH]; simpl; [reflexivity|]. now rewrite IH. Qed.

Lemma length_append (a b : string) :
  String.length (a ++ b) = (String.length a + String.length b)%nat.
Proof. induction a as [|c a IH]; simpl; [reflexivity|]. now rewrite IH. Qed.

Lemma forallb_chars_append (p : ascii -> bool) (a b : string) :
  forallb p (chars a) = true -> forallb p (chars b) = true ->
  forallb p (chars (a ++ b)) = true.
Proof. intros Ha Hb. rewrite chars_append, forallb_app, Ha, Hb. reflexivity. Qed.

Lemma hex32_shape (w : Z) :
  String.length (HashRecipe.hex32 w) = 8%nat /\
  forallb is_lower_hex (chars (HashRecipe.hex32 w)) = true.
Proof.
  unfold HashRecipe.hex32, chars, str.
  rewrite list_ascii_of_string_of_list_ascii.
  split.
  - rewrite <- (string_of_list_ascii_of_string (string_of_list_ascii _)).
    rewrite list_ascii_of_string_of_list_ascii. reflexivity.
  - rewrite forallb_forall. intros c Hc. apply in_map_iff in Hc.
    destruct Hc as [i [<- _]].
    pose proof (Z.mod_pos_bound (w / 16 ^ i) 16 ltac:(lia)) as B.
    remember ((w / 16 ^ i) mod 16) as d.
    assert (d = 0 \/ d = 1 \/ d = 2 \/ d = 3 \/ d = 4 \/ d = 5 \/ d = 6 \/ d = 7 \/
            d = 8 \/ d = 9 \/ d = 10 \/ d = 11 \/ d = 12 \/ d = 13 \/ d = 14 \/ d = 15)
      as C by lia.
    clear Heqd B.
    repeat (destruct C as [C|C]; [subst d; reflexivity|]). subst d. reflexivity.
Qed.

End HashProofs.

(** C2.  For every input string, [stable_hash] returns exactly what the
    reference recipe of the specification prescribes on the string's code
    units: the accumulators [0xDEADBEEF] and [0x41C6CE57] updated by the two
    xor-multiply steps modulo [2^32], [h1] finalised from the pair, [h2]
    produced the same way with the roles swapped, and the output made of the
    hexadecimal digits of [h2] followed by those of [h1]; the output is 16
    lowercase hexadecimal digits.  The statement is about every sequence of
    code units, whatever their range, and so about every string. *)
Theorem stable_hash_follows_recipe :
  (forall cs : list Z,
      Utils.stable_hash_units cs = HashRecipe.stable_hash cs /\
      String.length (Utils.stable_hash_units cs) = 16%nat /\
      forallb Notions.is_lower_hex (Utils.chars (Utils.stable_hash_units cs)) = true) /\
  (forall text : string,
      Utils.stable_hash text = HashRecipe.stable_hash (Utils.code_units text)).
Proof.
  assert (E : forall cs, Utils.stable_hash_units cs = HashRecipe.stable_hash cs).
  { intros cs.
    unfold Utils.stable_hash_units, HashRecipe.stable_hash, HashRecipe.accumulate.
    cbv zeta.
    destruct (HashProofs.hash_finish_range
                (fold_left Utils.hash_step cs (0xDEADBEEF, 0x41C6CE57))) as [R1 R2].
    rewrite !HashProofs.format_08x_hex32 by assumption.
    rewrite HashProofs.hash_finish_recipe, HashProofs.accumulate_recipe.
    reflexivity. }
  split; [|intros text; apply E].
  intros cs. rewrite E. unfold HashRecipe.stable_hash. cbv zeta.
  set (h := HashRecipe.finalise _).
  destruct (HashProofs.hex32_shape (snd h)) as [L2 F2].
  destruct (HashProofs.hex32_shape (fst h)) as [L1 F1].
  split; [reflexivity|]. split.
  - rewrite HashProofs.length_append, L1, L2. reflexivity.
  - apply HashProofs.forallb_chars_append; assumption.
Qed.

(** ** Dictionaries *)

Set Implicit Arguments.

Module DictFacts.
Section Facts.
Variable V : Type.
Implicit Types (d : dict V) (k : string) (v : V).

Lemma get_set_same d k v : dict_get k (dict_set k v d) = Some v.
Proof.
  induction d as [|[k' v'] d IH]; simpl.
  - now rewrite String.eqb_refl.
  - destruct (String.eqb k' k) eqn:E; simpl.
    + now rewrite String.eqb_refl.
    + now rewrite E.
Qed.

Lemma get_set_other d k k' v : k <> k' -> dict_get k' (dict_set k v d) = dict_get k' d.
Proof.
  intros N. induction d as [|[k0 v0] d IH]; simpl.
  - destruct (String.eqb_spec k k'); [contradiction|reflexivity].
  - destruct (String.eqb_spec k0 k) as [->|N0]; simpl.
    + destruct (String.eqb_spec k k'); [contradiction|reflexivity].
    + destruct (String.eqb_spec k0 k'); [reflexivity|exact IH].
Qed.

Lemma get_in d k v : dict_get k d = Some v -> In (k, v) d.
Proof.
  induction d as [|[k' v'] d IH]; simpl; [discriminate|].
  destruct (String.eqb_spec k' k) as [->|N]; intros H.
  - injection H as ->. now left.
  - right. now apply IH.
Qed.

Lemma in_set d k v k' v' :
  In (k', v') (dict_set k v d) -> (k', v') = (k, v) \/ In (k', v') d.
Proof.
  induction d as [|[k0 v0] d IH]; simpl.
  - intros [H|[]]. left. now symmetry.
  - destruct (String.eqb_spec k0 k) as [->|N]; simpl.
    + intros [H|H]; [left; now symmetry | right; now right].
    + intros [H|H]; [right; now left|].
      destruct (IH H) as [E|E]; [now left | right; now right].
Qed.

Lemma keys_set_in d k v k' :
  In k' (dict_keys (dict_set k v d)) -> k' = k \/ In k' (dict_keys d).
Proof.
  unfold dict_keys. intros H. apply in_map_iff in H.
  destruct H as [[k0 v0] [E H]]. simpl in E. subst k0.
  destruct (in_set _ _ _ _ _ H) as [E|E].
  - left. congruence.
  - right. apply in_map_iff. now exists (k', v0).
Qed.

Lemma keys_set_nodup d k v :
  NoDup (dict_keys d) -> NoDup (dict_keys (dict_set k v d)).
Proof.
  induction d as [|[k0 v0] d IH]; simpl; intros H.
  - constructor; [intros []|constructor].
  - inversion H as [|? ? Hn Hd]; subst.
    destruct (String.eqb_spec k0 k) as [->|N]; simpl.
    + now constructor.
    + constructor; [|now apply IH].
      intros Hin. destruct (keys_set_in _ _ _ _ Hin) as [E|E]; [congruence|contradiction].
Qed.

Lemma in_get d k v : NoDup (dict_keys d) -> In (k, v) d -> dict_get k d = Some v.
Proof.
  induction d as [|[k0 v0] d IH]; simpl; intros Hn H; [contradiction|].
  inversion Hn as [|? ? Hnot Hd]; subst.
  destruct H as [H|H].
  - injection H as -> ->. now rewrite String.eqb_refl.
  - destruct (String.eqb_spec k0 k) as [->|N].
    + exfalso. apply Hnot. unfold dict_keys. apply in_map_iff. now exists (k, v).
    + now apply IH.
Qed.

Lemma set_length_present d k v v0 :
  dict_get k d = Some v0 -> List.length (dict_set k v d) = List.length d.
Proof.
  induction d as [|[k' v'] d IH]; simpl; [discriminate|].
  destruct (String.eqb_spec k' k) as [->|N]; simpl; intros H; [reflexivity|].
  f_equal. now apply IH.
Qed.

End Facts.
End DictFacts.

Unset Implicit Arguments.

(** ** The invariant of the bank *)

Module BankFacts.
Import Engine Bank.

Section WithRuntime.
Variable rt : Runtime.

Lemma nonempty_append_q (s : string) : Utils.nonempty ("q_" ++ s) = true.
Proof. reflexivity. Qed.

Lemma derived_qid_nonempty (stem : string) (i : Z) (row : pyval) :
  Utils.nonempty (derived_qid rt stem i row) = true.
Proof. unfold derived_qid. destruct (negb _); apply nonempty_append_q. Qed.

Lemma document_of_row_qid (emb : Embedder) (i : Z) (row : pyval) :
  Utils.nonempty (qid (document_of_row rt emb i row)) = true.
Proof.
  unfold document_of_row. cbn [qid].
  destruct (as_opt_str (get "qid" row)) as [s|]; [|apply derived_qid_nonempty].
  destruct (Utils.nonempty s) eqn:E; [exact E|apply derived_qid_nonempty].
Qed.

Lemma normalized_qid (self : Engine.t) (payload : IngestionInput) (q : QuestionDocument) :
  In q (_normalize_input rt self payload) -> Utils.nonempty (qid q) = true.
Proof.
  unfold _normalize_input. intros H. apply in_app_or in H. destruct H as [H|H].
  - apply in_map_iff in H. destruct H as [ir [<- _]]. apply document_of_row_qid.
  - apply in_flat_map in H. destruct H as [file_row [_ H]].
    apply in_map_iff in H. destruct H as [p [<- _]]. reflexivity.
Qed.

(** What a turn of the loop does to the engine. *)
Lemma ingest_step_cases (self : Engine.t) (q : QuestionDocument) :
  (exists m,
      dict_get (exact_hash (fingerprints q)) (exact_hash_map self) = Some m /\
      Utils.nonempty m = true /\
      ingest_step rt self q =
      (self, Ok {| question := q; status := StatusExactDuplicate;
                   matched_qid := Some m; score := Some 1%float |})) \/
  ((dict_get (exact_hash (fingerprints q)) (exact_hash_map self) = None \/
    dict_get (exact_hash (fingerprints q)) (exact_hash_map self) = Some "") /\
   ((exists e, ingest_step rt self q = (self, Raise e)) \/
    (exists row, ingest_step rt self q = (_store_question self q, Ok row) /\
                 question row = q /\ status row <> StatusExactDuplicate))).
Proof.
  unfold ingest_step.
  destruct (dict_get (exact_hash (fingerprints q)) (exact_hash_map self)) as [m|] eqn:E.
  - destruct (Utils.nonempty m) eqn:Em.
    + left. exists m. auto.
    + right. split.
      { right. f_equal. unfold Utils.nonempty in Em.
        destruct (String.eqb_spec m ""); [assumption|discriminate]. }
      destruct (_find_near_duplicate rt self q) as [near|e]; [right|left; eauto].
      eexists. split; [reflexivity|].
      destruct near as [h|]; [destruct (PrimFloat.leb _ _)|]; split;
        try reflexivity; discriminate.
  - right. split; [now left|].
    destruct (_find_near_duplicate rt self q) as [near|e]; [right|left; eauto].
    eexists. split; [reflexivity|].
    destruct near as [h|]; [destruct (PrimFloat.leb _ _)|]; split;
      try reflexivity; discriminate.
Qed.

Lemma store_preserves_ok (self : Engine.t) (q : QuestionDocument) :
  bank_ok self ->
  Utils.nonempty (qid q) = true ->
  dict_get (exact_hash (fingerprints q)) (exact_hash_map self) = None ->
  bank_ok (_store_question self q).
Proof.
  intros [Hn Hk Hh Ht] Hq Hnone. constructor; cbn [_store_question docs exact_hash_map].
  - now apply DictFacts.keys_set_nodup.
  - intros k d H. destruct (DictFacts.in_set _ _ _ _ _ H) as [E|E].
    + now injection E as -> ->.
    + now apply Hk.
  - intros k d H. destruct (DictFacts.in_set _ _ _ _ _ H) as [E|E].
    + injection E as -> ->. apply DictFacts.get_set_same.
    + rewrite DictFacts.get_set_other; [now apply Hh|].
      intros Eh. pose proof (Hh _ _ E) as Hd. rewrite <- Eh in Hd. congruence.
  - intros h k H.
    destruct (String.eqb_spec (exact_hash (fingerprints q)) h) as [<-|N].
    + rewrite DictFacts.get_set_same in H. now injection H as <-.
    + rewrite DictFacts.get_set_other in H by assumption. now apply (Ht h).
Qed.

Lemma ingest_step_ok (self : Engine.t) (q : QuestionDocument) :
  bank_ok self -> Utils.nonempty (qid q) = true ->
  bank_ok (fst (ingest_step rt self q)).
Proof.
  intros Hok Hq.
  destruct (ingest_step_cases self q) as [[m [_ [_ ->]]]|[Hm [[e ->]|[row [-> _]]]]];
    cbn [fst]; try assumption.
  apply store_preserves_ok; try assumption.
  destruct Hm as [Hm|Hm]; [exact Hm|].
  apply (ok_truthy _ Hok) in Hm. discriminate.
Qed.

Lemma ingest_loop_ok (normalized : list QuestionDocument) :
  forall (self : Engine.t) (out : list IngestedQuestion),
    bank_ok self ->
    (forall q, In q normalized -> Utils.nonempty (qid q) = true) ->
    bank_ok (fst (ingest_loop rt self normalized out)).
Proof.
  induction normalized as [|q rest IH]; intros self out Hok Hq; cbn [ingest_loop].
  - exact Hok.
  - pose proof (ingest_step_ok self q Hok (Hq q (or_introl eq_refl))) as Hstep.
    destruct (ingest_step rt self q) as [self' [row|e]]; cbn [fst] in *.
    + apply IH; [exact Hstep|]. intros q' Hin. apply Hq. now right.
    + exact Hstep.
Qed.

Lemma rebuild_preserves_ok (self : Engine.t) :
  bank_ok self -> bank_ok (_rebuild_indexes rt self).
Proof. intros [Hn Hk Hh Ht]. constructor; assumption. Qed.

Lemma ingest_normalized_ok (self : Engine.t) (normalized : list QuestionDocument) :
  bank_ok self ->
  (forall q, In q normalized -> Utils.nonempty (qid q) = true) ->
  bank_ok (fst (ingest_normalized rt self normalized)).
Proof.
  intros Hok Hq. unfold ingest_normalized.
  pose proof (ingest_loop_ok normalized self [] Hok Hq) as H.
  destruct (ingest_loop rt self normalized []) as [self' [out|e]]; cbn [fst] in *.
  - now apply rebuild_preserves_ok.
  - exact H.
Qed.

Lemma ingest_ok (self : Engine.t) (payload : IngestionInput) :
  bank_ok self -> bank_ok (fst (ingest rt self payload)).
Proof.
  intros Hok. apply ingest_normalized_ok; [exact Hok|].
  intros q. apply normalized_qid.
Qed.

Lemma init_ok (cfg : option RAGConfig) (emb : option Embedder) :
  bank_ok (Engine.init cfg emb).
Proof.
  constructor; cbn [Engine.init docs exact_hash_map].
  - constructor.
  - intros k d [].
  - intros k d [].
  - intros h k H. discriminate.
Qed.

Lemma load_ok (self : Engine.t) (file : option LocalStore.jsonl) :
  bank_ok self -> bank_ok (fst (load_local_bank rt self file)).
Proof.
  intros Hok. unfold load_local_bank.
  destruct (Numeric.is_empty (LocalStore.load_questions_jsonl file)); [exact Hok|].
  match goal with
  | |- context [ingest rt ?c ?p] =>
      assert (H : bank_ok (fst (ingest rt c p)))
  end.
  { apply ingest_ok. constructor; cbn [docs exact_hash_map].
    - constructor.
    - intros k d [].
    - intros k d [].
    - intros h k H. discriminate. }
  destruct (ingest rt _ _) as [self' [out|e]]; exact H.
Qed.

(** Every reachable engine satisfies the invariant. *)
Lemma reachable_ok (self : Engine.t) : reachable rt self -> bank_ok self.
Proof.
  induction 1 as [cfg emb|self payload _ IH|self file _ IH].
  - apply init_ok.
  - now apply ingest_ok.
  - now apply load_ok.
Qed.

End WithRuntime.
End BankFacts.

(** ** The ingest loop *)

Module IngestFacts.
Import Engine Bank BankFacts.

Section WithRuntime.
Variable rt : Runtime.

(** The near-duplicate check reads the stem index and the embedder only. *)
Lemma find_near_duplicate_frame (self self' : Engine.t) (q : QuestionDocument) :
  stem_index self' = stem_index self -> embedder self' = embedder self ->
  _find_near_duplicate rt self' q = _find_near_duplicate rt self q.
Proof. intros Hs He. unfold _find_near_duplicate. now rewrite Hs, He. Qed.

(** A turn of the loop leaves the indexes, the embedder and the
    configuration as they are. *)
Lemma ingest_step_frame (self : Engine.t) (q : QuestionDocument) :
  let self' := fst (ingest_step rt self q) in
  stem_index self' = stem_index self /\ embedder self' = embedder self /\
  config self' = config self.
Proof.
  destruct (ingest_step_cases rt self q) as [[m [_ [_ ->]]]|[_ [[e ->]|[row [-> _]]]]];
    cbn; auto.
Qed.

Lemma ingest_loop_frame (normalized : list QuestionDocument) :
  forall (self : Engine.t) (out : list IngestedQuestion),
    let self' := fst (ingest_loop rt self normalized out) in
    stem_index self' = stem_index self /\ embedder self' = embedder self /\
    config self' = config self.
Proof.
  induction normalized as [|q rest IH]; intros self out; cbn [ingest_loop].
  - cbn. auto.
  - pose proof (ingest_step_frame self q) as F. cbv zeta in F.
    destruct (ingest_step rt self q) as [self1 [row|e]]; cbn [fst] in *.
    + specialize (IH self1 (out ++ [row])%list). cbv zeta in IH.
      destruct IH as [I1 [I2 I3]]. destruct F as [F1 [F2 F3]].
      repeat split; congruence.
    + exact F.
Qed.

Lemma searchable_frame (self self' : Engine.t) :
  stem_index self' = stem_index self -> embedder self' = embedder self ->
  searchable rt self -> searchable rt self'.
Proof.
  intros Hs He H q. rewrite (find_near_duplicate_frame self self' q Hs He). apply H.
Qed.

(** With searches that do not raise, a turn appends a row. *)
Lemma ingest_step_returns (self : Engine.t) (q : QuestionDocument) :
  searchable rt self -> exists row, snd (ingest_step rt self q) = Ok row.
Proof.
  intros H. unfold ingest_step.
  destruct (dict_get _ _) as [m|]; [destruct (Utils.nonempty m)|];
    try (eexists; reflexivity);
    destruct (H q) as [near ->]; eexists; reflexivity.
Qed.


Lemma ingest_loop_returns (normalized : list QuestionDocument) :
  forall (self : Engine.t) (out : list IngestedQuestion),
    searchable rt self ->
    exists rows,
      snd (ingest_loop rt self normalized out) = Ok (out ++ rows)%list /\
      List.length rows = List.length normalized.
Proof.
  induction normalized as [|q rest IH]; intros self out Hs; cbn [ingest_loop].
  - exists []. cbn. now rewrite app_nil_r.
  - destruct (ingest_step_returns self q Hs) as [row Hrow].
    pose proof (ingest_step_frame self q) as F. cbv zeta in F.
    destruct (ingest_step rt self q) as [self1 [row'|e]]; cbn [fst snd] in *;
      [|discriminate].
    injection Hrow as ->.
    destruct F as [F1 [F2 _]].
    destruct (IH self1 (out ++ [row])%list (searchable_frame self self1 F1 F2 Hs))
      as [rows [E L]].
    exists (row :: rows). split.
    + rewrite E. now rewrite <- app_assoc.
    + cbn. now rewrite L.
Qed.

(** The exact-hash map during the loop: a hash that is registered stays
    registered under the same qid. *)
Lemma ingest_step_keeps_hash (self : Engine.t) (q : QuestionDocument) (h m : string) :
  bank_ok self ->
  dict_get h (exact_hash_map self) = Some m ->
  dict_get h (exact_hash_map (fst (ingest_step rt self q))) = Some m.
Proof.
  intros Hok Hm.
  destruct (ingest_step_cases rt self q) as [[m' [_ [_ ->]]]|[Hq [[e ->]|[row [-> _]]]]];
    cbn [fst]; try assumption.
  cbn [_store_question exact_hash_map].
  rewrite DictFacts.get_set_other; [assumption|].
  intros E. rewrite E in Hq. destruct Hq as [Hq|Hq]; [congruence|].
  rewrite Hm in Hq. injection Hq as ->.
  apply (ok_truthy _ Hok) in Hm. discriminate.
Qed.

Lemma ingest_loop_keeps_hash (normalized : list QuestionDocument) (h m : string) :
  forall (self : Engine.t) (out : list IngestedQuestion),
    bank_ok self ->
    (forall q, In q normalized -> Utils.nonempty (qid q) = true) ->
    dict_get h (exact_hash_map self) = Some m ->
    dict_get h (exact_hash_map (fst (ingest_loop rt self normalized out))) = Some m.
Proof.
  induction normalized as [|q rest IH]; intros self out Hok Hq Hm; cbn [ingest_loop].
  - exact Hm.
  - pose proof (ingest_step_keeps_hash self q h m Hok Hm) as K.
    pose proof (ingest_step_ok rt self q Hok (Hq q (or_introl eq_refl))) as Hok1.
    destruct (ingest_step rt self q) as [self1 [row|e]]; cbn [fst] in *; [|exact K].
    apply IH; try assumption. intros q' Hin. apply Hq. now right.
Qed.


(** The documents during the loop. *)
Lemma ingest_step_docs (self : Engine.t) (q : QuestionDocument) :
  docs (fst (ingest_step rt self q)) = docs self \/
  docs (fst (ingest_step rt self q)) = dict_set (qid q) q (docs self).
Proof.
  destruct (ingest_step_cases rt self q) as [[m [_ [_ ->]]]|[_ [[e ->]|[row [-> _]]]]];
    cbn; auto.
Qed.

Lemma ingest_loop_docs (normalized : list QuestionDocument) (k : string) :
  forall (self : Engine.t) (out : list IngestedQuestion) (d : QuestionDocument),
    dict_get k (docs self) = Some d ->
    exists d',
      dict_get k (docs (fst (ingest_loop rt self normalized out))) = Some d' /\
      (d' = d \/ (In d' normalized /\ qid d' = k)) /\
      ((forall q, In q normalized -> qid q <> k) -> d' = d).
Proof.
  induction normalized as [|q rest IH]; intros self out d Hd; cbn [ingest_loop].
  - exists d. cbn. auto.
  - assert (S : exists d1,
               dict_get k (docs (fst (ingest_step rt self q))) = Some d1 /\
               (d1 = d \/ (d1 = q /\ qid q = k))).
    { destruct (ingest_step_docs self q) as [-> | ->]; [exists d; auto|].
      destruct (String.eqb_spec (qid q) k) as [E|N].
      - exists q. rewrite <- E at 1. rewrite DictFacts.get_set_same. auto.
      - exists d. rewrite DictFacts.get_set_other by assumption. auto. }
    destruct S as [d1 [H1 C1]].
    destruct (ingest_step rt self q) as [self1 [row|e]]; cbn [fst] in *.
    + destruct (IH self1 (out ++ [row])%list d1 H1) as [d' [H' [C' U']]].
      exists d'. split; [exact H'|]. split.
      * destruct C' as [->|[Hin Hk]]; [|right; split; [now right|exact Hk]].
        destruct C1 as [->|[-> Hk]]; [now left|right; split; [now left|exact Hk]].
      * intros Hno. rewrite U' by (intros q' Hin; apply Hno; now right).
        destruct C1 as [->|[-> Hk]]; [reflexivity|].
        exfalso. apply (Hno q); [now left|exact Hk].
    + exists d1. split; [exact H1|]. split.
      * destruct C1 as [->|[-> Hk]]; [now left|right; split; [now left|exact Hk]].
      * intros Hno. destruct C1 as [->|[-> Hk]]; [reflexivity|].
        exfalso. apply (Hno q); [now left|exact Hk].
Qed.

End WithRuntime.
End IngestFacts.

(** ** When a vector search returns *)

Module SearchFacts.
Import Engine Bank BankFacts IngestFacts.

Lemma heap_step_returns (vector : list float) (top_k : Z)
      (heap : list VectorIndex.entry) (row : string * list float) :
  1 <= top_k -> exists heap', VectorIndex.heap_step vector top_k heap row = Ok heap'.
Proof.
  intros Hk. unfold VectorIndex.heap_step.
  destruct (negb _); [eauto|].
  destruct (PrimFloat.leb _ _); [eauto|].
  destruct (Z.ltb_spec (Z.of_nat (List.length heap)) top_k) as [L|L]; [eauto|].
  destruct heap as [|least rest]; [cbn in L; lia|].
  destruct (PrimFloat.ltb _ _); eauto.
Qed.

Lemma heap_loop_returns (vector : list float) (top_k : Z) (rows : VectorIndex.t) :
  1 <= top_k ->
  forall heap, exists heap', VectorIndex.heap_loop vector top_k rows heap = Ok heap'.
Proof.
  intros Hk. induction rows as [|row rows IH]; intros heap; cbn [VectorIndex.heap_loop].
  - eauto.
  - destruct (heap_step_returns vector top_k heap row Hk) as [heap' ->]. cbn. apply IH.
Qed.

Lemma search_heap_returns (rows : VectorIndex.t) (vector : list float) (top_k : Z) :
  1 <= top_k -> exists hits, VectorIndex._search_heap rows vector top_k = Ok hits.
Proof.
  intros Hk. unfold VectorIndex._search_heap.
  destruct (heap_loop_returns vector top_k rows Hk []) as [heap ->]. cbn. eauto.
Qed.

Lemma np_array_uniform (n : nat) (rows : VectorIndex.t) :
  uniform n rows -> rows <> [] ->
  VectorIndex.np_array (dict_values rows) = Ok (n, dict_values rows).
Proof.
  intros U N. destruct rows as [|[k0 v0] rest]; [contradiction|].
  cbn [dict_values map snd VectorIndex.np_array].
  assert (L0 : List.length v0 = n) by (apply (U k0); now left).
  assert (F : forallb (fun r' => Nat.eqb (List.length r') (List.length v0))
                      (map snd rest) = true).
  { apply forallb_forall. intros v Hv. apply in_map_iff in Hv.
    destruct Hv as [[k v'] [<- Hin]]. cbn.
    rewrite (U k v') by now right. rewrite L0. apply Nat.eqb_refl. }
  unfold dict_values in F. rewrite F, L0. reflexivity.
Qed.

Lemma search_numpy_returns (np : Numpy) (n : nat) (rows : VectorIndex.t)
      (vector : list float) (top_k : Z) :
  uniform n rows -> rows <> [] -> 1 <= top_k ->
  exists hits, VectorIndex._search_numpy np rows vector top_k = Ok hits.
Proof.
  intros U N Hk. unfold VectorIndex._search_numpy.
  rewrite (np_array_uniform n rows U N). cbn [bind fst snd].
  destruct (negb _); [eauto|].
  destruct (Z.leb_spec (Z.of_nat (List.length (dict_keys rows))) top_k); cbn [bind];
    [eauto|].
  destruct (Z.ltb_spec (top_k - 1) (- Z.of_nat (List.length (dict_keys rows))));
    [lia|].
  cbn [bind]. eauto.
Qed.

Lemma search_returns (rt : Runtime) (n : nat) (rows : VectorIndex.t)
      (vector : list float) (top_k : Z) :
  numpy rt = None \/ uniform n rows -> 1 <= top_k ->
  exists hits, VectorIndex.search rt rows vector top_k = Ok hits.
Proof.
  intros H Hk. unfold VectorIndex.search.
  destruct (Numeric.is_empty vector); [eauto|].
  destruct (numpy rt) as [np|]; [|now apply search_heap_returns].
  destruct rows as [|row rows]; [now apply search_heap_returns|].
  cbn [Numeric.is_empty negb].
  destruct H as [H|H]; [discriminate|].
  apply (search_numpy_returns np n); [assumption|discriminate|assumption].
Qed.

Lemma upsert_in (new_rows : list (string * list float)) :
  forall (rows : VectorIndex.t) k v,
    In (k, v) (VectorIndex.upsert new_rows rows) -> In (k, v) new_rows \/ In (k, v) rows.
Proof.
  unfold VectorIndex.upsert.
  induction new_rows as [|[k0 v0] rest IH]; intros rows k v H; cbn [fold_left] in H.
  - now right.
  - destruct (IH _ _ _ H) as [H'|H']; [left; now right|].
    cbn [fst snd] in H'.
    destruct (DictFacts.in_set _ _ _ _ _ H') as [E|E]; [left; left; now symmetry|now right].
Qed.

Section WithRuntime.
Variable rt : Runtime.

Lemma store_vec_ok (n : nat) (self : Engine.t) (q : QuestionDocument) :
  fixed_length (embedder self) n -> vec_ok n self -> vec_ok n (_store_question self q).
Proof.
  intros Hf [Hv Hs]. constructor; cbn [_store_question docs vectors stem_index];
    [|exact Hs].
  intros k d H.
  destruct (String.eqb_spec (qid q) (qid d)) as [E|N].
  - rewrite E. rewrite DictFacts.get_set_same. eexists. split; [reflexivity|].
    cbn [fst]. apply Hf.
  - rewrite DictFacts.get_set_other by assumption.
    destruct (DictFacts.in_set _ _ _ _ _ H) as [E|E].
    + injection E as _ ->. contradiction.
    + exact (Hv k d E).
Qed.

Lemma ingest_step_vec_ok (n : nat) (self : Engine.t) (q : QuestionDocument) :
  fixed_length (embedder self) n -> vec_ok n self ->
  vec_ok n (fst (ingest_step rt self q)).
Proof.
  intros Hf Hv.
  destruct (ingest_step_cases rt self q) as [[m [_ [_ ->]]]|[_ [[e ->]|[row [-> _]]]]];
    cbn [fst]; try assumption.
  now apply store_vec_ok.
Qed.

Lemma ingest_loop_vec_ok (n : nat) (normalized : list QuestionDocument) :
  forall (self : Engine.t) (out : list IngestedQuestion),
    fixed_length (embedder self) n -> vec_ok n self ->
    vec_ok n (fst (ingest_loop rt self normalized out)).
Proof.
  induction normalized as [|q rest IH]; intros self out Hf Hv; cbn [ingest_loop].
  - exact Hv.
  - pose proof (ingest_step_vec_ok n self q Hf Hv) as S.
    pose proof (ingest_step_frame rt self q) as F. cbv zeta in F.
    destruct (ingest_step rt self q) as [self1 [row|e]]; cbn [fst] in *; [|exact S].
    apply IH; [|exact S]. destruct F as [_ [F _]]. now rewrite F.
Qed.

Lemma rebuild_vec_ok (n : nat) (self : Engine.t) :
  vec_ok n self -> vec_ok n (_rebuild_indexes rt self).
Proof.
  intros [Hv Hs]. constructor; cbn [_rebuild_indexes docs vectors stem_index].
  - exact Hv.
  - intros k v H. apply upsert_in in H. destruct H as [H|[]].
    apply in_map_iff in H. destruct H as [d [E Hd]]. injection E as <- <-.
    unfold dict_values in Hd. apply in_map_iff in Hd.
    destruct Hd as [[k' d'] [E Hin]]. cbn in E. subst d'.
    destruct (Hv k' d Hin) as [v' [G L]]. unfold vectors_of. now rewrite G.
Qed.

Lemma ingest_embedder (self : Engine.t) (payload : IngestionInput) :
  embedder (fst (ingest rt self payload)) = embedder self.
Proof.
  unfold ingest, ingest_normalized.
  pose proof (ingest_loop_frame rt (_normalize_input rt self payload) self []) as F.
  cbv zeta in F.
  destruct (ingest_loop rt self _ []) as [self' [out|e]]; cbn [fst] in *;
    destruct F as [_ [F _]]; exact F.
Qed.

Lemma ingest_vec_ok (n : nat) (self : Engine.t) (payload : IngestionInput) :
  fixed_length (embedder self) n -> vec_ok n self ->
  vec_ok n (fst (ingest rt self payload)).
Proof.
  intros Hf Hv. unfold ingest, ingest_normalized.
  pose proof (ingest_loop_vec_ok n (_normalize_input rt self payload) self [] Hf Hv) as L.
  destruct (ingest_loop rt self _ []) as [self' [out|e]]; cbn [fst] in *;
    [now apply rebuild_vec_ok|exact L].
Qed.

Lemma load_embedder (self : Engine.t) (file : option LocalStore.jsonl) :
  embedder (fst (load_local_bank rt self file)) = embedder self.
Proof.
  unfold load_local_bank.
  destruct (Numeric.is_empty _); [reflexivity|].
  match goal with
  | |- context [ingest rt ?c ?p] => pose proof (ingest_embedder c p) as E
  end.
  destruct (ingest rt _ _) as [self' [out|e]]; exact E.
Qed.

Lemma load_vec_ok (n : nat) (self : Engine.t) (file : option LocalStore.jsonl) :
  fixed_length (embedder self) n -> vec_ok n self ->
  vec_ok n (fst (load_local_bank rt self file)).
Proof.
  intros Hf Hv. unfold load_local_bank.
  destruct (Numeric.is_empty _); [exact Hv|].
  match goal with
  | |- context [ingest rt ?c ?p] =>
      assert (V : vec_ok n (fst (ingest rt c p)))
  end.
  { apply ingest_vec_ok; [exact Hf|].
    constructor; cbn [docs stem_index]; [intros k d []|apply (vk_stem _ _ Hv)]. }
  destruct (ingest rt _ _) as [self' [out|e]]; exact V.
Qed.

Lemma reachable_vec_ok (self : Engine.t) :
  reachable rt self -> forall n, fixed_length (embedder self) n -> vec_ok n self.
Proof.
  induction 1 as [cfg emb|self payload _ IH|self file _ IH]; intros n Hf.
  - constructor; cbn [Engine.init docs stem_index]; [intros k d []|intros k v []].
  - rewrite ingest_embedder in Hf. apply ingest_vec_ok; auto.
  - rewrite load_embedder in Hf. apply load_vec_ok; auto.
Qed.

(** The near-duplicate searches of a reachable engine return, when NumPy
    is absent or the embedder gives vectors of one length. *)
Lemma reachable_searchable (self : Engine.t) :
  reachable rt self ->
  numpy rt = None \/ (exists n, fixed_length (embedder self) n) ->
  searchable rt self.
Proof.
  intros Hr H q. unfold _find_near_duplicate.
  assert (S : exists hits,
             VectorIndex.search rt (stem_index self) (embedder self (stem_text q)) 5
             = Ok hits).
  { destruct H as [H|[n H]].
    - apply (search_returns rt 0); [now left|lia].
    - apply (search_returns rt n); [|lia]. right.
      apply (vk_stem n self). now apply reachable_vec_ok. }
  destruct S as [hits ->]. cbn. eauto.
Qed.

End WithRuntime.

(** The default embedder gives vectors of the configured dimension. *)
Lemma add_at_length {F : Type} {A : Arith F} (i : nat) (s : F) (out : list F) :
  List.length (Numeric.add_at i s out) = List.length out.
Proof.
  revert i. induction out as [|x out IH]; intros i; [reflexivity|].
  destruct i; cbn; [reflexivity|]. now rewrite IH.
Qed.

Lemma accumulate_length {F : Type} {A : Arith F} (dim : Z) (tokens : list string) :
  List.length (Embedding.accumulate (F := F) dim tokens) = Z.to_nat dim.
Proof.
  unfold Embedding.accumulate.
  assert (G : forall out : list F,
             List.length
               (fold_left
                  (fun out token =>
                     Numeric.add_at (Z.to_nat (Embedding.bucket_of dim token))
                                    (Embedding.sign_of token) out)
                  tokens out) = List.length out).
  { induction tokens as [|t tokens IH]; intros out; cbn [fold_left]; [reflexivity|].
    rewrite IH. apply add_at_length. }
  rewrite G. apply repeat_length.
Qed.

Lemma encode_length {F : Type} {A : Arith F} (dim : Z) (text : string) :
  List.length (Embedding.encode (F := F) dim text) = Z.to_nat dim.
Proof.
  unfold Embedding.encode. cbv zeta.
  destruct (Numeric.is_empty _); [apply repeat_length|].
  destruct (eqb _ _); [|rewrite length_map]; apply accumulate_length.
Qed.

Lemma default_embedder_fixed_length (cfg : option RAGConfig) :
  exists n, fixed_length (embedder (Engine.init cfg None)) n.
Proof.
  eexists. intros s. cbn [Engine.init embedder]. apply encode_length.
Qed.

End SearchFacts.

(** ** Exact duplicates *)

Section ExactDuplicates.
Import Engine Bank BankFacts IngestFacts SearchFacts.
Variable rt : Runtime.



(** A row whose exact hash is registered is reported as an exact duplicate
    of the registered qid, and the engine keeps its documents. *)
Lemma registered_hash_is_duplicate (self : Engine.t) (d2 : QuestionDocument)
      (m : string) (payload : IngestionInput) :
  bank_ok self ->
  dict_get (exact_hash (fingerprints d2)) (exact_hash_map self) = Some m ->
  _normalize_input rt self payload = [d2] ->
  snd (ingest rt self payload) =
  Ok [{| question := d2; status := StatusExactDuplicate;
         matched_qid := Some m; score := Some 1%float |}] /\
  docs (fst (ingest rt self payload)) = docs self.
Proof.
  intros Hok Hm Hn.
  assert (E : ingest_step rt self d2 =
              (self, Ok {| question := d2; status := StatusExactDuplicate;
                           matched_qid := Some m; score := Some 1%float |})).
  { destruct (ingest_step_cases rt self d2) as [[m' [Gm [_ ->]]]|[[G|G] _]];
      rewrite Hm in *.
    - now injection Gm as <-.
    - discriminate.
    - injection G as G. apply (ok_truthy self Hok) in Hm. rewrite G in Hm. discriminate. }
  unfold ingest, ingest_normalized. rewrite Hn. cbn [ingest_loop]. rewrite E.
  cbn. auto.
Qed.

(** C1. Exact-duplicate suppression.  For every reachable bank and every
    document [d] stored in it, ingesting a row whose normalised document
    [d2] has the exact hash of [d] yields one [IngestedQuestion] with status
    exact-duplicate, [matched_qid = d.qid] and [score = 1.0]; [d2] is not
    stored: the documents of the bank, and so their number, are the same
    after the ingest as before. *)
Theorem exact_duplicate_suppressed (self : Engine.t) (d d2 : QuestionDocument)
        (payload : IngestionInput) :
  reachable rt self ->
  dict_get (qid d) (docs self) = Some d ->
  _normalize_input rt self payload = [d2] ->
  exact_hash (fingerprints d2) = exact_hash (fingerprints d) ->
  snd (ingest rt self payload) =
  Ok [{| question := d2; status := StatusExactDuplicate;
         matched_qid := Some (qid d); score := Some 1%float |}] /\
  docs (fst (ingest rt self payload)) = docs self /\
  List.length (docs (fst (ingest rt self payload))) = List.length (docs self).
Proof.
  intros Hr Hd Hn Hh.
  pose proof (reachable_ok rt self Hr) as Hok.
  pose proof (ok_doc_hash self Hok _ _ (@DictFacts.get_in _ _ _ _ Hd)) as Hm.
  rewrite <- Hh in Hm.
  destruct (registered_hash_is_duplicate self d2 (qid d) payload Hok Hm Hn) as [R D].
  rewrite R, D. auto.
Qed.

(** C8, as amended.  For every qid present in the bank before an ingest
    call, a document is still stored under that qid after the call, whether
    the call returns or raises; it is the document that was there unless a
    row of the call carries the same qid, and then it is either that
    document or the document of such a row. *)
Theorem stored_document_after_ingest (self : Engine.t) (payload : IngestionInput)
        (k : string) (d : QuestionDocument) :
  dict_get k (docs self) = Some d ->
  exists d',
    dict_get k (docs (fst (ingest rt self payload))) = Some d' /\
    (d' = d \/ (In d' (_normalize_input rt self payload) /\ qid d' = k)) /\
    ((forall q, In q (_normalize_input rt self payload) -> qid q <> k) -> d' = d).
Proof.
  intros Hd. unfold ingest, ingest_normalized.
  destruct (ingest_loop_docs rt (_normalize_input rt self payload) k self [] d Hd)
    as [d' H].
  exists d'.
  destruct (ingest_loop rt self (_normalize_input rt self payload) [])
    as [self' [out|e]]; exact H.
Qed.


End ExactDuplicates.

(** ** The ingest properties on the example bank *)

Section IngestExamples.
Import Engine Examples.

(** Scenario S1: after [row_a], the same content under the qid ["b"] is an
    exact duplicate of ["a"] and the bank keeps its one document. *)
Lemma exact_duplicate_suppressed_witness :
  snd (ingest bare_runtime bank_a (batch [row_b])) =
  Ok [{| question := doc_of 0 row_b; status := StatusExactDuplicate;
         matched_qid := Some (qid (doc_of 0 row_a)); score := Some 1%float |}] /\
  docs (fst (ingest bare_runtime bank_a (batch [row_b]))) = docs bank_a /\
  List.length (docs (fst (ingest bare_runtime bank_a (batch [row_b])))) =
  List.length (docs bank_a).
Proof.
  apply (exact_duplicate_suppressed bare_runtime bank_a (doc_of 0 row_a)
           (doc_of 0 row_b) (batch [row_b])).
  - apply Bank.reach_ingest, Bank.reach_init.
  - vm_compute. reflexivity.
  - vm_compute. reflexivity.
  - vm_compute. reflexivity.
Defined.


(** The near-duplicate check reads the index of before the batch: the row
    with the other answer is a near duplicate of ["a"] when it comes in a
    later batch, and new when it comes in the same batch; the exact
    duplicate ["b"] is found in both cases. *)
Example duplicate_checks_within_and_across_batches :
  statuses_of (snd (ingest bare_runtime new_engine
                      (batch [row_a; row_other_answer; row_b])))
  = Some [("a", StatusNew, None); ("n", StatusNew, None);
          ("b", StatusExactDuplicate, Some "a")] /\
  statuses_of (snd (ingest bare_runtime bank_a (batch [row_other_answer; row_b])))
  = Some [("n", StatusNearDuplicate, Some "a");
          ("b", StatusExactDuplicate, Some "a")].
Proof. vm_compute. split; reflexivity. Qed.

(** Ingesting [row_b] leaves the document stored under ["a"] as it was. *)
Lemma stored_document_after_ingest_witness :
  exists d',
    dict_get "a" (docs (fst (ingest bare_runtime bank_a (batch [row_b])))) = Some d' /\
    (d' = doc_of 0 row_a \/
     (In d' (_normalize_input bare_runtime bank_a (batch [row_b])) /\ qid d' = "a")) /\
    ((forall q, In q (_normalize_input bare_runtime bank_a (batch [row_b])) ->
                qid q <> "a") -> d' = doc_of 0 row_a).
Proof.
  apply (stored_document_after_ingest bare_runtime bank_a (batch [row_b]) "a"
           (doc_of 0 row_a)).
  vm_compute. reflexivity.
Defined.

(** C8, as the specification states it, fails: a row that reuses the qid
    ["a"] with another content replaces the stored document. *)
Lemma qid_reuse_overwrites :
  ~ (forall (rt : Runtime) (self : Engine.t) (payload : IngestionInput)
            (k : string) (d : QuestionDocument),
        Bank.reachable rt self ->
        dict_get k (docs self) = Some d ->
        dict_get k (docs (fst (ingest rt self payload))) = Some d).
Proof.
  intros H.
  specialize (H bare_runtime bank_a (batch [row_a_again]) "a" (doc_of 0 row_a)).
  assert (R : Bank.reachable bare_runtime bank_a)
    by (apply Bank.reach_ingest, Bank.reach_init).
  specialize (H R ltac:(vm_compute; reflexivity)).
  vm_compute in H. discriminate H.
Qed.

(** What the bank holds under ["a"] after the reuse. *)
Example qid_reuse_stem :
  option_map stem (dict_get "a" (docs bank_a)) = Some "Find the derivative of x^2 + 3x." /\
  option_map stem
    (dict_get "a" (docs (fst (ingest bare_runtime bank_a (batch [row_a_again])))))
  = Some "Solve 2x + 5 = 11." /\
  List.length (docs (fst (ingest bare_runtime bank_a (batch [row_a_again])))) = 1%nat.
Proof. vm_compute. auto. Qed.

End IngestExamples.

(** ** The numeric kernels in the real numbers *)

Module RealFacts.
Import Numeric Notions.
Local Open Scope R_scope.












End RealFacts.




(** In binary64 the embedding of a text whose counts do not cancel has a
    norm that differs from 1 by less than [1e-15]. *)
Example encode_norm_binary64 :
  PrimFloat.ltb
    (PrimFloat.abs
       (PrimFloat.sub
          (Numeric.norm (Embedding.encode (F := float) 512 "Find the derivative of x^2 + 3x."))
          1%float))
    1e-15%float = true.
Proof. vm_compute. reflexivity. Qed.

(** ** Fusion weights *)



(** In binary64, at the default configuration: the weights used are 0.5,
    0.5 and 0, and both sums are 1. *)
Example fusion_weights_default_binary64 :
  Numeric.effective_weights (sparse_weight default_config) (dense_weight default_config)
                            (image_weight default_config) false
  = (0.5%float, 0.5%float, 0%float) /\
  PrimFloat.add (PrimFloat.add (sparse_weight default_config) (dense_weight default_config))
                (image_weight default_config) = 1%float.
Proof. vm_compute. split; reflexivity. Qed.

(** Binary64 rounds each sum: with the weights 0.1, 0.2 and 0.3 the weights
    used add up to 0.6 and the configured ones to the next float,
    0.6000000000000001.  The conservation is exact in the real numbers and
    holds up to rounding in the interpreter. *)
Example fusion_weights_rounding_binary64 :
  Numeric.effective_weights 0.1%float 0.2%float 0.3%float false
  = (0.25%float, PrimFloat.add 0.2 0.15, 0%float) /\
  PrimFloat.add 0.25 (PrimFloat.add 0.2 0.15) = 0.6%float /\
  PrimFloat.add (PrimFloat.add 0.1 0.2) 0.3 = PrimFloat.next_up 0.6%float.
Proof. vm_compute. repeat split; reflexivity. Qed.

(** ** Vector search on an index of mixed lengths *)

Section MixedLengths.
Import Examples.

(** C7 at the failing input.  With NumPy importable, searching an index
    that holds a vector of length 2 and one of length 1 raises
    [ValueError]: [_search_numpy] builds the matrix of all stored vectors
    before it looks at any length. *)
Theorem search_numpy_raises_on_mixed_lengths (rt : Runtime) (np : Numpy) :
  VectorIndex.search (with_numpy rt np) mixed_index [1%float; 0%float] 5
  = Raise ValueError.
Proof. reflexivity. Qed.

(** Without NumPy the same search skips the shorter vector and returns the
    other one. *)
Example search_heap_skips_mixed_lengths :
  VectorIndex.search bare_runtime mixed_index [1%float; 0%float] 5
  = Ok [{| hit_qid := "a"; hit_score := 1%float |}].
Proof. vm_compute. reflexivity. Qed.

(** The same for every index that holds two vectors of different lengths
    and every non-empty query. *)
Lemma search_numpy_raises_on_any_mixed_index (rt : Runtime) (np : Numpy)
      (rows : VectorIndex.t) (vector : list float) (top_k : Z)
      (k1 k2 : string) (v1 v2 : list float) :
  numpy rt = Some np ->
  vector <> [] ->
  In (k1, v1) rows -> In (k2, v2) rows -> List.length v1 <> List.length v2 ->
  VectorIndex.search rt rows vector top_k = Raise ValueError.
Proof.
  intros Hnp Hv H1 H2 Hlen. unfold VectorIndex.search. rewrite Hnp.
  destruct vector as [|x vector]; [contradiction|]. cbn [Numeric.is_empty].
  destruct rows as [|[k0 v0] rest]; [contradiction|]. cbn [Numeric.is_empty negb].
  unfold VectorIndex._search_numpy.
  cbn [dict_values map snd VectorIndex.np_array].
  assert (F : forallb (fun r' => Nat.eqb (List.length r') (List.length v0))
                      (map snd rest) = false).
  { destruct (forallb _ (map snd rest)) eqn:E; [|reflexivity]. exfalso.
    rewrite forallb_forall in E.
    assert (L : forall k v, In (k, v) ((k0, v0) :: rest) -> List.length v = List.length v0).
    { intros k v [Hin|Hin]; [now injection Hin as _ <-|].
      apply Nat.eqb_eq. apply E. apply in_map_iff. now exists (k, v). }
    apply Hlen. rewrite (L _ _ H1), (L _ _ H2). reflexivity. }
  unfold dict_values in *. rewrite F. reflexivity.
Qed.

(** A [top_k] of 0 makes the loop of [_search_heap] read [heap[0]] on the
    empty heap. *)
Example search_heap_raises_on_zero_top_k :
  VectorIndex._search_heap mixed_index [1%float; 0%float] 0 = Raise IndexError.
Proof. vm_compute. reflexivity. Qed.

(** In the engine: a bank with an image that brings a vector of length 3
    and an image that brings none (its vector is the embedding, of length
    512).  With NumPy an image query raises. *)
Example retrieve_raises_on_mixed_image_vectors (rt : Runtime) (np : Numpy) :
  Engine.retrieve (with_numpy rt np)
    (fst (Engine.ingest (with_numpy rt np) new_engine (batch [row_img; row_caption])))
    (image_query (VDict []))
  = Raise ValueError.
Proof. destruct rt as [ml pr jd np0 pf]. vm_compute. reflexivity. Qed.

End MixedLengths.

(** What [_search_heap] returns, for [top_k >= 1]: it does not raise, and
    every hit is a stored vector of the length of the query, scored by
    [cosine_similarity], with a score that is not [<= 0]; there are at most
    [top_k] hits. *)
Module HeapFacts.
Import Notions.

Lemma insert_desc_in {T : Type} (lt : T -> T -> bool) (x y : T) (l : list T) :
  In x (Sorting.insert_desc lt y l) -> x = y \/ In x l.
Proof.
  induction l as [|z l IH]; cbn [Sorting.insert_desc].
  - intros [H|[]]. now left.
  - destruct (lt y z); cbn [In].
    + intros [H|H]; [right; now left|].
      destruct (IH H) as [E|E]; [now left|right; now right].
    + intros [H|H]; [now left|now right].
Qed.

Lemma sort_desc_in {T : Type} (lt : T -> T -> bool) (x : T) (l : list T) :
  In x (Sorting.sort_desc lt l) -> In x l.
Proof.
  unfold Sorting.sort_desc. induction l as [|y l IH]; cbn [fold_right]; [auto|].
  intros H. destruct (insert_desc_in lt x y _ H) as [E|E]; [now left|right; auto].
Qed.

Lemma insert_desc_length {T : Type} (lt : T -> T -> bool) (y : T) (l : list T) :
  List.length (Sorting.insert_desc lt y l) = S (List.length l).
Proof.
  induction l as [|z l IH]; cbn [Sorting.insert_desc]; [reflexivity|].
  destruct (lt y z); cbn [List.length]; [now rewrite IH|reflexivity].
Qed.

Lemma sort_desc_length {T : Type} (lt : T -> T -> bool) (l : list T) :
  List.length (Sorting.sort_desc lt l) = List.length l.
Proof.
  unfold Sorting.sort_desc. induction l as [|y l IH]; cbn [fold_right]; [reflexivity|].
  rewrite insert_desc_length. cbn. now rewrite IH.
Qed.

Lemma firstn_in {T : Type} (n : nat) (x : T) (l : list T) :
  In x (firstn n l) -> In x l.
Proof.
  revert l. induction n as [|n IH]; intros [|y l]; cbn; try tauto.
  intros [H|H]; [now left|right; auto].
Qed.

Lemma slice_to_in {T : Type} (k : Z) (x : T) (l : list T) :
  In x (slice_to k l) -> In x l.
Proof. unfold slice_to. destruct (0 <=? k); apply firstn_in. Qed.

Lemma heappush_in (x e : VectorIndex.entry) (heap : list VectorIndex.entry) :
  In x (VectorIndex.heappush e heap) -> x = e \/ In x heap.
Proof.
  induction heap as [|y heap IH]; cbn [VectorIndex.heappush].
  - intros [H|[]]. now left.
  - destruct (VectorIndex.entry_ltb e y); cbn [In].
    + intros [H|H]; [now left|now right].
    + intros [H|H]; [right; now left|].
      destruct (IH H) as [E|E]; [now left|right; now right].
Qed.

Lemma heappush_length (e : VectorIndex.entry) (heap : list VectorIndex.entry) :
  List.length (VectorIndex.heappush e heap) = S (List.length heap).
Proof.
  induction heap as [|y heap IH]; cbn [VectorIndex.heappush]; [reflexivity|].
  destruct (VectorIndex.entry_ltb e y); cbn [List.length]; [reflexivity|now rewrite IH].
Qed.

Lemma heap_step_scored (rows : VectorIndex.t) (vector : list float) (top_k : Z)
      (heap heap' : list VectorIndex.entry) (row : string * list float) :
  0 <= top_k ->
  In row rows ->
  (forall e, In e heap -> scored rows vector e) ->
  Z.of_nat (List.length heap) <= top_k ->
  VectorIndex.heap_step vector top_k heap row = Ok heap' ->
  (forall e, In e heap' -> scored rows vector e) /\
  Z.of_nat (List.length heap') <= top_k.
Proof.
  intros Hk Hrow Hheap Hlen. unfold VectorIndex.heap_step. destruct row as [q v].
  cbn [fst snd].
  destruct (Nat.eqb_spec (List.length v) (List.length vector)) as [L|L]; cbn [negb];
    [|intros H; injection H as <-; auto].
  destruct (PrimFloat.leb (Numeric.cosine_similarity vector v) 0%float) eqn:P;
    [intros H; injection H as <-; auto|].
  assert (New : scored rows vector (Numeric.cosine_similarity vector v, q)).
  { exists v. cbn [fst snd]. auto. }
  destruct (Z.ltb_spec (Z.of_nat (List.length heap)) top_k) as [Lt|Ge].
  - intros H. injection H as <-. split.
    + intros e He. destruct (heappush_in e _ _ He) as [->|E]; auto.
    + rewrite heappush_length. lia.
  - destruct heap as [|least rest]; [discriminate|].
    destruct (PrimFloat.ltb _ _); intros H; injection H as <-; [|auto].
    split.
    + intros e He. destruct (heappush_in e _ _ He) as [->|E]; [exact New|].
      apply Hheap. now right.
    + rewrite heappush_length. cbn [List.length] in Hlen. lia.
Qed.

Lemma heap_loop_scored (all_rows : VectorIndex.t) (vector : list float) (top_k : Z) :
  0 <= top_k ->
  forall (rows : VectorIndex.t) (heap heap' : list VectorIndex.entry),
    (forall row, In row rows -> In row all_rows) ->
    (forall e, In e heap -> scored all_rows vector e) ->
    Z.of_nat (List.length heap) <= top_k ->
    VectorIndex.heap_loop vector top_k rows heap = Ok heap' ->
    (forall e, In e heap' -> scored all_rows vector e) /\
    Z.of_nat (List.length heap') <= top_k.
Proof.
  intros Hk. induction rows as [|row rows IH]; intros heap heap' Hsub Hheap Hlen;
    cbn [VectorIndex.heap_loop].
  - intros H. injection H as <-. auto.
  - destruct (VectorIndex.heap_step vector top_k heap row) as [heap1|e] eqn:S;
      cbn [bind]; [|discriminate].
    destruct (heap_step_scored all_rows vector top_k heap heap1 row Hk
                (Hsub row (or_introl eq_refl)) Hheap Hlen S) as [H1 L1].
    apply IH; auto. intros r Hr. apply Hsub. now right.
Qed.

Lemma search_heap_sound (rows : VectorIndex.t) (vector : list float) (top_k : Z) :
  1 <= top_k ->
  exists hits,
    VectorIndex._search_heap rows vector top_k = Ok hits /\
    Z.of_nat (List.length hits) <= top_k /\
    forall h, In h hits -> scored rows vector (hit_score h, hit_qid h).
Proof.
  intros Hk. unfold VectorIndex._search_heap.
  destruct (SearchFacts.heap_loop_returns vector top_k rows Hk []) as [heap E].
  rewrite E. cbn [bind]. eexists. split; [reflexivity|].
  destruct (heap_loop_scored rows vector top_k ltac:(lia) rows [] heap
              (fun _ H => H) (fun _ (H : In _ []) => match H with end)
              ltac:(cbn; lia) E) as [Hs Hl].
  split.
  - rewrite length_map, sort_desc_length. exact Hl.
  - intros h Hh. apply in_map_iff in Hh. destruct Hh as [e [<- He]].
    cbn [hit_score hit_qid]. apply sort_desc_in in He.
    destruct e as [s q]. exact (Hs _ He).
Qed.

End HeapFacts.

(** ** Retrieval on the example bank *)

Section RetrieveExamples.
Import Engine Examples.

(** Every result carries a dense score, whatever the channels gave. *)
Lemma dense_score_is_never_null (rt : Runtime) (self : Engine.t) (q : QueryInput)
      (resp : RetrievalResponse) (r : RetrievalResult) :
  retrieve rt self q = Ok resp -> In r (results resp) -> dense_score r <> None.
Proof.
  unfold retrieve. cbv zeta.
  destruct (Numeric.is_empty (_filter_qids self q)).
  - intros H. injection H as <-. intros [].
  - destruct (Scoring.score_dense _ _ _ _ _ _) as [dense_hits|e]; cbn [bind];
      [|discriminate].
    destruct (Scoring.score_image _ _ _ _ _ _) as [image_hits|e]; cbn [bind];
      [|discriminate].
    intros H. injection H as <-. cbn [results]. intros Hr.
    apply in_map_iff in Hr. destruct Hr as [row [<- Hrow]].
    apply HeapFacts.slice_to_in, HeapFacts.sort_desc_in in Hrow.
    apply in_flat_map in Hrow. destruct Hrow as [cand [_ Hrow]].
    unfold rerank_row in Hrow.
    destruct (dict_get (hit_qid cand) (docs self)); [|contradiction].
    destruct Hrow as [<-|[]]. cbn. discriminate.
Qed.

(** C4 at the failing input, scenario S5.  The bank holds one document with
    the image vector [[1, 0, 0]]; the query has no text and the same image
    vector.  The one result has an image score of 1 and no BM25 score, and
    its dense score is 0.0 where the specification has null; the reason lists
    [dense=0.000]. *)
Theorem image_only_query_reports_dense_zero :
  scores_of (retrieve bare_runtime bank_img (image_query (VDict [])))
  = Some [("a", None, Some 0%float, Some 1%float,
           "dense=0.000, image=1.000, rerank=0.250")].
Proof. vm_compute. reflexivity. Qed.

(** The same holds on every runtime without NumPy. *)
Lemma image_only_query_any_runtime (rt : Runtime) :
  numpy rt = None ->
  scores_of (retrieve rt (fst (ingest rt new_engine (batch [row_img])))
                      (image_query (VDict [])))
  = Some [("a", None, Some 0%float, Some 1%float,
           "dense=0.000, image=1.000, rerank=0.250")].
Proof.
  intros H. destruct rt as [ml pr jd np pf]. cbn [numpy] in H. subst np.
  vm_compute. reflexivity.
Qed.

(** C3 at the failing input.  [bank_img] is saved and a new engine loads
    the file.  The reloaded bank has the one document with the same exact
    hash, but its image has another id and another vector: the saved line
    has the keys [image_id] and [image_vector], [_normalize_images] reads
    [imageId] and [imageVector].  The image query that found the document in
    the original bank finds nothing in the reloaded one. *)
Theorem reload_loses_image_vectors :
  scores_of (retrieve bare_runtime bank_img (image_query (VDict [])))
  = Some [("a", None, Some 0%float, Some 1%float,
           "dense=0.000, image=1.000, rerank=0.250")] /\
  scores_of (retrieve bare_runtime bank_img_reloaded (image_query (VDict [])))
  = Some [] /\
  map (fun d => (qid d, exact_hash (fingerprints d))) (dict_values (docs bank_img_reloaded))
  = map (fun d => (qid d, exact_hash (fingerprints d))) (dict_values (docs bank_img)) /\
  map (fun d => map (fun i => (image_id i, List.length (image_vector i))) (images d))
      (dict_values (docs bank_img))
  = [[("i1", 3%nat)]] /\
  map (fun d => map (fun i => (image_id i, List.length (image_vector i))) (images d))
      (dict_values (docs bank_img_reloaded))
  = [[("a_img_1", 512%nat)]].
Proof. vm_compute. repeat split; reflexivity. Qed.

(** The same on every runtime without NumPy. *)
Lemma reload_loses_image_vectors_any_runtime (rt : Runtime) :
  numpy rt = None ->
  let bank := fst (ingest rt new_engine (batch [row_img])) in
  let reloaded := fst (load_local_bank rt new_engine (Some (snd (save_local_bank bank)))) in
  scores_of (retrieve rt bank (image_query (VDict [])))
  = Some [("a", None, Some 0%float, Some 1%float,
           "dense=0.000, image=1.000, rerank=0.250")] /\
  scores_of (retrieve rt reloaded (image_query (VDict []))) = Some [].
Proof.
  intros H. destruct rt as [ml pr jd np pf]. cbn [numpy] in H. subst np.
  vm_compute. split; reflexivity.
Qed.

(** A document read back from a saved line has no [source]: the loader
    replays the lines as question rows. *)
Lemma reloaded_document_has_no_source (rt : Runtime) (emb : Embedder) (i : Z)
      (line : pyval) :
  source (document_of_row rt emb i line) = VNone.
Proof. reflexivity. Qed.

End RetrieveExamples.

(** ** Where the qids of a retrieval come from *)

Module RetrieveFacts.
Import Engine Bank BankFacts HeapFacts Notions.

Lemma fold_left_ind {A B : Type} (P : A -> Prop) (f : A -> B -> A) (l : list B) :
  forall a, P a -> (forall a x, In x l -> P a -> P (f a x)) -> P (fold_left f l a).
Proof.
  induction l as [|x l IH]; intros a Ha Hf; cbn [fold_left]; [exact Ha|].
  apply IH.
  - apply Hf; [now left|exact Ha].
  - intros a' x' Hin. apply Hf. now right.
Qed.

Lemma set_mem_in (k : string) (s : list string) : set_mem k s = true <-> In k s.
Proof.
  unfold set_mem. rewrite existsb_exists. split.
  - intros [x [Hin E]]. apply String.eqb_eq in E. now subst.
  - intros H. exists k. split; [exact H|apply String.eqb_refl].
Qed.

Lemma set_add_in (k k' : string) (s : list string) :
  In k (set_add k' s) -> k = k' \/ In k s.
Proof.
  unfold set_add. destruct (set_mem k' s); [now right|].
  intros H. apply in_app_or in H. destruct H as [H|[H|[]]]; [now right|now left].
Qed.

Lemma score_sparse_within (rt : Runtime) (bm25 : BM25.BM25Index) (query_text : string)
      (top_k : Z) (allowed : list string) :
  within allowed (Scoring.score_sparse rt bm25 query_text top_k allowed).
Proof.
  intros h. unfold Scoring.score_sparse. destruct (negb _); [intros []|].
  intros H. apply filter_In in H. now apply set_mem_in.
Qed.

Lemma score_dense_within (rt : Runtime) (stem_index explanation_index : VectorIndex.t)
      (query_vector : list float) (top_k : Z) (allowed : list string) (hits : list Hit) :
  Scoring.score_dense rt stem_index explanation_index query_vector top_k allowed = Ok hits ->
  within allowed hits.
Proof.
  unfold Scoring.score_dense. destruct (Numeric.is_empty query_vector).
  - intros H. injection H as <-. intros h [].
  - destruct (VectorIndex.search rt stem_index _ _) as [stem|e]; cbn [bind];
      [|discriminate].
    destruct (VectorIndex.search rt explanation_index _ _) as [exp|e]; cbn [bind];
      [|discriminate].
    intros H. injection H as <-. intros h Hh.
    apply slice_to_in, sort_desc_in, filter_In in Hh. now apply set_mem_in.
Qed.

Lemma merge_max_keys (k q : string) (s : float) (merged : dict float) :
  In k (dict_keys (Scoring.merge_max q s merged)) -> k = q \/ In k (dict_keys merged).
Proof. apply DictFacts.keys_set_in. Qed.

Lemma hits_of_qid (merged : dict float) (h : Hit) :
  In h (Scoring.hits_of merged) -> In (hit_qid h) (dict_keys merged).
Proof.
  unfold Scoring.hits_of, dict_keys. intros H. apply in_map_iff in H.
  destruct H as [[k s] [<- Hin]]. cbn. apply in_map_iff. now exists (k, s).
Qed.

Lemma score_image_within (rt : Runtime) (image_index : VectorIndex.t)
      (image_owner : dict string) (image_vector : list float) (top_k : Z)
      (allowed : list string) (hits : list Hit) :
  Scoring.score_image rt image_index image_owner image_vector top_k allowed = Ok hits ->
  within allowed hits.
Proof.
  unfold Scoring.score_image. destruct (Numeric.is_empty image_vector).
  - intros H. injection H as <-. intros h [].
  - destruct (VectorIndex.search rt image_index _ _) as [raw|e]; cbn [bind];
      [|discriminate].
    intros H. injection H as <-. intros h Hh.
    apply sort_desc_in, hits_of_qid in Hh. revert Hh.
    generalize (hit_qid h). clear h.
    apply (fold_left_ind (fun m => forall k, In k (dict_keys m) -> In k allowed)).
    + intros k [].
    + intros m row _ Hm k.
      destruct (dict_get (hit_qid row) image_owner) as [q|]; [|apply Hm].
      destruct (Utils.nonempty q); cbn [negb orb]; [|apply Hm].
      destruct (set_mem q allowed) eqn:E; cbn [negb]; [|apply Hm].
      intros Hk. destruct (merge_max_keys _ _ _ _ Hk) as [->|Hk']; [|now apply Hm].
      now apply set_mem_in.
Qed.

Lemma enumerate_in {T : Type} (i : Z) (x : T) (rows : list T) :
  In (i, x) (Fusion.enumerate rows) -> In x rows.
Proof. unfold Fusion.enumerate. apply in_combine_r. Qed.

(** A qid of the fused ranking comes from one of the rankings. *)
Lemma rrf_fuse_qid (rankings : list (list Hit)) (rrf_k : Z) (h : Hit) :
  In h (Fusion.rrf_fuse rankings rrf_k) ->
  exists rows r, In rows rankings /\ In r rows /\ hit_qid r = hit_qid h.
Proof.
  unfold Fusion.rrf_fuse. intros H. apply sort_desc_in in H.
  apply (hits_of_qid _ h) in H. revert H. generalize (hit_qid h). clear h.
  apply (fold_left_ind
           (fun m => forall k, In k (dict_keys m) ->
                               exists rows r, In rows rankings /\ In r rows /\ hit_qid r = k)).
  - intros k [].
  - intros m rows Hrows Hm.
    apply (fold_left_ind
             (fun m => forall k, In k (dict_keys m) ->
                                 exists rows r, In rows rankings /\ In r rows /\ hit_qid r = k)).
    + exact Hm.
    + intros m' [i row] Hin Hm' k Hk. cbn [fst snd] in Hk.
      destruct (DictFacts.keys_set_in _ _ _ _ Hk) as [->|Hk']; [|now apply Hm'].
      exists rows, row. split; [exact Hrows|]. split; [|reflexivity].
      now apply enumerate_in in Hin.
Qed.

Lemma fuse_hybrid_scores_qid (bm25_hits dense_hits image_hits : list Hit)
      (config : RAGConfig) (has_image_query : bool) (h : Hit) :
  In h (Scoring.fuse_hybrid_scores bm25_hits dense_hits image_hits config has_image_query) ->
  exists r, In r (bm25_hits ++ dense_hits ++ image_hits)%list /\ hit_qid r = hit_qid h.
Proof.
  unfold Scoring.fuse_hybrid_scores. cbv zeta. intros H.
  apply sort_desc_in, in_flat_map in H. destruct H as [k [Hk Hh]].
  assert (E : hit_qid h = k).
  { destruct (PrimFloat.ltb _ _); [|contradiction]. destruct Hh as [<-|[]]. reflexivity. }
  rewrite E. clear E Hh h. revert k Hk.
  set (three := [bm25_hits; dense_hits; image_hits]).
  assert (T : forall rows r, In rows three -> In r rows ->
                             In r (bm25_hits ++ dense_hits ++ image_hits)%list).
  { intros rows r [<-|[<-|[<-|[]]]] Hr.
    - apply in_or_app. now left.
    - apply in_or_app. right. apply in_or_app. now left.
    - apply in_or_app. right. apply in_or_app. now right. }
  apply (fold_left_ind
           (fun s => forall k, In k s ->
                               exists r, In r (bm25_hits ++ dense_hits ++ image_hits)%list /\
                                         hit_qid r = k)).
  - intros k [].
  - intros s rows Hrows Hs.
    apply (fold_left_ind
             (fun s => forall k, In k s ->
                                 exists r, In r (bm25_hits ++ dense_hits ++ image_hits)%list /\
                                           hit_qid r = k)).
    + exact Hs.
    + intros s' row Hrow Hs' k Hk.
      destruct (set_add_in _ _ _ Hk) as [->|Hk']; [|now apply Hs'].
      destruct Hrows as [<-|[<-|[<-|[<-|[]]]]].
      * exists row. split; [apply (T bm25_hits); cbn; auto|reflexivity].
      * exists row. split; [apply (T dense_hits); cbn; auto|reflexivity].
      * exists row. split; [apply (T image_hits); cbn; auto|reflexivity].
      * destruct (rrf_fuse_qid _ _ _ Hrow) as [rows' [r [Hin [Hr Eq]]]].
        exists r. split; [now apply (T rows')|exact Eq].
Qed.

(** A qid that passes [_filter_qids] is the qid of a stored document that
    passes the six tests. *)
Lemma filter_qids_sound (self : Engine.t) (q : QueryInput) (k : string) :
  In k (_filter_qids self q) ->
  exists d,
    In d (dict_values (docs self)) /\ qid d = k /\
    passes_filters (py_or (filters q) (VDict []))
                   (py_or (VDict (metadata d)) (VDict [])) = true.
Proof.
  unfold _filter_qids. cbv zeta. revert k.
  apply (fold_left_ind
           (fun s => forall k, In k s ->
                               exists d, In d (dict_values (docs self)) /\ qid d = k /\
                                         passes_filters (py_or (filters q) (VDict []))
                                           (py_or (VDict (metadata d)) (VDict [])) = true)).
  - intros k [].
  - intros s d Hd Hs k.
    destruct (passes_filters _ _) eqn:P; [|apply Hs].
    intros Hk. destruct (set_add_in _ _ _ Hk) as [->|Hk']; [|now apply Hs].
    exists d. auto.
Qed.

Lemma get_py_or_empty (key : string) (f : pyval) :
  get key (py_or f (VDict [])) = get key f.
Proof.
  unfold py_or. destruct (truthy f) eqn:T; [reflexivity|].
  destruct f as [| | | | | |kvs]; try reflexivity.
  destruct kvs; [reflexivity|discriminate].
Qed.

(** What the six tests give for a document that passes. *)
Lemma passes_filters_sound (f md : pyval) :
  passes_filters f md = true ->
  (forall key,
      In key ["subject"; "gradeLevel"; "difficulty"; "questionType"; "examBoard"] ->
      truthy (get key f) = true -> py_eqb (get key md) (get key f) = true) /\
  (is_none (get "year" f) = false -> py_eqb (get "year" md) (get "year" f) = true).
Proof.
  unfold passes_filters, py_neb. intros H.
  repeat match type of H with
         | (if ?c then false else _) = true =>
             let E := fresh "E" in destruct c eqn:E; [discriminate H|]
         end.
  split.
  - intros key Hkey T.
    repeat (destruct Hkey as [<-|Hkey];
            [match goal with
             | E : truthy (get ?k f) && _ = false |- py_eqb (get ?k md) _ = true =>
                 rewrite T in E; cbn [andb] in E;
                 now apply negb_false_iff in E
             end|]).
    destruct Hkey.
  - intros N. rewrite N in E4. cbn [negb andb] in E4. now apply negb_false_iff in E4.
Qed.

(** A result is the stored document of a qid that passed the filter. *)
Lemma retrieve_result_origin (rt : Runtime) (self : Engine.t) (q : QueryInput)
      (resp : RetrievalResponse) (r : RetrievalResult) :
  retrieve rt self q = Ok resp -> In r (results resp) ->
  exists c,
    In c (_filter_qids self q) /\
    dict_get c (docs self) = Some (r_question r) /\
    r_qid r = qid (r_question r).
Proof.
  unfold retrieve. cbv zeta.
  destruct (Numeric.is_empty (_filter_qids self q)).
  - intros H. injection H as <-. intros [].
  - destruct (Scoring.score_dense _ _ _ _ _ _) as [dense_hits|e] eqn:D; cbn [bind];
      [|discriminate].
    destruct (Scoring.score_image _ _ _ _ _ _) as [image_hits|e] eqn:I; cbn [bind];
      [|discriminate].
    intros H. injection H as <-. cbn [results]. intros Hr.
    apply in_map_iff in Hr. destruct Hr as [row [<- Hrow]].
    apply slice_to_in, sort_desc_in in Hrow.
    apply in_flat_map in Hrow. destruct Hrow as [cand [Hcand Hrow]].
    apply slice_to_in in Hcand.
    destruct (fuse_hybrid_scores_qid _ _ _ _ _ _ Hcand) as [h [Hh Eh]].
    exists (hit_qid cand). split.
    + rewrite <- Eh. apply in_app_or in Hh. destruct Hh as [Hh|Hh].
      * exact (score_sparse_within _ _ _ _ _ h Hh).
      * apply in_app_or in Hh. destruct Hh as [Hh|Hh].
        -- exact (score_dense_within _ _ _ _ _ _ _ D h Hh).
        -- exact (score_image_within _ _ _ _ _ _ _ I h Hh).
    + unfold rerank_row in Hrow.
      destruct (dict_get (hit_qid cand) (docs self)) as [doc|]; [|contradiction].
      destruct Hrow as [<-|[]]. cbn. auto.
Qed.

End RetrieveFacts.

(** ** Filter soundness *)

Section FilterSoundness.
Import Engine Examples.

(** C6, as amended.  On every reachable bank and for every query, each
    result of [retrieve] is the document stored under its qid, and that
    document satisfies every recognised filter that applies: for [subject],
    [gradeLevel], [difficulty], [questionType] and [examBoard], a filter
    whose value is truthy (not null, empty, zero or false) equals the
    document's [metadata] entry under [==]; for [year], a filter that is not
    null does. *)
Theorem retrieved_documents_pass_filters (rt : Runtime) (self : Engine.t)
        (q : QueryInput) (resp : RetrievalResponse) (r : RetrievalResult) :
  Bank.reachable rt self ->
  retrieve rt self q = Ok resp ->
  In r (results resp) ->
  dict_get (r_qid r) (docs self) = Some (r_question r) /\
  (forall key,
      In key ["subject"; "gradeLevel"; "difficulty"; "questionType"; "examBoard"] ->
      truthy (get key (filters q)) = true ->
      py_eqb (get key (VDict (metadata (r_question r)))) (get key (filters q)) = true) /\
  (is_none (get "year" (filters q)) = false ->
   py_eqb (get "year" (VDict (metadata (r_question r)))) (get "year" (filters q)) = true).
Proof.
  intros Hr Hret Hin.
  pose proof (BankFacts.reachable_ok rt self Hr) as Hok.
  destruct (RetrieveFacts.retrieve_result_origin rt self q resp r Hret Hin)
    as [c [Hc [Hget Hq]]].
  pose proof (Bank.ok_doc_key self Hok _ _ (@DictFacts.get_in _ _ _ _ Hget)) as Hkey.
  destruct (RetrieveFacts.filter_qids_sound self q c Hc) as [d [Hd [Hdq Hpass]]].
  assert (E : d = r_question r).
  { unfold dict_values in Hd. apply in_map_iff in Hd.
    destruct Hd as [[k d'] [Ed Hind]]. cbn in Ed. subst d'.
    pose proof (Bank.ok_doc_key self Hok _ _ Hind) as Hk.
    pose proof (@DictFacts.in_get _ _ _ _ (Bank.ok_keys self Hok) Hind) as G.
    rewrite <- Hk, Hdq, Hget in G. now injection G. }
  subst d. split.
  - rewrite Hq, Hkey. exact Hget.
  - apply RetrieveFacts.passes_filters_sound in Hpass.
    destruct Hpass as [P5 Py]. split.
    + intros key Hk T.
      specialize (P5 key Hk). rewrite !RetrieveFacts.get_py_or_empty in P5. now apply P5.
    + intros N. rewrite !RetrieveFacts.get_py_or_empty in Py. now apply Py.
Qed.

(** The theorem on the example bank: the image query with the filter
    [{"difficulty": 3}] returns the document ["a"], whose difficulty is 3. *)
Lemma retrieved_documents_pass_filters_witness :
  exists resp r,
    retrieve bare_runtime bank_img (image_query (VDict [("difficulty", VInt 3)])) = Ok resp /\
    In r (results resp) /\
    r_qid r = "a" /\
    dict_get (r_qid r) (docs bank_img) = Some (r_question r) /\
    (forall key,
        In key ["subject"; "gradeLevel"; "difficulty"; "questionType"; "examBoard"] ->
        truthy (get key (VDict [("difficulty", VInt 3)])) = true ->
        py_eqb (get key (VDict (metadata (r_question r))))
               (get key (VDict [("difficulty", VInt 3)])) = true) /\
    (is_none (get "year" (VDict [("difficulty", VInt 3)])) = false ->
     py_eqb (get "year" (VDict (metadata (r_question r))))
            (get "year" (VDict [("difficulty", VInt 3)])) = true).
Proof.
  eexists. eexists.
  split; [vm_compute; reflexivity|].
  split; [left; reflexivity|].
  split; [reflexivity|].
  eapply (retrieved_documents_pass_filters bare_runtime bank_img
            (image_query (VDict [("difficulty", VInt 3)]))).
  - apply Bank.reach_ingest, Bank.reach_init.
  - vm_compute. reflexivity.
  - left. reflexivity.
Defined.

(** C6, as the specification states it, fails: the filter
    [{"subject": ""}] is present and not null, and the image query returns
    the document ["a"], which has no subject. *)
Lemma empty_filter_value_is_skipped :
  ~ (forall (rt : Runtime) (self : Engine.t) (q : QueryInput)
            (resp : RetrievalResponse) (r : RetrievalResult) (key : string),
        Bank.reachable rt self ->
        retrieve rt self q = Ok resp ->
        In r (results resp) ->
        In key ["subject"; "gradeLevel"; "difficulty"; "questionType"; "examBoard"; "year"] ->
        is_none (get key (filters q)) = false ->
        exists d,
          dict_get (r_qid r) (docs self) = Some d /\
          py_eqb (get key (VDict (metadata d))) (get key (filters q)) = true).
Proof.
  intros H.
  destruct (retrieve bare_runtime bank_img (image_query (VDict [("subject", VStr "")])))
    as [resp|e] eqn:E; [|vm_compute in E; discriminate E].
  destruct (results resp) as [|r rest] eqn:R.
  { vm_compute in E. injection E as <-. discriminate R. }
  specialize (H bare_runtime bank_img (image_query (VDict [("subject", VStr "")]))
                resp r "subject").
  destruct H as [d [Hd Heq]].
  - apply Bank.reach_ingest, Bank.reach_init.
  - exact E.
  - rewrite R. now left.
  - cbn. auto.
  - reflexivity.
  - vm_compute in E. injection E as <-. injection R as <- _.
    vm_compute in Hd. injection Hd as <-.
    vm_compute in Heq. discriminate Heq.
Qed.

(** What the queries with an empty and with a zero filter value return: the
    document, whose metadata has no subject and the difficulty 3. *)
Example skipped_filter_results :
  scores_of (retrieve bare_runtime bank_img (image_query (VDict [("subject", VStr "")])))
  = Some [("a", None, Some 0%float, Some 1%float,
           "dense=0.000, image=1.000, rerank=0.250")] /\
  scores_of (retrieve bare_runtime bank_img (image_query (VDict [("difficulty", VInt 0)])))
  = Some [("a", None, Some 0%float, Some 1%float,
           "dense=0.000, image=1.000, rerank=0.250")] /\
  scores_of (retrieve bare_runtime bank_img (image_query (VDict [("difficulty", VInt 4)])))
  = Some [] /\
  option_map (fun d => (get "subject" (VDict (metadata d)),
                        get "difficulty" (VDict (metadata d))))
             (dict_get "a" (docs bank_img))
  = Some (VNone, VInt 3).
Proof. vm_compute. repeat split; reflexivity. Qed.

End FilterSoundness.

(** ** The text utilities *)

Module TextFacts.
Import Utils Text.

Lemma chars_str (cs : list ascii) : chars (str cs) = cs.
Proof. apply list_ascii_of_string_of_list_ascii. Qed.

Lemma str_chars (s : string) : str (chars s) = s.
Proof. apply string_of_list_ascii_of_string. Qed.

Lemma str_app (a b : list ascii) : str (a ++ b) = (str a ++ str b)%string.
Proof. unfold str. induction a as [|c a IH]; cbn; [reflexivity|]. now f_equal. Qed.

Lemma strip_str (cs : list ascii) : strip (str cs) = str (strip_chars cs).
Proof. unfold strip, strip_chars. now rewrite chars_str. Qed.

Lemma normalize_text_chars (s : string) :
  normalize_text s = str (normalize_chars (chars s)).
Proof.
  unfold normalize_text, normalize_chars, lower.
  now rewrite strip_str, chars_str.
Qed.

(** Facts on single characters, by enumeration. *)
Ltac by_cases c :=
  destruct c as [[] [] [] [] [] [] [] []]; vm_compute; try reflexivity;
  intros; try discriminate; try reflexivity.

Lemma space_is_space (c : ascii) : Ascii.eqb c " "%char = true -> is_space c = true.
Proof. intros H. apply Ascii.eqb_eq in H. now subst. Qed.

Lemma word_not_space (c : ascii) : is_word c = true -> is_space c = false.
Proof. by_cases c. Qed.

Lemma clean_lower_char (c : ascii) : is_clean c = true -> lower_char c = c.
Proof. by_cases c. Qed.

Lemma clean_word_or_space (c : ascii) : is_clean c = true -> is_word_or_space c = true.
Proof. by_cases c. Qed.

Lemma lower_upper_char (c : ascii) : lower_char (upper_char c) = lower_char c.
Proof. by_cases c. Qed.

(** [lstrip] *)
Lemma lstrip_split (cs : list ascii) :
  exists sp, cs = (sp ++ lstrip_chars cs)%list /\ forallb is_space sp = true.
Proof.
  induction cs as [|c cs [sp [E F]]]; [exists []; auto|].
  cbn [lstrip_chars]. destruct (is_space c) eqn:S.
  - exists (c :: sp). cbn. rewrite S, F. split; [now rewrite <- E|reflexivity].
  - exists []. auto.
Qed.

Lemma lstrip_no_lead (cs : list ascii) : no_lead (lstrip_chars cs) = true.
Proof.
  induction cs as [|c cs IH]; [reflexivity|].
  cbn [lstrip_chars]. destruct (is_space c) eqn:S; [exact IH|]. cbn. now rewrite S.
Qed.

Lemma lstrip_id (cs : list ascii) : no_lead cs = true -> lstrip_chars cs = cs.
Proof.
  destruct cs as [|c cs]; [reflexivity|]. cbn.
  destruct (is_space c); [discriminate|reflexivity].
Qed.

Lemma no_lead_prefix (a b : list ascii) :
  no_lead (a ++ b) = true -> a <> [] -> no_lead a = true.
Proof. destruct a; [congruence|auto]. Qed.

(** [strip]: the result is what lies between the whitespace at both ends. *)
Lemma strip_chars_split (cs : list ascii) :
  exists pre post,
    cs = (pre ++ strip_chars cs ++ post)%list /\
    forallb is_space pre = true /\ forallb is_space post = true /\
    no_lead (strip_chars cs) = true /\ no_lead (rev (strip_chars cs)) = true.
Proof.
  unfold strip_chars.
  destruct (lstrip_split cs) as [pre [E1 F1]].
  pose proof (lstrip_no_lead cs) as N1.
  set (a := lstrip_chars cs) in *.
  destruct (lstrip_split (rev a)) as [sp [E2 F2]].
  pose proof (lstrip_no_lead (rev a)) as N2.
  set (b := lstrip_chars (rev a)) in *.
  assert (Ea : a = (rev b ++ rev sp)%list).
  { rewrite <- rev_app_distr, <- E2. symmetry. apply rev_involutive. }
  exists pre, (rev sp). split; [|split; [|split; [|split]]].
  - now rewrite <- Ea.
  - exact F1.
  - rewrite forallb_forall in *. intros x Hx. apply F2. now apply in_rev.
  - destruct (rev b) as [|c r] eqn:R; [reflexivity|].
    rewrite Ea in N1. exact N1.
  - now rewrite rev_involutive.
Qed.

Lemma strip_chars_id (cs : list ascii) :
  no_lead cs = true -> no_lead (rev cs) = true -> strip_chars cs = cs.
Proof.
  intros H1 H2. unfold strip_chars.
  now rewrite (lstrip_id cs H1), (lstrip_id _ H2), rev_involutive.
Qed.

(** Single spacing *)
Lemma single_spaced_weaken (b : bool) (cs : list ascii) :
  single_spaced b cs = true -> single_spaced false cs = true.
Proof.
  destruct cs as [|c cs]; [reflexivity|]. cbn.
  destruct (Ascii.eqb c " "); [|auto].
  intros H. apply andb_true_iff in H. now destruct H.
Qed.

Lemma single_spaced_app_l (x y : list ascii) :
  forall b, single_spaced b (x ++ y) = true -> single_spaced b x = true.
Proof.
  induction x as [|c x IH]; intros b; [reflexivity|]. cbn.
  destruct (Ascii.eqb c " "); [|apply IH].
  intros H. apply andb_true_iff in H. destruct H as [H1 H2].
  rewrite H1. cbn. now apply IH.
Qed.

Lemma single_spaced_app_r (x y : list ascii) :
  forall b, single_spaced b (x ++ y) = true -> single_spaced false y = true.
Proof.
  induction x as [|c x IH]; intros b; [apply single_spaced_weaken|]. cbn.
  destruct (Ascii.eqb c " "); [|apply IH].
  intros H. apply andb_true_iff in H. destruct H as [_ H]. now apply IH in H.
Qed.

Lemma sub_ws_runs_single (cs : list ascii) :
  forall b, single_spaced b (sub_ws_runs b cs) = true.
Proof.
  induction cs as [|c cs IH]; intros b; [reflexivity|]. cbn [sub_ws_runs].
  destruct (is_space c) eqn:S.
  - destruct b; [apply IH|]. cbn. apply IH.
  - cbn. destruct (Ascii.eqb c " ") eqn:E; [|apply IH].
    apply space_is_space in E. congruence.
Qed.

Lemma sub_ws_runs_clean (cs : list ascii) :
  forall b, forallb is_word_or_space cs = true ->
            forallb is_clean (sub_ws_runs b cs) = true.
Proof.
  induction cs as [|c cs IH]; intros b; [reflexivity|]. cbn [forallb sub_ws_runs].
  intros H. apply andb_true_iff in H. destruct H as [Hc H].
  destruct (is_space c) eqn:S.
  - destruct b; [now apply IH|]. cbn. now apply IH.
  - cbn. rewrite (IH false H), andb_true_r.
    unfold is_word_or_space in Hc. rewrite S, orb_false_r in Hc.
    unfold is_clean. now rewrite Hc.
Qed.

Lemma sub_non_alnum_chars (cs : list ascii) :
  forallb is_word_or_space (sub_non_alnum cs) = true.
Proof.
  unfold sub_non_alnum. induction cs as [|c cs IH]; [reflexivity|].
  cbn [map forallb]. rewrite IH, andb_true_r.
  unfold is_word_or_space, is_word.
  destruct (is_lower c || is_digit c || is_space c) eqn:E; [exact E|reflexivity].
Qed.

Lemma sub_non_alnum_id (cs : list ascii) :
  forallb is_clean cs = true -> sub_non_alnum cs = cs.
Proof.
  unfold sub_non_alnum. induction cs as [|c cs IH]; [reflexivity|].
  cbn [map forallb]. intros H. apply andb_true_iff in H. destruct H as [Hc H].
  rewrite (IH H). apply clean_word_or_space in Hc.
  unfold is_word_or_space, is_word in Hc. now rewrite Hc.
Qed.

Lemma lower_id (cs : list ascii) :
  forallb is_clean cs = true -> map lower_char cs = cs.
Proof.
  induction cs as [|c cs IH]; [reflexivity|].
  cbn [map forallb]. intros H. apply andb_true_iff in H. destruct H as [Hc H].
  now rewrite (IH H), (clean_lower_char c Hc).
Qed.

Lemma sub_ws_runs_id (cs : list ascii) :
  forall b, forallb is_clean cs = true -> single_spaced b cs = true ->
            sub_ws_runs b cs = cs.
Proof.
  induction cs as [|c cs IH]; intros b; [reflexivity|].
  cbn [forallb single_spaced sub_ws_runs].
  intros H. apply andb_true_iff in H. destruct H as [Hc H].
  destruct (Ascii.eqb c " ") eqn:E.
  - rewrite (space_is_space c E). apply Ascii.eqb_eq in E. subst c.
    intros S. apply andb_true_iff in S. destruct S as [Sb S].
    destruct b; [discriminate|]. now rewrite (IH true H S).
  - unfold is_clean in Hc. rewrite E, orb_false_r in Hc.
    rewrite (word_not_space c Hc). intros S. now rewrite (IH false H S).
Qed.

Lemma forallb_app_inv {T : Type} (p : T -> bool) (x y : list T) :
  forallb p (x ++ y) = true -> forallb p x = true /\ forallb p y = true.
Proof. rewrite forallb_app. apply andb_true_iff. Qed.

(** The normalised text is clean, and a clean text is its own
    normalisation. *)
Lemma normalize_chars_clean (cs : list ascii) : clean (normalize_chars cs).
Proof.
  unfold normalize_chars.
  set (m := sub_ws_runs false (sub_non_alnum (map lower_char cs))).
  assert (C : forallb is_clean m = true)
    by apply sub_ws_runs_clean, sub_non_alnum_chars.
  assert (S : single_spaced false m = true) by apply sub_ws_runs_single.
  destruct (strip_chars_split m) as [pre [post [E [_ [_ [N1 N2]]]]]].
  rewrite E in C, S.
  apply forallb_app_inv in C. destruct C as [_ C].
  apply forallb_app_inv in C. destruct C as [C _].
  apply single_spaced_app_r in S. apply single_spaced_app_l in S.
  now constructor.
Qed.

Lemma normalize_chars_id (cs : list ascii) : clean cs -> normalize_chars cs = cs.
Proof.
  intros [C L T S]. unfold normalize_chars.
  rewrite (lower_id cs C), (sub_non_alnum_id cs C), (sub_ws_runs_id cs false C S).
  now apply strip_chars_id.
Qed.

(** Splitting and joining *)
Lemma split_space_aux_nonnil (cs : list ascii) :
  forall cur, split_space_aux cur cs <> [].
Proof.
  induction cs as [|c cs IH]; intros cur; cbn; [discriminate|].
  destruct (Ascii.eqb c " "); [discriminate|apply IH].
Qed.

Lemma concat_cons (sep x : string) (xs : list string) :
  xs <> [] -> String.concat sep (x :: xs) = (x ++ sep ++ String.concat sep xs)%string.
Proof. destruct xs; [congruence|reflexivity]. Qed.

Lemma join_split_aux (cs : list ascii) :
  forall cur, String.concat " " (split_space_aux cur cs) = str (rev cur ++ cs).
Proof.
  induction cs as [|c cs IH]; intros cur; cbn [split_space_aux].
  - cbn. now rewrite app_nil_r.
  - destruct (Ascii.eqb c " ") eqn:E.
    + apply Ascii.eqb_eq in E. subst c.
      rewrite concat_cons by apply split_space_aux_nonnil.
      rewrite IH. cbn [rev app]. now rewrite str_app.
    + rewrite IH. cbn [rev]. now rewrite <- app_assoc.
Qed.

Lemma tight_pieces (cs : list ascii) :
  forall cur,
    tight (Numeric.is_empty cur) cs = true ->
    forallb nonempty (split_space_aux cur cs) = true.
Proof.
  induction cs as [|c cs IH]; intros cur; cbn [tight split_space_aux].
  - destruct cur as [|x cur]; [discriminate|]. intros _. cbn [forallb].
    rewrite andb_true_r. cbn [rev].
    destruct (rev cur); reflexivity.
  - destruct (Ascii.eqb c " ").
    + intros H. apply andb_true_iff in H. destruct H as [Hc H].
      cbn [forallb]. rewrite (IH [] H), andb_true_r.
      destruct cur as [|x cur]; [discriminate|]. cbn [rev].
      destruct (rev cur); reflexivity.
    + apply (IH (c :: cur)).
Qed.

Lemma clean_tight (cs : list ascii) :
  forall b,
    single_spaced b cs = true -> no_lead (rev cs) = true ->
    (cs = [] -> b = false) -> tight b cs = true.
Proof.
  induction cs as [|c cs IH]; intros b; cbn [single_spaced tight].
  - intros _ _ H. now rewrite H.
  - intros S T _. cbn [rev] in T.
    assert (Tcs : no_lead (rev cs) = true).
    { destruct cs as [|c' cs]; [reflexivity|].
      apply (no_lead_prefix _ [c]); [exact T|].
      cbn [rev]. intros E. now destruct (rev cs). }
    destruct (Ascii.eqb c " ") eqn:E.
    + apply andb_true_iff in S. destruct S as [Sb S]. rewrite Sb. cbn.
      apply IH; [exact S|exact Tcs|].
      intros ->. cbn in T. rewrite (space_is_space c E) in T. discriminate.
    + apply IH; auto.
Qed.

Lemma filter_all {T : Type} (p : T -> bool) (l : list T) :
  forallb p l = true -> filter p l = l.
Proof.
  induction l as [|x l IH]; [reflexivity|]. cbn. intros H.
  apply andb_true_iff in H. destruct H as [Hx H]. now rewrite Hx, IH.
Qed.

Lemma split_space_aux_words (cs : list ascii) :
  forall cur,
    forallb is_word cur = true -> forallb is_clean cs = true ->
    forall t, In t (split_space_aux cur cs) -> forallb is_word (chars t) = true.
Proof.
  assert (R : forall cur, forallb is_word cur = true ->
                          forallb is_word (chars (str (rev cur))) = true).
  { intros cur H. rewrite chars_str. rewrite forallb_forall in *.
    intros x Hx. apply H. now apply in_rev. }
  induction cs as [|c cs IH]; intros cur Hcur; cbn [split_space_aux forallb].
  - intros _ t [<-|[]]. now apply R.
  - intros H. apply andb_true_iff in H. destruct H as [Hc H].
    destruct (Ascii.eqb c " ") eqn:E.
    + intros t [<-|Ht]; [now apply R|]. now apply (IH [] eq_refl H).
    + apply IH; [|exact H]. cbn [forallb]. rewrite Hcur, andb_true_r.
      unfold is_clean in Hc. now rewrite E, orb_false_r in Hc.
Qed.

Lemma nonempty_str (cs : list ascii) : nonempty (str cs) = negb (Numeric.is_empty cs).
Proof. destruct cs; reflexivity. Qed.

(** The pieces of a normalised text that is not empty are its tokens. *)
Lemma split_normalized (s : string) :
  nonempty (normalize_text s) = true ->
  split_space (normalize_text s) = tokenize s.
Proof.
  intros N. unfold tokenize. cbv zeta. rewrite N. symmetry. apply filter_all.
  unfold split_space. rewrite normalize_text_chars in *. rewrite chars_str.
  destruct (normalize_chars_clean (chars s)) as [C L T S].
  apply (tight_pieces _ []). cbn [Numeric.is_empty].
  apply clean_tight.
  - destruct (normalize_chars (chars s)) as [|c r]; [discriminate|].
    cbn [single_spaced no_lead] in *.
    destruct (Ascii.eqb c " ") eqn:E; [|exact S].
    rewrite (space_is_space c E) in L. discriminate.
  - exact T.
  - intros E. rewrite E in N. discriminate.
Qed.

Lemma normalized_empty (s : string) :
  nonempty (normalize_text s) = false -> normalize_text s = "" /\ tokenize s = [].
Proof.
  intros N. unfold tokenize. cbv zeta. rewrite N. split; [|reflexivity].
  unfold nonempty in N. apply negb_false_iff in N. now apply String.eqb_eq in N.
Qed.

Lemma tokenize_join (s : string) :
  String.concat " " (tokenize s) = normalize_text s.
Proof.
  destruct (nonempty (normalize_text s)) eqn:N.
  - rewrite <- (split_normalized s N). unfold split_space.
    rewrite join_split_aux. cbn [rev app]. apply str_chars.
  - destruct (normalized_empty s N) as [-> ->]. reflexivity.
Qed.

Lemma template_text_tokens (s : string) :
  normalize_template_text s = String.concat " " (map mask_number (tokenize s)).
Proof.
  unfold normalize_template_text. fold mask_number.
  destruct (nonempty (normalize_text s)) eqn:N.
  - now rewrite (split_normalized s N).
  - destruct (normalized_empty s N) as [-> ->]. reflexivity.
Qed.

Lemma normalize_text_upper (s : string) : normalize_text (upper s) = normalize_text s.
Proof.
  assert (E : lower (upper s) = lower s).
  { unfold lower, upper. rewrite chars_str, map_map. f_equal.
    apply map_ext. apply lower_upper_char. }
  unfold normalize_text. now rewrite E.
Qed.

End TextFacts.

(** X1.  [normalize_text] is idempotent: normalising a normalised text
    changes nothing. *)
Theorem normalize_text_idempotent (s : string) :
  Utils.normalize_text (Utils.normalize_text s) = Utils.normalize_text s.
Proof.
  rewrite (TextFacts.normalize_text_chars (Utils.normalize_text s)).
  rewrite TextFacts.normalize_text_chars, TextFacts.chars_str.
  f_equal. apply TextFacts.normalize_chars_id, TextFacts.normalize_chars_clean.
Qed.

(** X2.  Every token [tokenize] returns is non-empty and made of the
    characters [a-z] and [0-9] only. *)
Theorem tokenize_tokens (text t : string) :
  In t (Utils.tokenize text) ->
  Utils.nonempty t = true /\ forallb Text.is_word (Utils.chars t) = true.
Proof.
  unfold Utils.tokenize. cbv zeta.
  destruct (Utils.nonempty (Utils.normalize_text text)); [|intros []].
  intros H. apply filter_In in H. destruct H as [H N]. split; [exact N|].
  unfold Utils.split_space in H. rewrite TextFacts.normalize_text_chars in H.
  rewrite TextFacts.chars_str in H.
  apply (TextFacts.split_space_aux_words _ [] eq_refl) in H; [exact H|].
  apply (Text.clean_chars _ (TextFacts.normalize_chars_clean _)).
Qed.

(** The theorem on the stem of the example rows. *)
Lemma tokenize_tokens_witness :
  In "3x" (Utils.tokenize "Find the derivative of x^2 + 3x.") /\
  Utils.nonempty "3x" = true /\ forallb Text.is_word (Utils.chars "3x") = true.
Proof.
  assert (H : In "3x" (Utils.tokenize "Find the derivative of x^2 + 3x.")).
  { vm_compute. tauto. }
  split; [exact H|].
  apply (tokenize_tokens "Find the derivative of x^2 + 3x." "3x" H).
Defined.

(** X3.  The tokens lose nothing of the normalised text: joined by single
    spaces they give it back. *)
Theorem tokens_join_to_normalized_text (s : string) :
  String.concat " " (Utils.tokenize s) = Utils.normalize_text s.
Proof. apply TextFacts.tokenize_join. Qed.

(** X4.  The exact hash depends only on the tokens of the stem, of each
    option and of the answer: letter case, punctuation and spacing do not
    count. *)
Theorem exact_hash_depends_on_tokens (stem1 stem2 : string)
        (options1 options2 : list string) (answer1 answer2 : option string) :
  Utils.tokenize stem1 = Utils.tokenize stem2 ->
  map Utils.tokenize options1 = map Utils.tokenize options2 ->
  Utils.tokenize (Fingerprint.or_empty answer1)
  = Utils.tokenize (Fingerprint.or_empty answer2) ->
  Fingerprint.build_exact_hash stem1 options1 answer1
  = Fingerprint.build_exact_hash stem2 options2 answer2.
Proof.
  intros Hs Ho Ha. unfold Fingerprint.build_exact_hash.
  assert (E : forall l, map Utils.normalize_text l
                        = map (String.concat " ") (map Utils.tokenize l)).
  { intros l. rewrite map_map. apply map_ext. intros x.
    symmetry. apply TextFacts.tokenize_join. }
  rewrite (E options1), (E options2), Ho.
  rewrite <- (TextFacts.tokenize_join stem1), <- (TextFacts.tokenize_join stem2), Hs.
  rewrite <- (TextFacts.tokenize_join (Fingerprint.or_empty answer1)).
  rewrite <- (TextFacts.tokenize_join (Fingerprint.or_empty answer2)), Ha.
  reflexivity.
Qed.

(** Two writings of one question. *)
Lemma exact_hash_depends_on_tokens_witness :
  Fingerprint.build_exact_hash "Find the derivative of x^2 + 3x."
                               ["2x+3"; "x+3"] (Some "A")
  = Fingerprint.build_exact_hash "  find the DERIVATIVE of x 2,   3X  "
                                 ["2X + 3"; "(x) + 3"] (Some "a.").
Proof.
  apply exact_hash_depends_on_tokens; vm_compute; reflexivity.
Defined.

(** X5.  The template hash depends only on the tokens of the stem with the
    numbers masked: two stems that differ in their numbers, letter case,
    punctuation or spacing have the same template hash. *)
Theorem template_hash_depends_on_masked_tokens (stem1 stem2 : string) :
  map Text.mask_number (Utils.tokenize stem1)
  = map Text.mask_number (Utils.tokenize stem2) ->
  Fingerprint.build_template_hash stem1 = Fingerprint.build_template_hash stem2.
Proof.
  intros H. unfold Fingerprint.build_template_hash.
  now rewrite !TextFacts.template_text_tokens, H.
Qed.

Lemma template_hash_depends_on_masked_tokens_witness :
  Fingerprint.build_template_hash "Solve 12 plus 7."
  = Fingerprint.build_template_hash "solve 3 PLUS 2000".
Proof.
  apply template_hash_depends_on_masked_tokens. vm_compute. reflexivity.
Defined.

(** ** Comparisons of binary64 numbers *)

Module FloatFacts.

Lemma ltb_leb (x y : float) : PrimFloat.ltb x y = true -> PrimFloat.leb x y = true.
Proof.
  rewrite ltb_spec, leb_spec. unfold SFltb, SFleb.
  destruct (SFcompare _ _) as [[]|]; congruence.
Qed.

Lemma SFcompare_antisym (a b : spec_float) :
  SFcompare b a = option_map CompOpp (SFcompare a b).
Proof.
  destruct a as [sa|sa| |sa ma ea], b as [sb|sb| |sb mb eb]; cbn;
    try destruct sa; try destruct sb; try reflexivity;
    change (Pos.compare_cont Eq) with Pos.compare;
    rewrite (Z.compare_antisym ea eb), (Pos.compare_antisym ma mb);
    destruct (ea ?= eb)%Z; cbn; try reflexivity;
    destruct (ma ?= mb)%positive; reflexivity.
Qed.

Lemma SFcompare_trans_lt (a b c : spec_float) :
  SFcompare a b = Some Lt -> SFcompare b c = Some Lt -> SFcompare a c = Some Lt.
Proof.
  destruct a as [sa|sa| |sa ma ea], b as [sb|sb| |sb mb eb], c as [sc|sc| |sc mc ec];
    cbn; try destruct sa; try destruct sb; try destruct sc;
    try discriminate; try reflexivity;
    change (Pos.compare_cont Eq) with Pos.compare;
    destruct (Z.compare_spec ea eb); destruct (Z.compare_spec eb ec);
    destruct (Z.compare_spec ea ec);
    destruct (Pos.compare_spec ma mb); destruct (Pos.compare_spec mb mc);
    destruct (Pos.compare_spec ma mc);
    cbn; try discriminate; try reflexivity; intros; exfalso; lia.
Qed.

Lemma SFleb_trans (a b c : spec_float) :
  SFleb a b = true -> SFleb b c = true -> SFleb a c = true.
Proof.
  unfold SFleb.
  destruct a as [sa|sa| |sa ma ea], b as [sb|sb| |sb mb eb], c as [sc|sc| |sc mc ec];
    cbn; try destruct sa; try destruct sb; try destruct sc;
    try discriminate; try reflexivity;
    change (Pos.compare_cont Eq) with Pos.compare;
    destruct (Z.compare_spec ea eb); destruct (Z.compare_spec eb ec);
    destruct (Z.compare_spec ea ec);
    destruct (Pos.compare_spec ma mb); destruct (Pos.compare_spec mb mc);
    destruct (Pos.compare_spec ma mc);
    cbn; try discriminate; try reflexivity; intros; exfalso; lia.
Qed.

Lemma SFcompare_none (a b : spec_float) :
  SFcompare a b = None -> a = S754_nan \/ b = S754_nan.
Proof.
  destruct a as [sa|sa| |sa ma ea], b as [sb|sb| |sb mb eb]; cbn; auto; discriminate.
Qed.

Lemma SFcompare_nan_r (a : spec_float) : SFcompare a S754_nan = None.
Proof. destruct a; reflexivity. Qed.

Lemma leb_trans (x y z : float) :
  PrimFloat.leb x y = true -> PrimFloat.leb y z = true -> PrimFloat.leb x z = true.
Proof. rewrite !leb_spec. apply SFleb_trans. Qed.

Lemma ltb_not_leb (x y : float) : PrimFloat.ltb x y = true -> PrimFloat.leb y x = false.
Proof.
  rewrite ltb_spec, leb_spec. unfold SFltb, SFleb.
  rewrite (SFcompare_antisym (Prim2SF x) (Prim2SF y)).
  destruct (SFcompare _ _) as [[]|]; cbn; congruence.
Qed.

Lemma ltb_asym (x y : float) : PrimFloat.ltb x y = true -> PrimFloat.ltb y x = false.
Proof.
  rewrite !ltb_spec. unfold SFltb.
  rewrite (SFcompare_antisym (Prim2SF x) (Prim2SF y)).
  destruct (SFcompare _ _) as [[]|]; cbn; congruence.
Qed.

(** A number that some number is below is not a NaN. *)
Lemma leb_not_nan (x y : float) : PrimFloat.leb x y = true -> Prim2SF y <> S754_nan.
Proof.
  rewrite leb_spec. unfold SFleb. intros H E. rewrite E, SFcompare_nan_r in H.
  discriminate.
Qed.

Lemma leb_not_nan_l (x y : float) : PrimFloat.leb x y = true -> Prim2SF x <> S754_nan.
Proof.
  rewrite leb_spec. unfold SFleb. intros H E. rewrite E in H. discriminate.
Qed.

(** Two numbers that are not NaN compare. *)
Lemma not_ltb_leb (x y : float) :
  Prim2SF x <> S754_nan -> Prim2SF y <> S754_nan ->
  PrimFloat.ltb x y = false -> PrimFloat.leb y x = true.
Proof.
  intros Nx Ny. rewrite ltb_spec, leb_spec. unfold SFltb, SFleb.
  rewrite (SFcompare_antisym (Prim2SF x) (Prim2SF y)).
  destruct (SFcompare (Prim2SF x) (Prim2SF y)) as [[]|] eqn:E; cbn; try congruence.
  destruct (SFcompare_none _ _ E); contradiction.
Qed.

Lemma SFcompare_refl (a : spec_float) : a <> S754_nan -> SFcompare a a = Some Eq.
Proof.
  destruct a as [sa|sa| |sa ma ea]; cbn; try congruence; destruct sa; try reflexivity;
    rewrite Z.compare_refl; change (Pos.compare_cont Eq) with Pos.compare;
    now rewrite Pos.compare_refl.
Qed.

(** [x == y] for two numbers with [x <= y] and not [x < y]. *)
Lemma leb_not_ltb_eqb (x y : float) :
  PrimFloat.leb x y = true -> PrimFloat.ltb x y = false ->
  PrimFloat.eqb x y = true /\ PrimFloat.eqb y x = true.
Proof.
  rewrite leb_spec, ltb_spec, !eqb_spec. unfold SFleb, SFltb, SFeqb.
  rewrite (SFcompare_antisym (Prim2SF x) (Prim2SF y)).
  destruct (SFcompare _ _) as [[]|]; cbn; try discriminate; auto.
Qed.

Lemma eqb_refl (x : float) : Prim2SF x <> S754_nan -> PrimFloat.eqb x x = true.
Proof. intros H. rewrite eqb_spec. unfold SFeqb. now rewrite SFcompare_refl. Qed.

(** [clamp01] in binary64: the result is between 0 and 1 whatever the
    argument, an infinity or a NaN included. *)
Lemma clamp01_bounds (x : float) :
  PrimFloat.leb 0%float (Numeric.clamp01 x) = true /\
  PrimFloat.leb (Numeric.clamp01 x) 1%float = true.
Proof.
  unfold Numeric.clamp01, Numeric.max2, Numeric.min2, Numeric.gtb.
  change (@Numeric.one float float_arith) with 1%float.
  change (@Numeric.zero float float_arith) with 0%float.
  cbn [ltb float_arith].
  destruct (PrimFloat.ltb x 1%float) eqn:L1.
  - destruct (PrimFloat.ltb 0%float x) eqn:L0.
    + split; now apply ltb_leb.
    + split; reflexivity.
  - change (PrimFloat.ltb 0%float 1%float) with true. cbn iota. split; reflexivity.
Qed.

(** On a number of [0, 1] it returns the number (0.0 for -0.0). *)
Lemma clamp01_fixes (x : float) :
  PrimFloat.leb 0%float x = true -> PrimFloat.leb x 1%float = true ->
  PrimFloat.eqb (Numeric.clamp01 x) x = true.
Proof.
  intros H0 H1.
  unfold Numeric.clamp01, Numeric.max2, Numeric.min2, Numeric.gtb.
  change (@Numeric.one float float_arith) with 1%float.
  change (@Numeric.zero float float_arith) with 0%float.
  cbn [ltb float_arith].
  destruct (PrimFloat.ltb x 1%float) eqn:L1.
  - destruct (PrimFloat.ltb 0%float x) eqn:L0.
    + apply eqb_refl. now apply (leb_not_nan 0%float).
    + exact (proj1 (leb_not_ltb_eqb _ _ H0 L0)).
  - change (PrimFloat.ltb 0%float 1%float) with true. cbn iota.
    exact (proj2 (leb_not_ltb_eqb _ _ H1 L1)).
Qed.

(** [rerank_pair_score] is a number between 0 and 1, whatever the texts,
    the dense score and the vectors the embedder returns. *)
Lemma rerank_pair_score_bounds (query_text doc_text : string)
      (dense_score : float) (embedder : Embedder) :
  PrimFloat.leb 0%float
    (Reranker.rerank_pair_score query_text doc_text dense_score embedder) = true /\
  PrimFloat.leb
    (Reranker.rerank_pair_score query_text doc_text dense_score embedder) 1%float = true.
Proof. unfold Reranker.rerank_pair_score. cbv zeta. apply clamp01_bounds. Qed.

End FloatFacts.

(** X6.  [clamp01] in binary64: whatever the argument, an infinity or a
    NaN included, the result is a number between 0 and 1; an argument that
    is between 0 and 1 is returned as it is (up to the sign of zero). *)
Theorem clamp01_unit_interval (x : float) :
  PrimFloat.leb 0%float (Numeric.clamp01 x) = true /\
  PrimFloat.leb (Numeric.clamp01 x) 1%float = true /\
  (PrimFloat.leb 0%float x = true -> PrimFloat.leb x 1%float = true ->
   PrimFloat.eqb (Numeric.clamp01 x) x = true).
Proof.
  destruct (FloatFacts.clamp01_bounds x) as [H0 H1].
  split; [exact H0|]. split; [exact H1|]. apply FloatFacts.clamp01_fixes.
Qed.

(** [clamp01] on a NaN, on the infinities and on the negative zero. *)
Example clamp01_special_values :
  Numeric.clamp01 PrimFloat.nan = 1%float /\
  Numeric.clamp01 PrimFloat.infinity = 1%float /\
  Numeric.clamp01 PrimFloat.neg_infinity = 0%float /\
  Numeric.clamp01 (-0)%float = 0%float.
Proof. vm_compute. repeat split; reflexivity. Qed.

(** X7.  [_classify] is monotone: a score that is not below another gets
    a class that is not below the other's, in the order [Related],
    [Similar], [NearDuplicate], [Duplicate], whatever the thresholds of the
    configuration. *)
Theorem classify_monotone (self : Engine.t) (s1 s2 : float) :
  PrimFloat.leb s1 s2 = true ->
  Ranking.class_rank (Engine._classify self s1)
  <= Ranking.class_rank (Engine._classify self s2).
Proof.
  intros H. unfold Engine._classify.
  set (d := duplicate_threshold (Engine.config self)).
  set (n := near_duplicate_threshold (Engine.config self)).
  destruct (PrimFloat.leb d s1) eqn:D1.
  { rewrite (FloatFacts.leb_trans _ _ _ D1 H). cbn [Ranking.class_rank]. lia. }
  destruct (PrimFloat.leb n s1) eqn:N1.
  { rewrite (FloatFacts.leb_trans _ _ _ N1 H).
    destruct (PrimFloat.leb d s2); cbn [Ranking.class_rank]; lia. }
  destruct (PrimFloat.leb 0.65%float s1) eqn:S1.
  { rewrite (FloatFacts.leb_trans _ _ _ S1 H).
    destruct (PrimFloat.leb d s2); [cbn [Ranking.class_rank]; lia|].
    destruct (PrimFloat.leb n s2); cbn [Ranking.class_rank]; lia. }
  destruct (PrimFloat.leb d s2); [cbn [Ranking.class_rank]; lia|].
  destruct (PrimFloat.leb n s2); [cbn [Ranking.class_rank]; lia|].
  destruct (PrimFloat.leb 0.65%float s2); cbn [Ranking.class_rank]; lia.
Qed.

(** The theorem at the scores 0.7 and 0.9 under the default thresholds:
    [Similar] and [NearDuplicate]. *)
Lemma classify_monotone_witness :
  Engine._classify Examples.new_engine 0.7%float = Similar /\
  Engine._classify Examples.new_engine 0.9%float = NearDuplicate /\
  Ranking.class_rank (Engine._classify Examples.new_engine 0.7%float)
  <= Ranking.class_rank (Engine._classify Examples.new_engine 0.9%float).
Proof.
  split; [reflexivity|]. split; [reflexivity|].
  apply (classify_monotone Examples.new_engine 0.7%float 0.9%float). reflexivity.
Defined.

(** ** Cosine similarity in the real numbers *)

Module CosineFacts.
Import Numeric Notions RealFacts.
Local Open Scope R_scope.







End CosineFacts.


(** In binary64 on two vectors of the examples. *)
Example cosine_similarity_binary64 :
  Numeric.cosine_similarity [1%float; 0%float] [1%float; 0%float] = 1%float /\
  Numeric.cosine_similarity [1%float; 0%float] [0%float; 1%float] = 0%float /\
  Numeric.cosine_similarity [1%float; 0%float] [1%float] = 0%float /\
  Numeric.cosine_similarity [] [1%float] = 0%float /\
  Numeric.cosine_similarity [0%float; 0%float] [1%float; 0%float] = 0%float.
Proof. vm_compute. repeat split; reflexivity. Qed.

(** X9.  The default embedder returns a vector of the configured dimension
    for every text. *)
Theorem encode_has_configured_dimension (dim : Z) (text : string) :
  1 <= dim ->
  Z.of_nat (List.length (Embedding.encode (F := float) dim text)) = dim.
Proof. intros H. rewrite SearchFacts.encode_length. lia. Qed.

Lemma encode_has_configured_dimension_witness :
  Z.of_nat (List.length (Embedding.encode (F := float) 512 "not today")) = 512.
Proof. apply (encode_has_configured_dimension 512 "not today"). lia. Defined.

(** ** Sorting, slices and sets *)

Module OrderFacts.

Section Sort.
Variable T : Type.
Variable lt : T -> T -> bool.

Lemma insert_desc_perm (x : T) (l : list T) :
  Permutation (Sorting.insert_desc lt x l) (x :: l).
Proof.
  induction l as [|y l IH]; cbn [Sorting.insert_desc]; [reflexivity|].
  destruct (lt x y); [|reflexivity].
  rewrite IH. apply perm_swap.
Qed.

Lemma sort_desc_perm (l : list T) : Permutation (Sorting.sort_desc lt l) l.
Proof.
  unfold Sorting.sort_desc. induction l as [|y l IH]; cbn [fold_right]; [reflexivity|].
  rewrite insert_desc_perm. now constructor.
Qed.

(** The sort puts the list in the order [ge], when [lt] is its strict
    part on the elements of the list. *)
Variable ge : T -> T -> Prop.
Variable ok : T -> Prop.
Hypothesis lt_ge : forall x y, lt x y = true -> ge y x.
Hypothesis not_lt_ge : forall x y, ok x -> ok y -> lt x y = false -> ge x y.

Lemma insert_desc_sorted (x : T) (l : list T) :
  ok x -> Forall ok l -> Sorted ge l -> Sorted ge (Sorting.insert_desc lt x l).
Proof.
  intros Hx. induction l as [|y l IH]; intros Hl Hs; cbn [Sorting.insert_desc].
  - repeat constructor.
  - inversion Hl as [|? ? Hy Hl']; subst. inversion Hs as [|? ? Hs' Hd]; subst.
    destruct (lt x y) eqn:E.
    + constructor; [now apply IH|].
      destruct l as [|z l]; cbn [Sorting.insert_desc].
      * constructor. now apply lt_ge.
      * destruct (lt x z); constructor; [now inversion Hd|now apply lt_ge].
    + constructor; [exact Hs|]. constructor. now apply not_lt_ge.
Qed.

Lemma sort_desc_sorted (l : list T) :
  Forall ok l -> Sorted ge (Sorting.sort_desc lt l).
Proof.
  unfold Sorting.sort_desc. induction l as [|y l IH]; intros Hl; cbn [fold_right].
  - constructor.
  - inversion Hl as [|? ? Hy Hl']; subst.
    apply insert_desc_sorted; [exact Hy| |now apply IH].
    apply Forall_forall. intros z Hz.
    apply (Permutation_in _ (sort_desc_perm l)) in Hz.
    rewrite Forall_forall in Hl'. now apply Hl'.
Qed.

End Sort.

Lemma strongly_sorted_firstn {T : Type} (R : T -> T -> Prop) (n : nat) (l : list T) :
  StronglySorted R l -> StronglySorted R (firstn n l).
Proof.
  revert l. induction n as [|n IH]; intros [|x l] H; cbn [firstn]; try constructor.
  - apply IH. now inversion H.
  - inversion H as [|? ? _ F]; subst. rewrite Forall_forall in *.
    intros y Hy. apply F. now apply HeapFacts.firstn_in in Hy.
Qed.

Lemma strongly_sorted_slice {T : Type} (R : T -> T -> Prop) (k : Z) (l : list T) :
  StronglySorted R l -> StronglySorted R (slice_to k l).
Proof. unfold slice_to. destruct (0 <=? k); apply strongly_sorted_firstn. Qed.

Lemma strongly_sorted_map {A B : Type} (R : B -> B -> Prop) (f : A -> B) (l : list A) :
  StronglySorted (fun x y => R (f x) (f y)) l -> StronglySorted R (map f l).
Proof.
  induction 1 as [|x l _ IH F]; cbn [map]; constructor; [exact IH|].
  rewrite Forall_forall in *. intros y Hy. apply in_map_iff in Hy.
  destruct Hy as [z [<- Hz]]. now apply F.
Qed.

Lemma nodup_firstn {T : Type} (n : nat) (l : list T) : NoDup l -> NoDup (firstn n l).
Proof.
  revert l. induction n as [|n IH]; intros [|x l] H; cbn [firstn]; try constructor.
  - inversion H; subst. intros Hin. now apply HeapFacts.firstn_in in Hin.
  - apply IH. now inversion H.
Qed.

Lemma nodup_slice {T : Type} (k : Z) (l : list T) : NoDup l -> NoDup (slice_to k l).
Proof. unfold slice_to. destruct (0 <=? k); apply nodup_firstn. Qed.

Lemma map_firstn {A B : Type} (f : A -> B) (n : nat) (l : list A) :
  map f (firstn n l) = firstn n (map f l).
Proof.
  revert l. induction n as [|n IH]; intros [|x l]; cbn; try reflexivity. now rewrite IH.
Qed.

Lemma map_slice {A B : Type} (f : A -> B) (k : Z) (l : list A) :
  map f (slice_to k l) = slice_to k (map f l).
Proof. unfold slice_to. rewrite length_map. destruct (0 <=? k); apply map_firstn. Qed.

Lemma slice_length {T : Type} (k : Z) (l : list T) :
  (List.length (slice_to k l) <= List.length l)%nat /\
  (0 <= k -> Z.of_nat (List.length (slice_to k l)) <= k).
Proof.
  unfold slice_to. destruct (Z.leb_spec 0 k) as [H|H]; rewrite length_firstn; lia.
Qed.

(** Sets *)
Lemma set_add_nodup (k : string) (s : list string) : NoDup s -> NoDup (set_add k s).
Proof.
  intros H. unfold set_add. destruct (set_mem k s) eqn:E; [exact H|].
  apply NoDup_app; [exact H|repeat constructor; intros []|].
  intros x Hx [<-|[]].
  apply RetrieveFacts.set_mem_in in Hx. congruence.
Qed.

Lemma set_add_keeps (k k' : string) (s : list string) : In k s -> In k (set_add k' s).
Proof.
  intros H. unfold set_add. destruct (set_mem k' s); [exact H|].
  apply in_or_app. now left.
Qed.

Lemma set_add_adds (k : string) (s : list string) : In k (set_add k s).
Proof.
  unfold set_add. destruct (set_mem k s) eqn:E.
  - now apply RetrieveFacts.set_mem_in.
  - apply in_or_app. right. now left.
Qed.

(** Adding the elements of a duplicate-free list to the empty set gives
    the list. *)
Lemma set_add_fresh (k : string) (s : list string) :
  ~ In k s -> set_add k s = (s ++ [k])%list.
Proof.
  intros H. unfold set_add. destruct (set_mem k s) eqn:E; [|reflexivity].
  apply RetrieveFacts.set_mem_in in E. contradiction.
Qed.

(** Dictionaries *)
Lemma dict_set_fresh {V : Type} (k : string) (v : V) (d : dict V) :
  ~ In k (dict_keys d) -> dict_set k v d = (d ++ [(k, v)])%list.
Proof.
  induction d as [|[k' v'] d IH]; cbn; [reflexivity|]. intros H.
  destruct (String.eqb_spec k' k) as [E|N]; [exfalso; apply H; now left|].
  rewrite IH; [reflexivity|]. intros Hin. apply H. now right.
Qed.

Lemma get_none_keys {V : Type} (k : string) (d : dict V) :
  dict_get k d = None <-> ~ In k (dict_keys d).
Proof.
  induction d as [|[k' v'] d IH]; cbn; [tauto|].
  destruct (String.eqb_spec k' k) as [E|N].
  - split; [discriminate|]. intros H. exfalso. apply H. now left.
  - rewrite IH. split; intros H; [intros [E|E]; [congruence|contradiction]|tauto].
Qed.

Lemma get_some_keys {V : Type} (k : string) (d : dict V) :
  In k (dict_keys d) <-> exists v, dict_get k d = Some v.
Proof.
  destruct (dict_get k d) as [v|] eqn:E.
  - split; [eauto|]. intros _. apply DictFacts.get_in in E.
    unfold dict_keys. apply in_map_iff. now exists (k, v).
  - apply get_none_keys in E. split; [contradiction|]. intros [v H]. discriminate.
Qed.

Lemma keys_set {V : Type} (k k' : string) (v : V) (d : dict V) :
  In k' (dict_keys (dict_set k v d)) <-> k' = k \/ In k' (dict_keys d).
Proof.
  split; [apply DictFacts.keys_set_in|].
  intros H. apply get_some_keys.
  destruct (String.eqb_spec k k') as [<-|N].
  - rewrite DictFacts.get_set_same. eauto.
  - rewrite DictFacts.get_set_other by assumption.
    apply get_some_keys. destruct H as [H|H]; [congruence|exact H].
Qed.

End OrderFacts.

(** ** Rankings *)

Module RankFacts.
Import Ranking OrderFacts.

Lemma sort_by_score_perm (l : list Hit) : Permutation (sort_by_score l) l.
Proof. apply sort_desc_perm. Qed.

(** Sorting by a key that is never a NaN puts the list in descending
    order. *)
Lemma sort_desc_descending {T : Type} (key : T -> float) (l : list T) :
  Forall (fun x => Prim2SF (key x) <> S754_nan) l ->
  StronglySorted (fun a b => PrimFloat.leb (key b) (key a) = true)
    (Sorting.sort_desc (fun a b => PrimFloat.ltb (key a) (key b)) l).
Proof.
  intros H. apply Sorted_StronglySorted.
  - intros a b c Hab Hbc. exact (FloatFacts.leb_trans _ _ _ Hbc Hab).
  - apply (sort_desc_sorted _ _ _ (fun x => Prim2SF (key x) <> S754_nan)).
    + intros x y L. now apply FloatFacts.ltb_leb.
    + intros x y Nx Ny L. now apply FloatFacts.not_ltb_leb.
    + exact H.
Qed.

Lemma positive_not_nan (s : float) :
  PrimFloat.ltb 0%float s = true -> Prim2SF s <> S754_nan.
Proof. intros H. apply (FloatFacts.leb_not_nan 0%float). now apply FloatFacts.ltb_leb. Qed.

Lemma sort_by_score_descending (l : list Hit) :
  (forall h, In h l -> PrimFloat.ltb 0%float (hit_score h) = true) ->
  descending (sort_by_score l).
Proof.
  intros H. apply sort_desc_descending. apply Forall_forall.
  intros h Hh. apply positive_not_nan. now apply H.
Qed.

(** At most one row per key. *)
Lemma flat_map_nodup {A B : Type} (f : B -> list A) (key : A -> string)
      (key' : B -> string) (l : list B) :
  NoDup (map key' l) ->
  (forall b a, In a (f b) -> f b = [a] /\ key a = key' b) ->
  NoDup (map key (flat_map f l)).
Proof.
  intros Hn Hf. induction l as [|b l IH]; cbn [flat_map map]; [constructor|].
  cbn [map] in Hn. inversion Hn as [|? ? Hb Hl]; subst.
  rewrite map_app. apply NoDup_app; [| exact (IH Hl) |].
  - destruct (f b) as [|a r] eqn:E; [constructor|].
    destruct (Hf b a) as [E' _]; [rewrite E; now left|].
    rewrite E in E'. injection E' as ->. repeat constructor. intros [].
  - intros k Hk Hk'. apply in_map_iff in Hk. destruct Hk as [a [<- Ha]].
    apply in_map_iff in Hk'. destruct Hk' as [a' [Ek Ha']].
    apply in_flat_map in Ha'. destruct Ha' as [b' [Hb' Ha']].
    destruct (Hf b a Ha) as [_ E1]. destruct (Hf b' a' Ha') as [_ E2].
    apply Hb. rewrite <- E1, <- Ek, E2. now apply in_map.
Qed.

Lemma flat_map_length {A B : Type} (f : B -> list A) (l : list B) :
  (forall b, (List.length (f b) <= 1)%nat) ->
  (List.length (flat_map f l) <= List.length l)%nat.
Proof.
  intros H. induction l as [|b l IH]; cbn [flat_map List.length]; [lia|].
  rewrite length_app. specialize (H b). lia.
Qed.

(** The keys of a dictionary filled by a loop of assignments. *)
Section FoldSet.
Context {V X : Type}.
Variable key : X -> string.
Variable val : dict V -> X -> V.

Lemma fold_set_keys (l : list X) :
  forall (m0 : dict V) (k : string),
    In k (dict_keys (fold_left (fun m x => dict_set (key x) (val m x) m) l m0)) <->
    In k (dict_keys m0) \/ exists x, In x l /\ key x = k.
Proof.
  induction l as [|x l IH]; intros m0 k; cbn [fold_left].
  - split; [auto|]. intros [H|[x [[] _]]]. exact H.
  - rewrite IH, keys_set. split.
    + intros [[->|H]|[y [Hy E]]].
      * right. exists x. split; [now left|reflexivity].
      * now left.
      * right. exists y. split; [now right|exact E].
    + intros [H|[y [[<-|Hy] E]]].
      * left. now right.
      * left. left. now symmetry.
      * right. now exists y.
Qed.

Lemma fold_set_nodup (l : list X) :
  forall m0 : dict V,
    NoDup (dict_keys m0) ->
    NoDup (dict_keys (fold_left (fun m x => dict_set (key x) (val m x) m) l m0)).
Proof.
  induction l as [|x l IH]; intros m0 H; cbn [fold_left]; [exact H|].
  apply IH. now apply DictFacts.keys_set_nodup.
Qed.

End FoldSet.

Lemma hits_of_keys (m : dict float) :
  map hit_qid (map (fun s => {| hit_qid := fst s; hit_score := snd s |}) m) = dict_keys m.
Proof. rewrite map_map. reflexivity. Qed.

Lemma enumerate_snd {T : Type} (rows : list T) : map snd (Fusion.enumerate rows) = rows.
Proof.
  unfold Fusion.enumerate.
  assert (G : forall (l : list Z) (r : list T),
             List.length l = List.length r -> map snd (combine l r) = r).
  { induction l as [|a l IH]; intros [|b r]; cbn; try discriminate; [reflexivity|].
    intros H. injection H as H. now rewrite IH. }
  apply G. now rewrite length_map, length_seq.
Qed.

(** The shape of the fused ranking. *)
Lemma fused_shape (bm25_hits dense_hits image_hits : list Hit)
        (config : RAGConfig) (has_image_query : bool) :
  let out := Scoring.fuse_hybrid_scores bm25_hits dense_hits image_hits config
               has_image_query in
  NoDup (map hit_qid out) /\
  (forall h, In h out ->
             PrimFloat.ltb 0%float (hit_score h) = true /\
             exists r, In r (bm25_hits ++ dense_hits ++ image_hits)%list /\
                       hit_qid r = hit_qid h) /\
  Ranking.descending out.
Proof.
  cbv zeta.
  assert (Q : forall h,
             In h (Scoring.fuse_hybrid_scores bm25_hits dense_hits image_hits config
                     has_image_query) ->
             exists r, In r (bm25_hits ++ dense_hits ++ image_hits)%list /\
                       hit_qid r = hit_qid h)
    by apply RetrieveFacts.fuse_hybrid_scores_qid.
  revert Q. unfold Scoring.fuse_hybrid_scores. cbv zeta.
  match goal with
  | |- context [sort_by_score (flat_map ?f0 ?qs)] => set (f := f0); set (qids := qs)
  end.
  intros Q.
  assert (Nq : NoDup qids).
  { unfold qids.
    apply (RetrieveFacts.fold_left_ind (fun s => NoDup s)); [constructor|].
    intros s rows _ Hs.
    apply (RetrieveFacts.fold_left_ind (fun s => NoDup s)); [exact Hs|].
    intros s' row _ Hs'. now apply OrderFacts.set_add_nodup. }
  assert (F : forall q a, In a (f q) ->
                          f q = [a] /\ hit_qid a = q /\
                          PrimFloat.ltb 0%float (hit_score a) = true).
  { intros q a. unfold f.
    match goal with
    | |- context [PrimFloat.ltb 0%float ?s] => destruct (PrimFloat.ltb 0%float s) eqn:E
    end; [|intros []].
    intros [<-|[]]. cbn [hit_qid hit_score]. auto. }
  assert (P : Permutation (sort_by_score (flat_map f qids)) (flat_map f qids))
    by apply sort_by_score_perm.
  assert (Pos : forall h, In h (flat_map f qids) ->
                          PrimFloat.ltb 0%float (hit_score h) = true).
  { intros h Hh. apply in_flat_map in Hh. destruct Hh as [q [_ Hh]].
    now destruct (F q h Hh) as [_ [_ E]]. }
  split; [|split].
  - apply (Permutation_NoDup (Permutation_sym (Permutation_map hit_qid P))).
    apply (flat_map_nodup f hit_qid (fun q => q)); [now rewrite map_id|].
    intros q a Ha. destruct (F q a Ha) as [E1 [E2 _]]. auto.
  - intros h Hh. split; [|now apply Q].
    apply Pos. now apply (Permutation_in _ P).
  - now apply sort_by_score_descending.
Qed.

End RankFacts.

(** X10.  For a constant [rrf_k] that is not negative, [rrf_fuse] returns
    every qid of the rankings, each of them once, and no other. *)
Theorem rrf_fuse_qids (rankings : list (list Hit)) (rrf_k : Z) :
  0 <= rrf_k ->
  NoDup (map hit_qid (Fusion.rrf_fuse rankings rrf_k)) /\
  forall q,
    In q (map hit_qid (Fusion.rrf_fuse rankings rrf_k)) <->
    exists rows r, In rows rankings /\ In r rows /\ hit_qid r = q.
Proof.
  intros _. unfold Fusion.rrf_fuse. cbv zeta.
  match goal with
  | |- context [sort_by_score (map _ ?m)] => set (merged := m)
  end.
  assert (P : Permutation (map hit_qid (sort_by_score
                (map (fun s => {| hit_qid := fst s; hit_score := snd s |}) merged)))
                          (dict_keys merged)).
  { rewrite <- RankFacts.hits_of_keys. apply Permutation_map, RankFacts.sort_by_score_perm. }
  assert (K : NoDup (dict_keys merged) /\
              forall q, In q (dict_keys merged) <->
                        exists rows r, In rows rankings /\ In r rows /\ hit_qid r = q).
  { subst merged.
    assert (G : forall (rs : list (list Hit)) (m0 : dict float),
               NoDup (dict_keys m0) ->
               let m := fold_left
                          (fun merged rows =>
                             fold_left
                               (fun merged ir =>
                                  dict_set (hit_qid (snd ir))
                                    (PrimFloat.add
                                       match dict_get (hit_qid (snd ir)) merged with
                                       | Some s => s
                                       | None => 0%float
                                       end
                                       (PrimFloat.div 1 (float_of_Z (rrf_k + fst ir + 1))))
                                    merged)
                               (Fusion.enumerate rows) merged) rs m0 in
               NoDup (dict_keys m) /\
               forall q, In q (dict_keys m) <->
                         In q (dict_keys m0) \/
                         exists rows r, In rows rs /\ In r rows /\ hit_qid r = q).
    { induction rs as [|rows rs IH]; intros m0 H0; cbn [fold_left].
      - split; [exact H0|]. intros q. split; [auto|].
        intros [H|[rows [r [[] _]]]]. exact H.
      - match goal with
        | |- context [fold_left _ rs ?m1] => set (m1' := m1)
        end.
        assert (N1 : NoDup (dict_keys m1')).
        { apply (RankFacts.fold_set_nodup
                   (fun ir : Z * Hit => hit_qid (snd ir))
                   (fun merged ir =>
                      PrimFloat.add
                        match dict_get (hit_qid (snd ir)) merged with
                        | Some s => s
                        | None => 0%float
                        end
                        (PrimFloat.div 1 (float_of_Z (rrf_k + fst ir + 1))))).
          exact H0. }
        assert (K1 : forall q, In q (dict_keys m1') <->
                               In q (dict_keys m0) \/ exists r, In r rows /\ hit_qid r = q).
        { intros q. unfold m1'.
          rewrite (RankFacts.fold_set_keys
                     (fun ir : Z * Hit => hit_qid (snd ir))
                     (fun merged ir =>
                        PrimFloat.add
                          match dict_get (hit_qid (snd ir)) merged with
                          | Some s => s
                          | None => 0%float
                          end
                          (PrimFloat.div 1 (float_of_Z (rrf_k + fst ir + 1))))).
          split; (intros [H|H]; [now left|right]).
          - destruct H as [[i r] [Hin E]]. exists r. split; [|exact E].
            now apply RetrieveFacts.enumerate_in in Hin.
          - destruct H as [r [Hin E]].
            rewrite <- (RankFacts.enumerate_snd rows) in Hin.
            apply in_map_iff in Hin. destruct Hin as [ir [<- Hir]]. now exists ir. }
        destruct (IH m1' N1) as [N K]. split; [exact N|].
        intros q. rewrite K, K1. split.
        + intros [[H|[r [Hr E]]]|[rows' [r [Hrows [Hr E]]]]]; auto.
          * right. exists rows, r. cbn. auto.
          * right. exists rows', r. cbn. auto.
        + intros [H|[rows' [r [[<-|Hrows] [Hr E]]]]]; eauto 6. }
    destruct (G rankings [] (NoDup_nil _)) as [N K]. split; [exact N|].
    intros q. rewrite K. split; [intros [[]|H]; exact H|auto]. }
  destruct K as [N K]. split.
  - apply (Permutation_NoDup (Permutation_sym P) N).
  - intros q. rewrite <- K. split; apply Permutation_in; [exact P|now apply Permutation_sym].
Qed.

(** The theorem on two rankings that share a qid, with the configured
    constant 60. *)
Lemma rrf_fuse_qids_witness :
  let rankings := [[{| hit_qid := "a"; hit_score := 2%float |};
                    {| hit_qid := "b"; hit_score := 1%float |}];
                   [{| hit_qid := "b"; hit_score := 3%float |}]] in
  map hit_qid (Fusion.rrf_fuse rankings 60) = ["b"; "a"] /\
  NoDup (map hit_qid (Fusion.rrf_fuse rankings 60)) /\
  forall q,
    In q (map hit_qid (Fusion.rrf_fuse rankings 60)) <->
    exists rows r, In rows rankings /\ In r rows /\ hit_qid r = q.
Proof.
  cbv zeta. split; [vm_compute; reflexivity|].
  apply (rrf_fuse_qids
           [[{| hit_qid := "a"; hit_score := 2%float |};
             {| hit_qid := "b"; hit_score := 1%float |}];
            [{| hit_qid := "b"; hit_score := 3%float |}]] 60).
  lia.
Defined.

(** X11.  For a configured [rrf_k] that is not negative, the fused ranking
    of [fuse_hybrid_scores] holds each qid at most once; every row has a
    score strictly above 0 and the qid of a row of one of the three
    channels; the rows are in non-increasing order of score. *)
Theorem fused_ranking_shape (bm25_hits dense_hits image_hits : list Hit)
        (config : RAGConfig) (has_image_query : bool) :
  0 <= rrf_k config ->
  let out := Scoring.fuse_hybrid_scores bm25_hits dense_hits image_hits config
               has_image_query in
  NoDup (map hit_qid out) /\
  (forall h, In h out ->
             PrimFloat.ltb 0%float (hit_score h) = true /\
             exists r, In r (bm25_hits ++ dense_hits ++ image_hits)%list /\
                       hit_qid r = hit_qid h) /\
  Ranking.descending out.
Proof. intros _. apply RankFacts.fused_shape. Qed.

(** The theorem on a sparse and a dense ranking under the default
    configuration. *)
Lemma fused_ranking_shape_witness :
  let bm25_hits := [{| hit_qid := "a"; hit_score := 2%float |};
                    {| hit_qid := "b"; hit_score := 1%float |}] in
  let dense_hits := [{| hit_qid := "b"; hit_score := 0.5%float |}] in
  let out := Scoring.fuse_hybrid_scores bm25_hits dense_hits [] default_config false in
  map hit_qid out = ["b"; "a"] /\
  NoDup (map hit_qid out) /\
  (forall h, In h out ->
             PrimFloat.ltb 0%float (hit_score h) = true /\
             exists r, In r (bm25_hits ++ dense_hits ++ [])%list /\
                       hit_qid r = hit_qid h) /\
  Ranking.descending out.
Proof.
  cbv zeta. split; [vm_compute; reflexivity|].
  apply (fused_ranking_shape
           [{| hit_qid := "a"; hit_score := 2%float |};
            {| hit_qid := "b"; hit_score := 1%float |}]
           [{| hit_qid := "b"; hit_score := 0.5%float |}] [] default_config false).
  vm_compute. discriminate.
Defined.

(** ** The sparse index *)

Module IndexFacts.
Import OrderFacts RankFacts.

Lemma term_counts_in (tokens : list string) (t : string) (c : Z) :
  In (t, c) (BM25.term_counts tokens) -> In t tokens.
Proof.
  intros H. unfold BM25.term_counts in H.
  assert (K : In t (dict_keys
                      (fold_left
                         (fun tf x =>
                            dict_set x
                              (match dict_get x tf with Some c => c + 1 | None => 1 end) tf)
                         tokens []))).
  { unfold dict_keys. apply in_map_iff. now exists (t, c). }
  apply (fold_set_keys (fun x : string => x)
           (fun tf x => match dict_get x tf with Some c => c + 1 | None => 1 end)) in K.
  destruct K as [[]|[x [Hx <-]]]. exact Hx.
Qed.

(** The postings of a rebuilt index name documents that hold the term. *)
Lemma rebuild_postings (self : BM25.BM25Index) (term : string)
      (posting : list (string * Z)) (q : string) (c : Z) :
  dict_get term (BM25.inverted (BM25._rebuild self)) = Some posting ->
  In (q, c) posting ->
  exists tokens, In (q, tokens) (BM25.docs self) /\ In term tokens.
Proof.
  cbn [BM25._rebuild BM25.inverted]. revert term posting q c.
  apply (RetrieveFacts.fold_left_ind
           (fun inv => forall term posting q c,
                dict_get term inv = Some posting -> In (q, c) posting ->
                exists tokens, In (q, tokens) (BM25.docs self) /\ In term tokens)).
  - intros term posting q c H. discriminate.
  - intros inv [qid tokens] Hd Hinv. cbn [fst snd]. unfold BM25.add_postings.
    apply (RetrieveFacts.fold_left_ind
             (fun inv => forall term posting q c,
                  dict_get term inv = Some posting -> In (q, c) posting ->
                  exists tokens, In (q, tokens) (BM25.docs self) /\ In term tokens)).
    + exact Hinv.
    + intros inv' [t n] Htc Hinv' term posting q c. cbn [fst snd].
      destruct (String.eqb_spec t term) as [<-|N].
      * rewrite DictFacts.get_set_same. intros E. injection E as <-.
        intros Hin. apply in_app_or in Hin. destruct Hin as [Hin|[E|[]]].
        -- destruct (dict_get t inv') as [p|] eqn:G; [|destruct Hin].
           exact (Hinv' t p q c G Hin).
        -- injection E as <- <-. exists tokens. split; [exact Hd|].
           exact (term_counts_in tokens t n Htc).
      * rewrite DictFacts.get_set_other by assumption. apply Hinv'.
Qed.

Lemma distinct_in (tokens : list string) (t : string) :
  In t (BM25.distinct tokens) -> In t tokens.
Proof.
  unfold BM25.distinct. revert t.
  apply (RetrieveFacts.fold_left_ind (fun s => forall t, In t s -> In t tokens)).
  - intros t [].
  - intros s x Hx Hs t Ht.
    destruct (RetrieveFacts.set_add_in _ _ _ Ht) as [->|H]; auto.
Qed.

Lemma nodup_filter_keys {V : Type} (p : string * V -> bool) (d : dict V) :
  NoDup (dict_keys d) -> NoDup (dict_keys (filter p d)).
Proof.
  unfold dict_keys. induction d as [|[k v] d IH]; cbn [map filter]; [auto|].
  intros H. inversion H as [|? ? Hk Hd]; subst.
  destruct (p (k, v)); cbn [map]; [|auto].
  constructor; [|auto]. intros Hin. apply Hk.
  apply in_map_iff in Hin. destruct Hin as [[k' v'] [E Hin]].
  apply filter_In in Hin. apply in_map_iff. exists (k', v'). tauto.
Qed.

(** The scores the loop of [search] accumulates. *)
Lemma search_scores (rt : Runtime) (self : BM25.BM25Index) (avgdl : float)
      (q_terms : list string) :
  let scores :=
    fold_left
      (fun scores term =>
         match dict_get term (BM25.inverted self) with
         | None => scores
         | Some [] => scores
         | Some posting =>
             let df := Z.of_nat (List.length posting) in
             let idf :=
               math_log rt
                 (PrimFloat.add 1
                    (PrimFloat.div
                       (PrimFloat.add (float_of_Z (BM25.total_docs self - df)) 0.5)
                       (PrimFloat.add (float_of_Z df) 0.5))) in
             fold_left
               (fun scores p =>
                  BM25.add_score (fst p)
                    (BM25.term_score self avgdl idf (fst p) (snd p)) scores)
               posting scores
         end)
      q_terms [] in
  NoDup (dict_keys scores) /\
  forall q, In q (dict_keys scores) ->
            exists term posting c,
              In term q_terms /\
              dict_get term (BM25.inverted self) = Some posting /\ In (q, c) posting.
Proof.
  cbv zeta.
  apply (RetrieveFacts.fold_left_ind
           (fun scores =>
              NoDup (dict_keys scores) /\
              forall q, In q (dict_keys scores) ->
                        exists term posting c,
                          In term q_terms /\
                          dict_get term (BM25.inverted self) = Some posting /\
                          In (q, c) posting)).
  - split; [constructor|intros q []].
  - intros scores term Hterm Hs.
    destruct (dict_get term (BM25.inverted self)) as [posting|] eqn:G; [|exact Hs].
    destruct posting as [|p0 rest]; [exact Hs|].
    set (posting := p0 :: rest) in *.
    apply (RetrieveFacts.fold_left_ind
             (fun scores =>
                NoDup (dict_keys scores) /\
                forall q, In q (dict_keys scores) ->
                          exists term posting c,
                            In term q_terms /\
                            dict_get term (BM25.inverted self) = Some posting /\
                            In (q, c) posting)).
    + exact Hs.
    + intros scores' [q c] Hp [N K]. cbn [fst snd]. unfold BM25.add_score. split.
      * now apply DictFacts.keys_set_nodup.
      * intros q' Hq'. destruct (DictFacts.keys_set_in _ _ _ _ Hq') as [->|H]; [|auto].
        exists term, posting, c. auto.
Qed.

(** A row of [search] is a document of the rebuilt index that holds a
    token of the query. *)
Lemma search_hit_document (rt : Runtime) (self : BM25.BM25Index) (query : string)
      (top_k : Z) (h : Hit) :
  In h (BM25.search rt (BM25._rebuild self) query top_k) ->
  exists tokens term,
    In (hit_qid h, tokens) (BM25.docs self) /\
    In term tokens /\ In term (Utils.tokenize query).
Proof.
  unfold BM25.search. cbv zeta.
  destruct (Numeric.is_empty _ || _); [intros []|].
  destruct (search_scores rt (BM25._rebuild self)
              (Numeric.max2 (BM25.avg_doc_len (BM25._rebuild self)) 1%float)
              (BM25.distinct (Utils.tokenize query))) as [_ K].
  cbv zeta in K.
  intros Hh. apply HeapFacts.slice_to_in, HeapFacts.sort_desc_in in Hh.
  apply in_map_iff in Hh. destruct Hh as [[q s] [<- Hs]]. cbn [hit_qid fst].
  apply filter_In in Hs. destruct Hs as [Hs _].
  match type of Hs with
  | In _ ?sc => assert (Hq : In q (dict_keys sc))
  end.
  { unfold dict_keys. apply in_map_iff. exists (q, s). split; [reflexivity|exact Hs]. }
  destruct (K q Hq) as [term [posting [c [Ht [G Hp]]]]].
  destruct (rebuild_postings self term posting q c G Hp) as [tokens [Hd Hin]].
  exists tokens, term. split; [exact Hd|]. split; [exact Hin|].
  exact (distinct_in _ _ Ht).
Qed.

(** [dict.pop] *)
Lemma pop_in {V : Type} (k k' : string) (v : V) (d : dict V) :
  In (k', v) (Removal.dict_pop k d) -> k' <> k /\ In (k', v) d.
Proof.
  induction d as [|[k0 v0] d IH]; cbn [Removal.dict_pop]; [intros []|].
  destruct (String.eqb_spec k0 k) as [E|N].
  - intros H. destruct (IH H). split; [assumption|now right].
  - intros [H|H].
    + injection H as <- <-. split; [assumption|now left].
    + destruct (IH H). split; [assumption|now right].
Qed.

Lemma pop_get {V : Type} (k k' : string) (d : dict V) :
  dict_get k' (Removal.dict_pop k d) = if String.eqb k k' then None else dict_get k' d.
Proof.
  induction d as [|[k0 v0] d IH]; cbn [Removal.dict_pop dict_get].
  - now destruct (String.eqb k k').
  - destruct (String.eqb_spec k0 k) as [->|N].
    + rewrite IH. destruct (String.eqb_spec k k'); reflexivity.
    + cbn [dict_get]. rewrite IH.
      destruct (String.eqb_spec k0 k') as [->|N']; [|reflexivity].
      destruct (String.eqb_spec k k'); [congruence|reflexivity].
Qed.

Lemma pop_absent {V : Type} (k : string) (d : dict V) :
  dict_get k d = None -> Removal.dict_pop k d = d.
Proof.
  induction d as [|[k0 v0] d IH]; cbn [Removal.dict_pop dict_get]; [reflexivity|].
  destruct (String.eqb k0 k); [discriminate|]. intros H. now rewrite IH.
Qed.

Lemma pops_in {V : Type} (qids : list string) :
  forall (d : dict V) (k : string) (v : V),
    In (k, v) (fold_left (fun d q => Removal.dict_pop q d) qids d) ->
    ~ In k qids /\ In (k, v) d.
Proof.
  induction qids as [|q qids IH]; intros d k v; cbn [fold_left]; [auto|].
  intros H. destruct (IH _ _ _ H) as [N Hin]. destruct (pop_in _ _ _ _ Hin) as [Nq Hd].
  split; [|exact Hd]. intros [E|E]; [congruence|contradiction].
Qed.

Lemma pops_get {V : Type} (qids : list string) :
  forall (d : dict V) (k : string),
    dict_get k (fold_left (fun d q => Removal.dict_pop q d) qids d)
    = if set_mem k qids then None else dict_get k d.
Proof.
  induction qids as [|q qids IH]; intros d k; cbn [fold_left]; [reflexivity|].
  rewrite IH, pop_get. unfold set_mem. cbn [existsb].
  rewrite (String.eqb_sym k q).
  destruct (existsb (String.eqb k) qids); [now rewrite orb_true_r|].
  now destruct (String.eqb q k).
Qed.

End IndexFacts.

(** X12.  What [BM25Index.search] returns on a rebuilt index, as
    [add_documents] and [remove_documents] leave it: each qid at most once;
    at most [top_k] rows when [top_k] is not negative; every row has a
    score strictly above 0 and is a document of the index that holds a
    token of the query; the rows are in non-increasing order of score. *)
Theorem bm25_search_hits (rt : Runtime) (self : BM25.BM25Index) (query : string)
        (top_k : Z) :
  let hits := BM25.search rt (BM25._rebuild self) query top_k in
  NoDup (map hit_qid hits) /\
  (0 <= top_k -> Z.of_nat (List.length hits) <= top_k) /\
  (forall h, In h hits ->
             PrimFloat.ltb 0%float (hit_score h) = true /\
             exists tokens term,
               In (hit_qid h, tokens) (BM25.docs self) /\
               In term tokens /\ In term (Utils.tokenize query)) /\
  Ranking.descending hits.
Proof.
  cbv zeta. unfold BM25.search. cbv zeta.
  destruct (Numeric.is_empty _ || _) eqn:E.
  { split; [constructor|]. split; [intros H; cbn; lia|].
    split; [intros h []|constructor]. }
  match goal with
  | |- context [filter _ ?sc] => set (scores := sc)
  end.
  destruct (IndexFacts.search_scores rt (BM25._rebuild self)
              (Numeric.max2 (BM25.avg_doc_len (BM25._rebuild self)) 1%float)
              (BM25.distinct (Utils.tokenize query))) as [N K].
  cbv zeta in N, K. fold scores in N, K.
  set (out := map (fun s => {| hit_qid := fst s; hit_score := snd s |})
                  (filter (fun s => PrimFloat.ltb 0%float (snd s)) scores)).
  assert (Pos : forall h, In h out -> PrimFloat.ltb 0%float (hit_score h) = true).
  { intros h Hh. apply in_map_iff in Hh. destruct Hh as [s [<- Hs]].
    apply filter_In in Hs. tauto. }
  assert (Nout : NoDup (map hit_qid out)).
  { unfold out. rewrite RankFacts.hits_of_keys.
    now apply IndexFacts.nodup_filter_keys. }
  pose proof (RankFacts.sort_by_score_perm out) as P.
  split; [|split; [|split]].
  - rewrite OrderFacts.map_slice. apply OrderFacts.nodup_slice.
    apply (Permutation_NoDup (Permutation_sym (Permutation_map hit_qid P)) Nout).
  - apply OrderFacts.slice_length.
  - intros h Hh. split.
    + apply HeapFacts.slice_to_in in Hh. apply (Permutation_in _ P) in Hh.
      exact (Pos h Hh).
    + apply (IndexFacts.search_hit_document rt self query top_k).
      unfold BM25.search. cbv zeta. now rewrite E.
  - apply OrderFacts.strongly_sorted_slice.
    now apply RankFacts.sort_by_score_descending.
Qed.

(** X13.  After [remove_documents(qids)] no search returns a removed qid:
    every row is a document the index held before and that was not
    removed. *)
Theorem removed_documents_are_not_found (rt : Runtime) (self : BM25.BM25Index)
        (qids : list string) (query : string) (top_k : Z) (h : Hit) :
  In h (BM25.search rt (Removal.remove_documents qids self) query top_k) ->
  ~ In (hit_qid h) qids /\
  exists tokens, In (hit_qid h, tokens) (BM25.docs self).
Proof.
  unfold Removal.remove_documents. intros H.
  apply IndexFacts.search_hit_document in H.
  destruct H as [tokens [term [Hd _]]]. cbn [BM25.docs] in Hd.
  apply IndexFacts.pops_in in Hd. destruct Hd as [N Hd]. eauto.
Qed.

(** The theorem on the index of two documents: ["a"] is removed and the
    query finds ["b"]. *)
Lemma removed_documents_are_not_found_witness :
  exists h,
    In h (BM25.search Examples.bare_runtime
            (Removal.remove_documents ["a"]
               (BM25.add_documents [("a", "red apple"); ("b", "green apple")] BM25.empty))
            "apple" 5) /\
    hit_qid h = "b" /\
    ~ In (hit_qid h) ["a"] /\
    exists tokens,
      In (hit_qid h, tokens)
         (BM25.docs (BM25.add_documents [("a", "red apple"); ("b", "green apple")]
                                        BM25.empty)).
Proof.
  eexists. split; [vm_compute; left; reflexivity|]. split; [reflexivity|].
  eapply (removed_documents_are_not_found Examples.bare_runtime
            (BM25.add_documents [("a", "red apple"); ("b", "green apple")] BM25.empty)
            ["a"] "apple" 5).
  vm_compute. left. reflexivity.
Defined.

(** ** The vector index *)

(** X14.  [upsert] then lookup: the vector stored under a qid is the one of
    the last row of the batch that carries the qid, and a qid the batch
    does not carry keeps its vector; the keys stay distinct. *)
Theorem upsert_then_lookup :
  (forall (l1 l2 : list (string * list float)) (rows : VectorIndex.t)
          (k : string) (v : list float),
      ~ In k (dict_keys l2) ->
      dict_get k (VectorIndex.upsert (l1 ++ (k, v) :: l2) rows) = Some v) /\
  (forall (new_rows : list (string * list float)) (rows : VectorIndex.t) (k : string),
      ~ In k (dict_keys new_rows) ->
      dict_get k (VectorIndex.upsert new_rows rows) = dict_get k rows) /\
  (forall (new_rows : list (string * list float)) (rows : VectorIndex.t),
      NoDup (dict_keys rows) -> NoDup (dict_keys (VectorIndex.upsert new_rows rows))).
Proof.
  assert (A : forall (new_rows : list (string * list float)) (rows : VectorIndex.t)
                     (k : string),
             ~ In k (dict_keys new_rows) ->
             dict_get k (VectorIndex.upsert new_rows rows) = dict_get k rows).
  { unfold VectorIndex.upsert.
    induction new_rows as [|[k0 v0] l IH]; intros rows k N; cbn [fold_left];
      [reflexivity|].
    rewrite IH by (intros H; apply N; now right). cbn [fst snd].
    apply DictFacts.get_set_other. intros E. apply N. now left. }
  split; [|split; [exact A|]].
  - intros l1 l2 rows k v N. unfold VectorIndex.upsert. rewrite fold_left_app.
    cbn [fold_left fst snd].
    change (dict_get k (VectorIndex.upsert l2
                          (dict_set k v (fold_left (fun d r => dict_set (fst r) (snd r) d)
                                                   l1 rows))) = Some v).
    rewrite (A l2 _ k N). apply DictFacts.get_set_same.
  - intros new_rows rows H. unfold VectorIndex.upsert.
    now apply (RankFacts.fold_set_nodup
                 (fun r : string * list float => fst r) (fun _ r => snd r)).
Qed.

(** X15.  [remove] then lookup: a removed qid has no vector, every other
    qid keeps its own; removing qids the index does not hold changes
    nothing and raises nothing. *)
Theorem remove_then_lookup :
  (forall (qids : list string) (rows : VectorIndex.t) (k : string),
      dict_get k (Removal.remove qids rows)
      = if set_mem k qids then None else dict_get k rows) /\
  (forall (qids : list string) (rows : VectorIndex.t),
      (forall q, In q qids -> dict_get q rows = None) ->
      Removal.remove qids rows = rows).
Proof.
  split.
  - intros qids rows k. apply IndexFacts.pops_get.
  - unfold Removal.remove. induction qids as [|q qids IH]; intros rows H;
      cbn [fold_left]; [reflexivity|].
    rewrite IndexFacts.pop_absent by (apply H; now left).
    apply IH. intros q' Hq'. apply H. now right.
Qed.

Module VectorFacts.
Import Notions.

(** The rows NumPy accepts all have the number of columns of the matrix. *)
Lemma np_array_rows (rows : VectorIndex.t) (n : nat) (m : list (list float)) :
  VectorIndex.np_array (dict_values rows) = Ok (n, m) ->
  forall k v, In (k, v) rows -> List.length v = n.
Proof.
  destruct rows as [|[k0 v0] rest]; [discriminate|].
  cbn [dict_values map snd VectorIndex.np_array].
  destruct (forallb _ _) eqn:F; [|discriminate].
  intros E. injection E as <- _. intros k v [H|H].
  - now injection H as _ <-.
  - rewrite forallb_forall in F. apply Nat.eqb_eq. apply F.
    apply in_map_iff. now exists (k, v).
Qed.

Lemma nth_row (rows : VectorIndex.t) (i : nat) :
  (i < List.length rows)%nat ->
  In (nth i (dict_keys rows) "", nth i (dict_values rows) []) rows.
Proof.
  intros H. unfold dict_keys, dict_values.
  change "" with (fst ("", @nil float)) at 1.
  change (@nil float) with (snd ("", @nil float)) at 2.
  rewrite !map_nth. rewrite <- surjective_pairing. now apply nth_In.
Qed.

Lemma search_numpy_hits (np : Numpy) (rows : VectorIndex.t) (vector : list float)
      (top_k : Z) (hits : list Hit) :
  0 <= top_k ->
  VectorIndex._search_numpy np rows vector top_k = Ok hits ->
  Z.of_nat (List.length hits) <= top_k /\
  forall h, In h hits ->
            (exists v, In (hit_qid h, v) rows /\ List.length v = List.length vector) /\
            PrimFloat.leb (hit_score h) 0%float = false.
Proof.
  intros Hk. unfold VectorIndex._search_numpy.
  destruct (VectorIndex.np_array (dict_values rows)) as [[n m]|e] eqn:A; cbn [bind];
    [|discriminate].
  pose proof (np_array_rows rows n m A) as L. cbn [fst snd].
  destruct (Nat.eqb_spec n (List.length vector)) as [En|Nn]; cbn [negb].
  2:{ intros E. injection E as <-. split; [cbn; lia|intros h []]. }
  set (sim := fun i => nth i (np_sims np m vector) 0%float).
  set (order := Sorting.sort_desc (fun i j => PrimFloat.ltb (sim i) (sim j))
                                  (seq 0 (List.length (dict_keys rows)))).
  assert (Lo : List.length order = List.length (dict_keys rows)).
  { unfold order. now rewrite HeapFacts.sort_desc_length, length_seq. }
  assert (Io : forall i, In i order -> (i < List.length rows)%nat).
  { intros i Hi. apply HeapFacts.sort_desc_in in Hi. apply in_seq in Hi.
    unfold dict_keys in Hi. rewrite length_map in Hi. lia. }
  assert (G : forall idx,
             (forall i, In i idx -> In i order) ->
             Z.of_nat (List.length idx) <= top_k ->
             let out := map (fun i => {| hit_qid := nth i (dict_keys rows) "";
                                         hit_score := sim i |})
                            (filter (fun i => PrimFloat.ltb 0%float (sim i)) idx) in
             Z.of_nat (List.length out) <= top_k /\
             forall h, In h out ->
                       (exists v, In (hit_qid h, v) rows /\
                                  List.length v = List.length vector) /\
                       PrimFloat.leb (hit_score h) 0%float = false).
  { intros idx Hidx Hlen. cbv zeta. split.
    - rewrite length_map. pose proof (filter_length_le
                                        (fun i => PrimFloat.ltb 0%float (sim i)) idx). lia.
    - intros h Hh. apply in_map_iff in Hh. destruct Hh as [i [<- Hi]].
      apply filter_In in Hi. destruct Hi as [Hi Hpos]. cbn [hit_qid hit_score]. split.
      + exists (nth i (dict_values rows) []).
        pose proof (nth_row rows i (Io i (Hidx i Hi))) as R.
        split; [exact R|]. rewrite (L _ _ R). exact En.
      + now apply FloatFacts.ltb_not_leb. }
  destruct (Z.leb_spec (Z.of_nat (List.length (dict_keys rows))) top_k) as [Le|Gt];
    cbn [bind].
  - intros E. injection E as <-. apply (G order); [auto|]. rewrite Lo. exact Le.
  - destruct (Z.ltb_spec (top_k - 1) (- Z.of_nat (List.length (dict_keys rows))));
      cbn [bind]; [discriminate|].
    intros E. injection E as <-. apply (G (slice_to top_k order)).
    + intros i. apply HeapFacts.slice_to_in.
    + now apply OrderFacts.slice_length.
Qed.

Lemma search_heap_hits (rows : VectorIndex.t) (vector : list float)
      (top_k : Z) (hits : list Hit) :
  0 <= top_k ->
  VectorIndex._search_heap rows vector top_k = Ok hits ->
  Z.of_nat (List.length hits) <= top_k /\
  forall h, In h hits ->
            (exists v, In (hit_qid h, v) rows /\ List.length v = List.length vector) /\
            PrimFloat.leb (hit_score h) 0%float = false.
Proof.
  intros Hk. unfold VectorIndex._search_heap.
  destruct (VectorIndex.heap_loop vector top_k rows []) as [heap|e] eqn:E; cbn [bind];
    [|discriminate].
  intros H. injection H as <-.
  destruct (HeapFacts.heap_loop_scored rows vector top_k Hk rows [] heap
              (fun _ H => H) (fun _ (H : In _ []) => match H with end)
              ltac:(cbn; lia) E) as [Hs Hl].
  split.
  - now rewrite length_map, HeapFacts.sort_desc_length.
  - intros h Hh. apply in_map_iff in Hh. destruct Hh as [[s q] [<- He]].
    cbn [hit_score hit_qid fst snd]. apply HeapFacts.sort_desc_in in He.
    destruct (Hs _ He) as [v [Hin [Hlen [_ Hpos]]]]. cbn [fst snd] in *. eauto.
Qed.

End VectorFacts.

(** X16.  What [VectorIndex.search] returns, through NumPy or through the
    heap, for a [top_k] that is not negative: at most [top_k] rows, each
    the qid of a stored vector of the length of the query, with a score
    that is not [<= 0]. *)
Theorem vector_search_hits (rt : Runtime) (rows : VectorIndex.t)
        (vector : list float) (top_k : Z) (hits : list Hit) :
  0 <= top_k ->
  VectorIndex.search rt rows vector top_k = Ok hits ->
  Z.of_nat (List.length hits) <= top_k /\
  forall h, In h hits ->
            (exists v, In (hit_qid h, v) rows /\ List.length v = List.length vector) /\
            PrimFloat.leb (hit_score h) 0%float = false.
Proof.
  intros Hk. unfold VectorIndex.search.
  destruct (Numeric.is_empty vector).
  { intros E. injection E as <-. split; [cbn; lia|intros h []]. }
  destruct (numpy rt) as [np|]; [|now apply VectorFacts.search_heap_hits].
  destruct (negb (Numeric.is_empty rows)).
  - now apply VectorFacts.search_numpy_hits.
  - now apply VectorFacts.search_heap_hits.
Qed.

(** The theorem on the index that holds a vector of length 2 and one of
    length 1, without NumPy. *)
Lemma vector_search_hits_witness :
  VectorIndex.search Examples.bare_runtime Examples.mixed_index [1%float; 0%float] 5
  = Ok [{| hit_qid := "a"; hit_score := 1%float |}] /\
  Z.of_nat (List.length [{| hit_qid := "a"; hit_score := 1%float |}]) <= 5 /\
  forall h, In h [{| hit_qid := "a"; hit_score := 1%float |}] ->
            (exists v, In (hit_qid h, v) Examples.mixed_index /\
                       List.length v = List.length [1%float; 0%float]) /\
            PrimFloat.leb (hit_score h) 0%float = false.
Proof.
  split; [vm_compute; reflexivity|].
  apply (vector_search_hits Examples.bare_runtime Examples.mixed_index
           [1%float; 0%float] 5); [lia|vm_compute; reflexivity].
Defined.

(** ** The three channels *)

Module ChannelFacts.
Import OrderFacts RankFacts.

Lemma filter_keeps_distinct {R K : Type} (key : R -> K) (keep : R -> bool) :
  forall rows : list R,
    NoDup (map key rows) -> NoDup (map key (filter keep rows)).
Proof.
  intros rows. induction rows as [|x rows IH]; cbn [map filter]; [auto|].
  intros H. inversion H as [|? ? Hx Hl]; subst.
  destruct (keep x); cbn [map]; [|auto].
  constructor; [|auto]. intros Hin. apply Hx.
  apply in_map_iff in Hin. destruct Hin as [y [E Hy]].
  apply filter_In in Hy. apply in_map_iff. exists y. tauto.
Qed.

Lemma sort_by_score_nodup (l : list Hit) :
  NoDup (map hit_qid l) -> NoDup (map hit_qid (sort_by_score l)).
Proof.
  apply Permutation_NoDup, Permutation_sym, Permutation_map, sort_by_score_perm.
Qed.

Lemma merge_nodup (rows : list Hit) (m0 : dict float) :
  NoDup (dict_keys m0) ->
  NoDup (dict_keys
           (fold_left (fun m row => Scoring.merge_max (hit_qid row) (hit_score row) m)
                      rows m0)).
Proof.
  intros H. unfold Scoring.merge_max.
  now apply (fold_set_nodup hit_qid
               (fun m row =>
                  Numeric.max2 match dict_get (hit_qid row) m with
                               | Some s => s
                               | None => (-1)%float
                               end (hit_score row))).
Qed.

End ChannelFacts.

(** X17.  The three channels respect the filter and never repeat a qid.
    Every row of [score_sparse], [score_dense] and [score_image] has its
    qid in [allowed_qids]; the rows of [score_dense] and of [score_image]
    have distinct qids; [score_dense] returns at most [top_k] rows when
    [top_k] is not negative; every row of [score_image] is the owner of an
    image. *)
Theorem channels_respect_filter (rt : Runtime) (bm25 : BM25.BM25Index)
        (stem_index explanation_index image_index : VectorIndex.t)
        (image_owner : dict string) (query_text : string)
        (query_vector image_vector : list float) (top_k : Z) (allowed : list string) :
  Notions.within allowed (Scoring.score_sparse rt bm25 query_text top_k allowed) /\
  (forall hits,
      Scoring.score_dense rt stem_index explanation_index query_vector top_k allowed
      = Ok hits ->
      Notions.within allowed hits /\ NoDup (map hit_qid hits) /\
      (0 <= top_k -> Z.of_nat (List.length hits) <= top_k)) /\
  (forall hits,
      Scoring.score_image rt image_index image_owner image_vector top_k allowed
      = Ok hits ->
      Notions.within allowed hits /\ NoDup (map hit_qid hits) /\
      forall h, In h hits -> exists i, dict_get i image_owner = Some (hit_qid h)).
Proof.
  split; [apply RetrieveFacts.score_sparse_within|]. split.
  - intros hits H. split; [exact (RetrieveFacts.score_dense_within _ _ _ _ _ _ _ H)|].
    revert H. unfold Scoring.score_dense.
    destruct (Numeric.is_empty query_vector).
    { intros E. injection E as <-. split; [constructor|]. intros Hk. cbn. lia. }
    destruct (VectorIndex.search rt stem_index _ _) as [stem|e]; cbn [bind];
      [|discriminate].
    destruct (VectorIndex.search rt explanation_index _ _) as [exp|e]; cbn [bind];
      [|discriminate].
    intros E. injection E as <-. split; [|apply OrderFacts.slice_length].
    rewrite OrderFacts.map_slice. apply OrderFacts.nodup_slice.
    apply ChannelFacts.sort_by_score_nodup, ChannelFacts.filter_keeps_distinct.
    unfold Scoring.hits_of. rewrite RankFacts.hits_of_keys.
    apply ChannelFacts.merge_nodup, ChannelFacts.merge_nodup. constructor.
  - intros hits H. split; [exact (RetrieveFacts.score_image_within _ _ _ _ _ _ _ H)|].
    revert H. unfold Scoring.score_image.
    destruct (Numeric.is_empty image_vector).
    { intros E. injection E as <-. split; [constructor|intros h []]. }
    destruct (VectorIndex.search rt image_index _ _) as [raw|e]; cbn [bind];
      [|discriminate].
    intros E. injection E as <-.
    match goal with
    | |- context [Scoring.hits_of ?m] => set (merged := m)
    end.
    assert (M : NoDup (dict_keys merged) /\
                forall k, In k (dict_keys merged) ->
                          exists i, dict_get i image_owner = Some k).
    { unfold merged.
      apply (RetrieveFacts.fold_left_ind
               (fun m => NoDup (dict_keys m) /\
                         forall k, In k (dict_keys m) ->
                                   exists i, dict_get i image_owner = Some k)).
      - split; [constructor|intros k []].
      - intros m row _ [N K].
        destruct (dict_get (hit_qid row) image_owner) as [qid|] eqn:G; [|auto].
        destruct (negb (Utils.nonempty qid) || negb (set_mem qid allowed)); [auto|].
        unfold Scoring.merge_max. split.
        + now apply DictFacts.keys_set_nodup.
        + intros k Hk. destruct (DictFacts.keys_set_in _ _ _ _ Hk) as [->|Hk']; eauto. }
    destruct M as [N K]. split.
    + apply ChannelFacts.sort_by_score_nodup.
      unfold Scoring.hits_of. now rewrite RankFacts.hits_of_keys.
    + intros h Hh. apply HeapFacts.sort_desc_in in Hh.
      apply K. now apply RetrieveFacts.hits_of_qid.
Qed.

(** ** The bank and its exact-hash map *)

Module RegistryFacts.
Import Engine Bank BankFacts IngestFacts OrderFacts.

Section WithRuntime.
Variable rt : Runtime.

(** Every qid the exact-hash map names is the key of a stored document. *)
Lemma store_registry (self : Engine.t) (q : QuestionDocument) :
  (forall h k, dict_get h (exact_hash_map self) = Some k -> In k (dict_keys (docs self))) ->
  forall h k, dict_get h (exact_hash_map (_store_question self q)) = Some k ->
              In k (dict_keys (docs (_store_question self q))).
Proof.
  intros H h k. cbn [_store_question exact_hash_map docs]. rewrite keys_set.
  destruct (String.eqb_spec (exact_hash (fingerprints q)) h) as [<-|N].
  - rewrite DictFacts.get_set_same. intros E. injection E as <-. now left.
  - rewrite DictFacts.get_set_other by assumption. intros E. right. now apply (H h).
Qed.

Lemma ingest_step_registry (self : Engine.t) (q : QuestionDocument) :
  (forall h k, dict_get h (exact_hash_map self) = Some k -> In k (dict_keys (docs self))) ->
  forall h k, dict_get h (exact_hash_map (fst (ingest_step rt self q))) = Some k ->
              In k (dict_keys (docs (fst (ingest_step rt self q)))).
Proof.
  intros H.
  destruct (ingest_step_cases rt self q) as [[m [_ [_ ->]]]|[_ [[e ->]|[row [-> _]]]]];
    cbn [fst]; try exact H.
  now apply store_registry.
Qed.

Lemma ingest_loop_registry (normalized : list QuestionDocument) :
  forall (self : Engine.t) (out : list IngestedQuestion),
    (forall h k, dict_get h (exact_hash_map self) = Some k -> In k (dict_keys (docs self))) ->
    forall h k,
      dict_get h (exact_hash_map (fst (ingest_loop rt self normalized out))) = Some k ->
      In k (dict_keys (docs (fst (ingest_loop rt self normalized out)))).
Proof.
  induction normalized as [|q rest IH]; intros self out H; cbn [ingest_loop].
  - exact H.
  - pose proof (ingest_step_registry self q H) as S.
    destruct (ingest_step rt self q) as [self1 [row|e]]; cbn [fst] in *; [|exact S].
    now apply IH.
Qed.

Lemma ingest_registry (self : Engine.t) (payload : IngestionInput) :
  (forall h k, dict_get h (exact_hash_map self) = Some k -> In k (dict_keys (docs self))) ->
  forall h k,
    dict_get h (exact_hash_map (fst (ingest rt self payload))) = Some k ->
    In k (dict_keys (docs (fst (ingest rt self payload)))).
Proof.
  intros H. unfold ingest, ingest_normalized.
  pose proof (ingest_loop_registry (_normalize_input rt self payload) self [] H) as L.
  destruct (ingest_loop rt self _ []) as [self' [out|e]]; exact L.
Qed.

Lemma load_registry (self : Engine.t) (file : option LocalStore.jsonl) :
  (forall h k, dict_get h (exact_hash_map self) = Some k -> In k (dict_keys (docs self))) ->
  forall h k,
    dict_get h (exact_hash_map (fst (load_local_bank rt self file))) = Some k ->
    In k (dict_keys (docs (fst (load_local_bank rt self file)))).
Proof.
  intros H. unfold load_local_bank.
  destruct (Numeric.is_empty (LocalStore.load_questions_jsonl file)); [exact H|].
  match goal with
  | |- context [ingest rt ?c ?p] =>
      assert (R : forall h k,
                 dict_get h (exact_hash_map (fst (ingest rt c p))) = Some k ->
                 In k (dict_keys (docs (fst (ingest rt c p)))))
  end.
  { apply ingest_registry. cbn [exact_hash_map]. intros h k E. discriminate. }
  destruct (ingest rt _ _) as [self' [out|e]]; exact R.
Qed.

Lemma reachable_registry (self : Engine.t) :
  reachable rt self ->
  forall h k, dict_get h (exact_hash_map self) = Some k -> In k (dict_keys (docs self)).
Proof.
  induction 1 as [cfg emb|self payload _ IH|self file _ IH].
  - cbn. intros h k E. discriminate.
  - now apply ingest_registry.
  - now apply load_registry.
Qed.

End WithRuntime.
End RegistryFacts.

(** X18.  The invariant of the bank.  In every engine a program can reach
    (a new engine, then any calls of [ingest] and [load_local_bank], whether
    they return or raise): the keys of [docs] are distinct; a document is
    stored under its own qid, which is not empty, and the exact-hash map
    sends its exact hash to its qid; so two stored documents never share an
    exact hash; and every qid the exact-hash map names is the key of a
    stored document. *)
Theorem reachable_bank_invariant (rt : Runtime) (self : Engine.t) :
  Bank.reachable rt self ->
  NoDup (dict_keys (Engine.docs self)) /\
  (forall k d,
      dict_get k (Engine.docs self) = Some d ->
      qid d = k /\ Utils.nonempty k = true /\
      dict_get (exact_hash (fingerprints d)) (Engine.exact_hash_map self) = Some k) /\
  (forall k1 k2 d1 d2,
      dict_get k1 (Engine.docs self) = Some d1 ->
      dict_get k2 (Engine.docs self) = Some d2 ->
      exact_hash (fingerprints d1) = exact_hash (fingerprints d2) -> k1 = k2) /\
  (forall h k,
      dict_get h (Engine.exact_hash_map self) = Some k ->
      exists d, dict_get k (Engine.docs self) = Some d).
Proof.
  intros Hr. destruct (BankFacts.reachable_ok rt self Hr) as [Hn Hk Hh Ht].
  assert (A : forall k d,
             dict_get k (Engine.docs self) = Some d ->
             qid d = k /\ Utils.nonempty k = true /\
             dict_get (exact_hash (fingerprints d)) (Engine.exact_hash_map self) = Some k).
  { intros k d G. apply DictFacts.get_in in G.
    pose proof (Hh k d G) as E. split; [now apply Hk|]. split; [|exact E].
    exact (Ht _ _ E). }
  split; [exact Hn|]. split; [exact A|]. split.
  - intros k1 k2 d1 d2 G1 G2 E.
    destruct (A k1 d1 G1) as [_ [_ M1]]. destruct (A k2 d2 G2) as [_ [_ M2]].
    rewrite E in M1. congruence.
  - intros h k G. apply OrderFacts.get_some_keys.
    exact (RegistryFacts.reachable_registry rt self Hr h k G).
Qed.

(** The theorem on the bank of one document. *)
Lemma reachable_bank_invariant_witness :
  NoDup (dict_keys (Engine.docs Examples.bank_a)) /\
  (forall k d,
      dict_get k (Engine.docs Examples.bank_a) = Some d ->
      qid d = k /\ Utils.nonempty k = true /\
      dict_get (exact_hash (fingerprints d)) (Engine.exact_hash_map Examples.bank_a)
      = Some k) /\
  (forall k1 k2 d1 d2,
      dict_get k1 (Engine.docs Examples.bank_a) = Some d1 ->
      dict_get k2 (Engine.docs Examples.bank_a) = Some d2 ->
      exact_hash (fingerprints d1) = exact_hash (fingerprints d2) -> k1 = k2) /\
  (forall h k,
      dict_get h (Engine.exact_hash_map Examples.bank_a) = Some k ->
      exists d, dict_get k (Engine.docs Examples.bank_a) = Some d).
Proof.
  apply (reachable_bank_invariant Examples.bare_runtime Examples.bank_a).
  apply Bank.reach_ingest, Bank.reach_init.
Defined.

(** ** The rows [ingest] returns *)

Module ReportFacts.
Import Engine Bank BankFacts IngestFacts OrderFacts Report.

Section WithRuntime.
Variable rt : Runtime.

Lemma ingest_step_question (self self1 : Engine.t) (q : QuestionDocument)
      (row : IngestedQuestion) :
  ingest_step rt self q = (self1, Ok row) -> question row = q.
Proof.
  destruct (ingest_step_cases rt self q) as [[m [_ [_ ->]]]|[_ [[e ->]|[row' [-> [E _]]]]]];
    intros H; [|discriminate H|]; injection H; intros <- _; [reflexivity|exact E].
Qed.

Lemma ingest_loop_questions (normalized : list QuestionDocument) :
  forall (self self' : Engine.t) (out rows : list IngestedQuestion),
    ingest_loop rt self normalized out = (self', Ok rows) ->
    map question rows = (map question out ++ normalized)%list.
Proof.
  induction normalized as [|q rest IH]; intros self self' out rows; cbn [ingest_loop].
  - intros H. injection H as _ <-. now rewrite app_nil_r.
  - destruct (ingest_step rt self q) as [self1 [row|e]] eqn:S; [|discriminate].
    intros H. rewrite (IH _ _ _ _ H), map_app. cbn [map].
    rewrite (ingest_step_question _ _ _ _ S), <- app_assoc. reflexivity.
Qed.

Lemma loop_keeps_keys (normalized : list QuestionDocument) (self : Engine.t)
      (out : list IngestedQuestion) (k : string) :
  In k (dict_keys (docs self)) ->
  In k (dict_keys (docs (fst (ingest_loop rt self normalized out)))).
Proof.
  intros H. apply get_some_keys in H. destruct H as [d Hd].
  destruct (ingest_loop_docs rt normalized k self out d Hd) as [d' [G _]].
  apply get_some_keys. eauto.
Qed.

Lemma row_stored_keys (thr : float) (d d' : dict QuestionDocument)
      (row : IngestedQuestion) :
  (forall k, In k (dict_keys d) -> In k (dict_keys d')) ->
  row_stored thr d row -> row_stored thr d' row.
Proof.
  intros M. unfold row_stored. destruct (status row).
  - intros [A [B C]]. auto.
  - intros [m [A [B C]]]. exists m. auto.
  - intros [m [s [A [B [C D]]]]]. exists m, s. auto.
Qed.

Lemma ingest_step_stored (self self1 : Engine.t) (q : QuestionDocument)
      (row : IngestedQuestion) :
  (forall h k, dict_get h (exact_hash_map self) = Some k -> In k (dict_keys (docs self))) ->
  ingest_step rt self q = (self1, Ok row) ->
  row_stored (near_duplicate_threshold (config self)) (docs self1) row.
Proof.
  intros R. unfold ingest_step.
  assert (Q : In (qid q) (dict_keys (docs (_store_question self q)))).
  { cbn [_store_question docs]. apply keys_set. now left. }
  destruct (dict_get (exact_hash (fingerprints q)) (exact_hash_map self)) as [m|] eqn:G.
  - destruct (Utils.nonempty m).
    + intros H. injection H as <- <-. unfold row_stored. cbn.
      exists m. split; [reflexivity|]. split; [exact (R _ _ G)|reflexivity].
    + destruct (_find_near_duplicate rt self q) as [[h|]|e]; try discriminate;
        [destruct (PrimFloat.leb _ _) eqn:T|]; intros H; injection H as <- <-;
        unfold row_stored; cbn; eauto 6.
  - destruct (_find_near_duplicate rt self q) as [[h|]|e]; try discriminate;
      [destruct (PrimFloat.leb _ _) eqn:T|]; intros H; injection H as <- <-;
      unfold row_stored; cbn; eauto 6.
Qed.

Lemma ingest_loop_stored (normalized : list QuestionDocument) :
  forall (self self' : Engine.t) (out rows : list IngestedQuestion),
    (forall h k, dict_get h (exact_hash_map self) = Some k -> In k (dict_keys (docs self))) ->
    ingest_loop rt self normalized out = (self', Ok rows) ->
    forall row, In row rows ->
                In row out \/
                row_stored (near_duplicate_threshold (config self)) (docs self') row.
Proof.
  induction normalized as [|q rest IH]; intros self self' out rows R; cbn [ingest_loop].
  - intros H. injection H as _ <-. auto.
  - pose proof (RegistryFacts.ingest_step_registry rt self q R) as R1.
    pose proof (ingest_step_frame rt self q) as F. cbv zeta in F.
    destruct (ingest_step rt self q) as [self1 [row1|e]] eqn:S; [|discriminate].
    cbn [fst] in *. destruct F as [_ [_ Fc]].
    intros H row Hrow. rewrite <- Fc.
    destruct (IH _ _ _ _ R1 H row Hrow) as [Hin|Hs]; [|now right].
    apply in_app_or in Hin. destruct Hin as [Hin|[<-|[]]]; [now left|]. right.
    apply (row_stored_keys _ (docs self1)).
    + intros k Hk. pose proof (loop_keeps_keys rest self1 (out ++ [row1])%list k Hk) as K.
      now rewrite H in K.
    + rewrite Fc. exact (ingest_step_stored self self1 q row1 R S).
Qed.

End WithRuntime.
End ReportFacts.

(** X19.  On a reachable bank with a configured dimension of at least 1
    and whose vector searches return (NumPy absent, or an embedder of fixed
    length such as the default one), [ingest] returns, and its output has
    one row per normalised document, in the order of the input, each
    carrying its document. *)
Theorem ingest_reports_each_document (rt : Runtime) (self : Engine.t)
        (payload : IngestionInput) :
  Bank.reachable rt self ->
  1 <= dense_dim (Engine.config self) ->
  numpy rt = None \/ (exists n, Bank.fixed_length (Engine.embedder self) n) ->
  exists rows,
    snd (Engine.ingest rt self payload) = Ok rows /\
    map question rows = Engine._normalize_input rt self payload.
Proof.
  intros Hr _ Hs.
  pose proof (SearchFacts.reachable_searchable rt self Hr Hs) as S.
  destruct (IngestFacts.ingest_loop_returns rt (Engine._normalize_input rt self payload)
              self [] S) as [rows [E _]].
  unfold Engine.ingest, Engine.ingest_normalized.
  destruct (Engine.ingest_loop rt self (Engine._normalize_input rt self payload) [])
    as [self' [out|e]] eqn:L; cbn [snd] in *; [|discriminate].
  exists out. split; [reflexivity|].
  exact (ReportFacts.ingest_loop_questions rt _ _ _ _ _ L).
Qed.

(** The theorem on a new engine and a batch of two rows. *)
Lemma ingest_reports_each_document_witness :
  exists rows,
    snd (Engine.ingest Examples.bare_runtime Examples.new_engine
           (Examples.batch [Examples.row_a; Examples.row_b])) = Ok rows /\
    map question rows
    = Engine._normalize_input Examples.bare_runtime Examples.new_engine
        (Examples.batch [Examples.row_a; Examples.row_b]).
Proof.
  apply (ingest_reports_each_document Examples.bare_runtime Examples.new_engine
           (Examples.batch [Examples.row_a; Examples.row_b])).
  - apply Bank.reach_init.
  - vm_compute. discriminate.
  - left. reflexivity.
Defined.

(** X20.  What the statuses of the output of [ingest] tell about the bank
    it leaves, on a reachable bank: the row of an exact duplicate names a
    qid of a stored document and has the score 1.0; the question of a near
    duplicate is stored, and its score is at or above the near-duplicate
    threshold; a new question is stored and has neither match nor score. *)
Theorem ingest_status_tells_storage (rt : Runtime) (self : Engine.t)
        (payload : IngestionInput) (rows : list IngestedQuestion)
        (row : IngestedQuestion) :
  Bank.reachable rt self ->
  snd (Engine.ingest rt self payload) = Ok rows ->
  In row rows ->
  Report.row_stored (near_duplicate_threshold (Engine.config self))
                    (Engine.docs (fst (Engine.ingest rt self payload))) row.
Proof.
  intros Hr. unfold Engine.ingest, Engine.ingest_normalized.
  destruct (Engine.ingest_loop rt self (Engine._normalize_input rt self payload) [])
    as [self' [out|e]] eqn:L; cbn [fst snd]; [|discriminate].
  intros E Hrow. injection E as <-.
  destruct (ReportFacts.ingest_loop_stored rt _ _ _ _ _
              (RegistryFacts.reachable_registry rt self Hr) L row Hrow) as [[]|H].
  exact H.
Qed.

(** The theorem on the batch of a row and its copy under another qid: the
    second row is an exact duplicate of the first. *)
Lemma ingest_status_tells_storage_witness :
  exists rows row,
    snd (Engine.ingest Examples.bare_runtime Examples.new_engine
           (Examples.batch [Examples.row_a; Examples.row_b])) = Ok rows /\
    In row rows /\
    status row = StatusExactDuplicate /\
    Report.row_stored
      (near_duplicate_threshold (Engine.config Examples.new_engine))
      (Engine.docs (fst (Engine.ingest Examples.bare_runtime Examples.new_engine
                           (Examples.batch [Examples.row_a; Examples.row_b]))))
      row.
Proof.
  eexists. eexists.
  split; [vm_compute; reflexivity|].
  split; [right; left; reflexivity|].
  split; [reflexivity|].
  eapply (ingest_status_tells_storage Examples.bare_runtime Examples.new_engine
            (Examples.batch [Examples.row_a; Examples.row_b])).
  - apply Bank.reach_init.
  - vm_compute. reflexivity.
  - right. left. reflexivity.
Defined.

(** ** The indexes of the engine *)

Module SyncFacts.
Import Engine Bank BankFacts IngestFacts OrderFacts RankFacts.

(** A loop of assignments under distinct new keys appends its rows. *)
Lemma fold_set_app {V X : Type} (key : X -> string) (val : X -> V) (l : list X) :
  forall d0 : dict V,
    NoDup (dict_keys d0 ++ map key l) ->
    fold_left (fun d x => dict_set (key x) (val x) d) l d0
    = (d0 ++ map (fun x => (key x, val x)) l)%list.
Proof.
  induction l as [|x l IH]; intros d0 H; cbn [fold_left map].
  - now rewrite app_nil_r.
  - cbn [map] in H.
    rewrite dict_set_fresh by (now apply NoDup_remove_2 in H; intros N; apply H, in_or_app; left).
    rewrite IH.
    + rewrite <- app_assoc. reflexivity.
    + unfold dict_keys in *. rewrite map_app. cbn [map fst].
      rewrite <- app_assoc. exact H.
Qed.

Lemma values_qids (self : Engine.t) :
  bank_ok self -> map qid (dict_values (docs self)) = dict_keys (docs self).
Proof.
  intros Hok. unfold dict_values, dict_keys. rewrite map_map.
  apply map_ext_in. intros [k d] Hin. cbn. exact (ok_doc_key self Hok k d Hin).
Qed.

Lemma keys_of_rows {V : Type} (f : QuestionDocument -> V) (self : Engine.t) :
  bank_ok self ->
  map (fun r : string * V => fst r) (map (fun d => (qid d, f d)) (dict_values (docs self)))
  = dict_keys (docs self).
Proof.
  intros Hok. rewrite map_map. cbn [fst]. exact (values_qids self Hok).
Qed.

Section WithRuntime.
Variable rt : Runtime.

Lemma rebuild_stem_index (self : Engine.t) :
  bank_ok self ->
  stem_index (_rebuild_indexes rt self)
  = map (fun d => (qid d, fst (vectors_of self (qid d)))) (dict_values (docs self)).
Proof.
  intros Hok. cbn [_rebuild_indexes stem_index]. unfold VectorIndex.upsert.
  rewrite (fold_set_app (fun r : string * list float => fst r) (fun r => snd r)).
  - cbn [app]. rewrite map_map. reflexivity.
  - change (NoDup (map (fun r : string * list float => fst r)
                       (map (fun d => (qid d, fst (vectors_of self (qid d))))
                            (dict_values (docs self))))).
    rewrite (keys_of_rows _ self Hok). exact (ok_keys self Hok).
Qed.

Lemma rebuild_bm25_docs (self : Engine.t) :
  bank_ok self ->
  BM25.docs (bm25 (_rebuild_indexes rt self))
  = map (fun d => (qid d, Utils.tokenize (sparse_text rt d))) (dict_values (docs self)).
Proof.
  intros Hok. cbn [_rebuild_indexes bm25 BM25.add_documents BM25._rebuild BM25.docs
                     BM25.empty].
  rewrite (fold_set_app (fun r : string * string => fst r)
                        (fun r => Utils.tokenize (snd r))).
  - cbn [app]. rewrite map_map. reflexivity.
  - change (NoDup (map (fun r : string * string => fst r)
                       (map (fun d => (qid d, sparse_text rt d))
                            (dict_values (docs self))))).
    rewrite (keys_of_rows _ self Hok). exact (ok_keys self Hok).
Qed.

Lemma in_values_key (self : Engine.t) (d : QuestionDocument) :
  bank_ok self -> In d (dict_values (docs self)) -> In (qid d) (dict_keys (docs self)).
Proof.
  intros Hok H. rewrite <- (values_qids self Hok). now apply in_map.
Qed.

End WithRuntime.
End SyncFacts.

(** X21.  After an [ingest] that returns, on a reachable bank, the indexes
    follow the documents: the stem index and the sparse index hold exactly
    the qids of [docs], in the same order, and the sparse index counts as
    many documents; every qid of the explanation index and every owner of
    an image is the qid of a stored document; the image index and the
    owner map have the same image ids. *)
Theorem indexes_follow_documents (rt : Runtime) (self : Engine.t)
        (payload : IngestionInput) (rows : list IngestedQuestion) :
  Bank.reachable rt self ->
  snd (Engine.ingest rt self payload) = Ok rows ->
  let self' := fst (Engine.ingest rt self payload) in
  dict_keys (Engine.stem_index self') = dict_keys (Engine.docs self') /\
  dict_keys (BM25.docs (Engine.bm25 self')) = dict_keys (Engine.docs self') /\
  BM25.total_docs (Engine.bm25 self') = Z.of_nat (List.length (Engine.docs self')) /\
  (forall k, In k (dict_keys (Engine.explanation_index self')) ->
             In k (dict_keys (Engine.docs self'))) /\
  (forall i k, dict_get i (Engine.image_owner self') = Some k ->
               In k (dict_keys (Engine.docs self'))) /\
  (forall i, In i (dict_keys (Engine.image_index self')) <->
             In i (dict_keys (Engine.image_owner self'))).
Proof.
  intros Hr E. cbv zeta.
  pose proof (BankFacts.reachable_ok rt _ (Bank.reach_ingest rt self payload Hr)) as Hok'.
  revert E Hok'. unfold Engine.ingest, Engine.ingest_normalized.
  pose proof (BankFacts.ingest_loop_ok rt (Engine._normalize_input rt self payload) self []
                (BankFacts.reachable_ok rt self Hr)
                (fun q => BankFacts.normalized_qid rt self payload q)) as Hok.
  destruct (Engine.ingest_loop rt self (Engine._normalize_input rt self payload) [])
    as [s [out|e]]; cbn [fst snd] in *; [|discriminate].
  intros _ _.
  split; [|split; [|split; [|split; [|split]]]].
  - rewrite (SyncFacts.rebuild_stem_index rt s Hok). cbn [Engine._rebuild_indexes Engine.docs].
    exact (SyncFacts.keys_of_rows _ s Hok).
  - rewrite (SyncFacts.rebuild_bm25_docs rt s Hok). cbn [Engine._rebuild_indexes Engine.docs].
    exact (SyncFacts.keys_of_rows _ s Hok).
  - pose proof (SyncFacts.rebuild_bm25_docs rt s Hok) as D.
    cbn [Engine._rebuild_indexes Engine.bm25 BM25.add_documents BM25._rebuild
           BM25.total_docs BM25.docs Engine.docs] in *.
    rewrite D. unfold dict_values. now rewrite !length_map.
  - intros k Hk. cbn [Engine._rebuild_indexes Engine.explanation_index Engine.docs] in *.
    unfold dict_keys in Hk. apply in_map_iff in Hk. destruct Hk as [[k' v] [<- Hin]].
    apply SearchFacts.upsert_in in Hin. destruct Hin as [Hin|[]].
    apply in_map_iff in Hin. destruct Hin as [d [Ed Hd]]. injection Ed as <- _.
    apply filter_In in Hd. destruct Hd as [Hd _]. cbn [fst].
    exact (SyncFacts.in_values_key s d Hok Hd).
  - cbn [Engine._rebuild_indexes Engine.image_owner Engine.docs].
    apply (RetrieveFacts.fold_left_ind
             (fun own => forall i k, dict_get i own = Some k ->
                                     In k (dict_keys (Engine.docs s)))).
    + intros i k G. discriminate.
    + intros own [d img] Hdi Hown i k. cbn [fst snd].
      destruct (String.eqb_spec (image_id img) i) as [<-|N].
      * rewrite DictFacts.get_set_same. intros G. injection G as <-.
        apply in_flat_map in Hdi. destruct Hdi as [d' [Hd' Hdi]].
        apply in_map_iff in Hdi. destruct Hdi as [img' [Ei _]]. injection Ei as -> _.
        exact (SyncFacts.in_values_key s d Hok Hd').
      * rewrite DictFacts.get_set_other by assumption. apply Hown.
  - intros i. cbn [Engine._rebuild_indexes Engine.image_index Engine.image_owner].
    unfold VectorIndex.upsert.
    rewrite (RankFacts.fold_set_keys
               (fun r : string * list float => fst r) (fun _ r => snd r)).
    rewrite (RankFacts.fold_set_keys
               (fun di : QuestionDocument * QuestionImage => image_id (snd di))
               (fun _ di => qid (fst di))).
    split; (intros [[]|[x [Hx Ex]]]; right).
    + apply in_map_iff in Hx. destruct Hx as [di [<- Hdi]]. now exists di.
    + exists (image_id (snd x), image_vector (snd x)). split; [|exact Ex].
      apply in_map_iff. now exists x.
Qed.

(** The theorem on the bank of the document with an image. *)
Lemma indexes_follow_documents_witness :
  let self' := Examples.bank_img in
  dict_keys (Engine.docs self') = ["a"] /\
  dict_keys (Engine.stem_index self') = dict_keys (Engine.docs self') /\
  dict_keys (BM25.docs (Engine.bm25 self')) = dict_keys (Engine.docs self') /\
  BM25.total_docs (Engine.bm25 self') = Z.of_nat (List.length (Engine.docs self')) /\
  (forall k, In k (dict_keys (Engine.explanation_index self')) ->
             In k (dict_keys (Engine.docs self'))) /\
  (forall i k, dict_get i (Engine.image_owner self') = Some k ->
               In k (dict_keys (Engine.docs self'))) /\
  (forall i, In i (dict_keys (Engine.image_index self')) <->
             In i (dict_keys (Engine.image_owner self'))).
Proof.
  split; [vm_compute; reflexivity|].
  eapply (indexes_follow_documents Examples.bare_runtime Examples.new_engine
            (Examples.batch [Examples.row_img])).
  - apply Bank.reach_init.
  - vm_compute. reflexivity.
Defined.

(** ** When [retrieve] returns *)

Module ExpFacts.
Import Engine Bank BankFacts IngestFacts SearchFacts Vectors.

Section WithRuntime.
Variable rt : Runtime.

Lemma store_exp_ok (n : nat) (self : Engine.t) (q : QuestionDocument) :
  fixed_length (embedder self) n -> exp_ok n self -> exp_ok n (_store_question self q).
Proof.
  intros Hf [Hv Hs]. constructor;
    cbn [_store_question docs vectors explanation_index]; [|exact Hs].
  intros k d H.
  destruct (String.eqb_spec (qid q) (qid d)) as [E|N].
  - rewrite E. rewrite DictFacts.get_set_same. eexists. split; [reflexivity|].
    cbn [snd]. destruct (explanation q) as [e|]; [|now left].
    destruct (Utils.nonempty e); [right; apply Hf|now left].
  - rewrite DictFacts.get_set_other by assumption.
    destruct (DictFacts.in_set _ _ _ _ _ H) as [E|E].
    + injection E as _ ->. contradiction.
    + exact (Hv k d E).
Qed.

Lemma ingest_step_exp_ok (n : nat) (self : Engine.t) (q : QuestionDocument) :
  fixed_length (embedder self) n -> exp_ok n self ->
  exp_ok n (fst (ingest_step rt self q)).
Proof.
  intros Hf Hv.
  destruct (ingest_step_cases rt self q) as [[m [_ [_ ->]]]|[_ [[e ->]|[row [-> _]]]]];
    cbn [fst]; try assumption.
  now apply store_exp_ok.
Qed.

Lemma ingest_loop_exp_ok (n : nat) (normalized : list QuestionDocument) :
  forall (self : Engine.t) (out : list IngestedQuestion),
    fixed_length (embedder self) n -> exp_ok n self ->
    exp_ok n (fst (ingest_loop rt self normalized out)).
Proof.
  induction normalized as [|q rest IH]; intros self out Hf Hv; cbn [ingest_loop].
  - exact Hv.
  - pose proof (ingest_step_exp_ok n self q Hf Hv) as S.
    pose proof (ingest_step_frame rt self q) as F. cbv zeta in F.
    destruct (ingest_step rt self q) as [self1 [row|e]]; cbn [fst] in *; [|exact S].
    apply IH; [|exact S]. destruct F as [_ [F _]]. now rewrite F.
Qed.

Lemma rebuild_exp_ok (n : nat) (self : Engine.t) :
  exp_ok n self -> exp_ok n (_rebuild_indexes rt self).
Proof.
  intros [Hv Hs]. constructor; cbn [_rebuild_indexes docs vectors explanation_index].
  - exact Hv.
  - intros k v H. apply upsert_in in H. destruct H as [H|[]].
    apply in_map_iff in H. destruct H as [d [E Hd]]. injection E as <- <-.
    apply filter_In in Hd. destruct Hd as [Hd Hne].
    unfold dict_values in Hd. apply in_map_iff in Hd.
    destruct Hd as [[k' d'] [E Hin]]. cbn in E. subst d'.
    destruct (Hv k' d Hin) as [v' [G L]]. unfold vectors_of in *. rewrite G in *.
    destruct L as [L|L]; [|exact L]. rewrite L in Hne. discriminate.
Qed.

Lemma ingest_exp_ok (n : nat) (self : Engine.t) (payload : IngestionInput) :
  fixed_length (embedder self) n -> exp_ok n self ->
  exp_ok n (fst (ingest rt self payload)).
Proof.
  intros Hf Hv. unfold ingest, ingest_normalized.
  pose proof (ingest_loop_exp_ok n (_normalize_input rt self payload) self [] Hf Hv) as L.
  destruct (ingest_loop rt self _ []) as [self' [out|e]]; cbn [fst] in *;
    [now apply rebuild_exp_ok|exact L].
Qed.

Lemma load_exp_ok (n : nat) (self : Engine.t) (file : option LocalStore.jsonl) :
  fixed_length (embedder self) n -> exp_ok n self ->
  exp_ok n (fst (load_local_bank rt self file)).
Proof.
  intros Hf Hv. unfold load_local_bank.
  destruct (Numeric.is_empty _); [exact Hv|].
  match goal with
  | |- context [ingest rt ?c ?p] =>
      assert (V : exp_ok n (fst (ingest rt c p)))
  end.
  { apply ingest_exp_ok; [exact Hf|].
    constructor; cbn [docs explanation_index]; [intros k d []|apply (ek_index _ _ Hv)]. }
  destruct (ingest rt _ _) as [self' [out|e]]; exact V.
Qed.

Lemma reachable_exp_ok (self : Engine.t) :
  reachable rt self -> forall n, fixed_length (embedder self) n -> exp_ok n self.
Proof.
  induction 1 as [cfg emb|self payload _ IH|self file _ IH]; intros n Hf.
  - constructor; cbn [Engine.init docs explanation_index]; [intros k d []|intros k v []].
  - rewrite ingest_embedder in Hf. apply ingest_exp_ok; auto.
  - rewrite load_embedder in Hf. apply load_exp_ok; auto.
Qed.

End WithRuntime.
End ExpFacts.

(** X22.  [retrieve] returns a response, and raises nothing, on every
    reachable bank and for every query, when the configured dimension,
    [dense_top_k] and [image_top_k] are at least 1, the configured [rrf_k]
    is not negative, and either NumPy is absent, or the embedder gives
    vectors of one length and the query has no image vector. *)
Theorem retrieve_returns (rt : Runtime) (self : Engine.t) (q : QueryInput) :
  Bank.reachable rt self ->
  numpy rt = None \/
  ((exists n, Bank.fixed_length (Engine.embedder self) n) /\ q_image_vector q = []) ->
  1 <= dense_dim (Engine.config self) ->
  0 <= rrf_k (Engine.config self) ->
  1 <= dense_top_k (Engine.config self) ->
  1 <= image_top_k (Engine.config self) ->
  exists resp, Engine.retrieve rt self q = Ok resp.
Proof.
  intros Hr H _ _ Hd Hi. unfold Engine.retrieve. cbv zeta.
  destruct (Numeric.is_empty (Engine._filter_qids self q)); [eauto|].
  assert (S : forall v, exists hits,
               VectorIndex.search rt (Engine.stem_index self) v
                                  (dense_top_k (Engine.config self)) = Ok hits).
  { intros v. destruct H as [H|[[n Hf] _]].
    - apply (SearchFacts.search_returns rt 0); [now left|exact Hd].
    - apply (SearchFacts.search_returns rt n); [|exact Hd]. right.
      apply (Bank.vk_stem n self). now apply (SearchFacts.reachable_vec_ok rt). }
  assert (X : forall v, exists hits,
               VectorIndex.search rt (Engine.explanation_index self) v
                                  (dense_top_k (Engine.config self)) = Ok hits).
  { intros v. destruct H as [H|[[n Hf] _]].
    - apply (SearchFacts.search_returns rt 0); [now left|exact Hd].
    - apply (SearchFacts.search_returns rt n); [|exact Hd]. right.
      apply (Vectors.ek_index n self). now apply (ExpFacts.reachable_exp_ok rt). }
  assert (D : exists dense_hits,
             Scoring.score_dense rt (Engine.stem_index self) (Engine.explanation_index self)
               (if Utils.nonempty (Engine._resolve_query_text self q)
                then Engine.embedder self (Engine._resolve_query_text self q) else [])
               (dense_top_k (Engine.config self)) (Engine._filter_qids self q)
             = Ok dense_hits).
  { unfold Scoring.score_dense. destruct (Numeric.is_empty _); [eauto|].
    destruct (S (if Utils.nonempty (Engine._resolve_query_text self q)
                 then Engine.embedder self (Engine._resolve_query_text self q) else []))
      as [stem ->].
    destruct (X (if Utils.nonempty (Engine._resolve_query_text self q)
                 then Engine.embedder self (Engine._resolve_query_text self q) else []))
      as [exp ->].
    cbn [bind]. eauto. }
  destruct D as [dense_hits ->]. cbn [bind].
  assert (I : exists image_hits,
             Scoring.score_image rt (Engine.image_index self) (Engine.image_owner self)
               (q_image_vector q) (image_top_k (Engine.config self))
               (Engine._filter_qids self q) = Ok image_hits).
  { unfold Scoring.score_image. destruct H as [H|[_ H]].
    - destruct (Numeric.is_empty _); [eauto|].
      destruct (SearchFacts.search_returns rt 0 (Engine.image_index self)
                  (q_image_vector q) (image_top_k (Engine.config self))
                  (or_introl H) Hi) as [raw ->].
      cbn [bind]. eauto.
    - rewrite H. cbn. eauto. }
  destruct I as [image_hits ->]. cbn [bind]. eauto.
Qed.

(** The theorem on the bank of the document with an image and the image
    query, without NumPy. *)
Lemma retrieve_returns_witness :
  exists resp,
    Engine.retrieve Examples.bare_runtime Examples.bank_img
                    (Examples.image_query (VDict [])) = Ok resp.
Proof.
  apply (retrieve_returns Examples.bare_runtime Examples.bank_img
           (Examples.image_query (VDict []))).
  - apply Bank.reach_ingest, Bank.reach_init.
  - left. reflexivity.
  - vm_compute. discriminate.
  - vm_compute. discriminate.
  - vm_compute. discriminate.
  - vm_compute. discriminate.
Defined.

(** ** The results of [retrieve] *)

Module ResultFacts.
Import Engine Bank OrderFacts RankFacts.

Lemma rerank_row_shape (self : Engine.t) (query_text : string)
      (bm25_map dense_map image_map : dict float) (cand : Hit) (row : RerankedRow) :
  bank_ok self ->
  In row (rerank_row self query_text bm25_map dense_map image_map cand) ->
  rerank_row self query_text bm25_map dense_map image_map cand = [row] /\
  rr_qid row = hit_qid cand /\
  PrimFloat.leb 0%float (rr_rerank_score row) = true /\
  PrimFloat.leb (rr_rerank_score row) 1%float = true.
Proof.
  intros Hok. unfold rerank_row.
  destruct (dict_get (hit_qid cand) (docs self)) as [doc|] eqn:G; [|intros []].
  intros [<-|[]]. cbn [rr_qid rr_rerank_score].
  split; [reflexivity|]. split.
  - exact (ok_doc_key self Hok _ _ (DictFacts.get_in _ _ G)).
  - apply FloatFacts.rerank_pair_score_bounds.
Qed.

Lemma rerank_row_length (self : Engine.t) (query_text : string)
      (bm25_map dense_map image_map : dict float) (cand : Hit) :
  (List.length (rerank_row self query_text bm25_map dense_map image_map cand) <= 1)%nat.
Proof.
  unfold rerank_row. destruct (dict_get (hit_qid cand) (docs self)); cbn; lia.
Qed.

End ResultFacts.

(** X23.  The results of [retrieve] on a reachable bank: no qid comes
    twice; every rerank score is a number between 0 and 1 and the duplicate
    class is the class of that score; the results are in non-increasing
    order of rerank score; there are as many as [finalResults] counts, not
    more than the reranked candidates, which are not more than the fused
    candidates; and there are at most [top_n] of them when [top_n] (of the
    query, or else of the configuration) is not negative. *)
Theorem retrieve_results_ranked (rt : Runtime) (self : Engine.t) (q : QueryInput)
        (resp : RetrievalResponse) :
  Bank.reachable rt self ->
  Engine.retrieve rt self q = Ok resp ->
  NoDup (map r_qid (results resp)) /\
  (forall r, In r (results resp) ->
             PrimFloat.leb 0%float (rerank_score r) = true /\
             PrimFloat.leb (rerank_score r) 1%float = true /\
             duplicate_class r = Engine._classify self (rerank_score r)) /\
  Ranking.ranked (results resp) /\
  (finalResults (counts resp) = List.length (results resp) /\
   (finalResults (counts resp) <= rerankedCandidates (counts resp))%nat /\
   (rerankedCandidates (counts resp) <= fusedCandidates (counts resp))%nat) /\
  (0 <= Engine.or_config (top_n q) (final_top_n (Engine.config self)) ->
   Z.of_nat (List.length (results resp))
   <= Engine.or_config (top_n q) (final_top_n (Engine.config self))).
Proof.
  intros Hr. pose proof (BankFacts.reachable_ok rt self Hr) as Hok.
  unfold Engine.retrieve. cbv zeta.
  destruct (Numeric.is_empty (Engine._filter_qids self q)).
  { intros E. injection E as <-.
    cbn [results counts finalResults rerankedCandidates fusedCandidates map List.length].
    split; [constructor|]. split; [intros r []|]. split; [constructor|].
    split; [repeat split; lia|]. intros H. lia. }
  destruct (Scoring.score_dense _ _ _ _ _ _) as [dense_hits|e]; cbn [bind];
    [|discriminate].
  destruct (Scoring.score_image _ _ _ _ _ _) as [image_hits|e]; cbn [bind];
    [|discriminate].
  intros E. injection E as <-. cbn [results counts finalResults rerankedCandidates
                                      fusedCandidates].
  match goal with
  | |- context [flat_map ?f0 (slice_to ?m ?fu)] =>
      set (f := f0); set (fused := fu); set (cands := slice_to m fused)
  end.
  set (key := fun a : Engine.RerankedRow => Engine.rr_rerank_score a).
  match goal with
  | |- context [Sorting.sort_desc ?lt0 (flat_map f cands)] =>
      set (sorted := Sorting.sort_desc lt0 (flat_map f cands))
  end.
  match goal with
  | |- context [map (Engine.result_of_row self) ?t] => set (top := t)
  end.
  assert (Nf : NoDup (map hit_qid cands)).
  { unfold cands. rewrite OrderFacts.map_slice. apply OrderFacts.nodup_slice.
    apply RankFacts.fused_shape. }
  assert (Sh : forall cand row, In row (f cand) ->
                                f cand = [row] /\ Engine.rr_qid row = hit_qid cand /\
                                PrimFloat.leb 0%float (Engine.rr_rerank_score row) = true /\
                                PrimFloat.leb (Engine.rr_rerank_score row) 1%float = true).
  { intros cand row. apply ResultFacts.rerank_row_shape. exact Hok. }
  assert (P : Permutation sorted (flat_map f cands)) by apply OrderFacts.sort_desc_perm.
  assert (B : forall row, In row sorted ->
                          PrimFloat.leb 0%float (Engine.rr_rerank_score row) = true /\
                          PrimFloat.leb (Engine.rr_rerank_score row) 1%float = true).
  { intros row Hrow. apply (Permutation_in _ P) in Hrow.
    apply in_flat_map in Hrow. destruct Hrow as [cand [_ Hrow]].
    destruct (Sh cand row Hrow) as [_ [_ B]]. exact B. }
  assert (Q : map r_qid (map (Engine.result_of_row self) top) = map Engine.rr_qid top).
  { rewrite map_map. reflexivity. }
  split; [|split; [|split; [|split]]].
  - rewrite Q. unfold top. rewrite OrderFacts.map_slice. apply OrderFacts.nodup_slice.
    apply (Permutation_NoDup (Permutation_sym (Permutation_map Engine.rr_qid P))).
    apply (RankFacts.flat_map_nodup f Engine.rr_qid hit_qid); [exact Nf|].
    intros cand row Hrow. destruct (Sh cand row Hrow) as [E1 [E2 _]]. auto.
  - intros r Hr'. apply in_map_iff in Hr'. destruct Hr' as [row [<- Hrow]].
    apply HeapFacts.slice_to_in in Hrow. cbn [Engine.result_of_row rerank_score duplicate_class].
    destruct (B row Hrow) as [B0 B1]. auto.
  - unfold Ranking.ranked.
    apply (OrderFacts.strongly_sorted_map
             (fun a b => PrimFloat.leb (rerank_score b) (rerank_score a) = true)
             (Engine.result_of_row self)).
    cbn [Engine.result_of_row rerank_score].
    apply OrderFacts.strongly_sorted_slice.
    apply (RankFacts.sort_desc_descending key). apply Forall_forall.
    intros row Hrow. apply (FloatFacts.leb_not_nan 0%float).
    apply (Permutation_in _ (Permutation_sym P)) in Hrow. now destruct (B row Hrow).
  - rewrite !length_map. split; [reflexivity|]. split.
    + apply OrderFacts.slice_length.
    + unfold sorted. rewrite HeapFacts.sort_desc_length.
      pose proof (RankFacts.flat_map_length f cands
                    (ResultFacts.rerank_row_length self _ _ _ _)) as L1.
      pose proof (proj1 (OrderFacts.slice_length
                           (Engine.or_config (top_m q) (rerank_top_m (Engine.config self)))
                           fused)) as L2.
      fold cands in L2. lia.
  - intros Hn. rewrite length_map. now apply OrderFacts.slice_length.
Qed.

(** The theorem on the bank of the document with an image. *)
Lemma retrieve_results_ranked_witness :
  exists resp,
    Engine.retrieve Examples.bare_runtime Examples.bank_img
                    (Examples.image_query (VDict [])) = Ok resp /\
    map r_qid (results resp) = ["a"] /\
    NoDup (map r_qid (results resp)) /\
    (forall r, In r (results resp) ->
               PrimFloat.leb 0%float (rerank_score r) = true /\
               PrimFloat.leb (rerank_score r) 1%float = true /\
               duplicate_class r = Engine._classify Examples.bank_img (rerank_score r)) /\
    Ranking.ranked (results resp) /\
    (finalResults (counts resp) = List.length (results resp) /\
     (finalResults (counts resp) <= rerankedCandidates (counts resp))%nat /\
     (rerankedCandidates (counts resp) <= fusedCandidates (counts resp))%nat) /\
    (0 <= Engine.or_config (top_n (Examples.image_query (VDict [])))
                           (final_top_n (Engine.config Examples.bank_img)) ->
     Z.of_nat (List.length (results resp))
     <= Engine.or_config (top_n (Examples.image_query (VDict [])))
                         (final_top_n (Engine.config Examples.bank_img))).
Proof.
  eexists. split; [vm_compute; reflexivity|]. split; [reflexivity|].
  eapply (retrieve_results_ranked Examples.bare_runtime Examples.bank_img
            (Examples.image_query (VDict []))).
  - apply Bank.reach_ingest, Bank.reach_init.
  - vm_compute. reflexivity.
Defined.

(** ** The filter *)

Module FilterFacts.
Import Engine.

(** The six tests of the loop, read on the filter and on the metadata. *)
Lemma passes_filters_complete (f md : pyval) :
  (forall key,
      In key ["subject"; "gradeLevel"; "difficulty"; "questionType"; "examBoard"] ->
      truthy (get key f) = true -> py_eqb (get key md) (get key f) = true) ->
  (is_none (get "year" f) = false -> py_eqb (get "year" md) (get "year" f) = true) ->
  passes_filters f md = true.
Proof.
  intros H5 Hy. unfold passes_filters, py_neb.
  assert (T : forall key,
             In key ["subject"; "gradeLevel"; "difficulty"; "questionType"; "examBoard"] ->
             truthy (get key f) && negb (py_eqb (get key md) (get key f)) = false).
  { intros key Hk. destruct (truthy (get key f)) eqn:E; [|reflexivity].
    now rewrite (H5 key Hk E). }
  rewrite (T "subject") by (cbn; auto).
  rewrite (T "gradeLevel") by (cbn; auto).
  rewrite (T "difficulty") by (cbn; auto).
  rewrite (T "questionType") by (cbn; auto).
  rewrite (T "examBoard") by (cbn; auto 6).
  destruct (is_none (get "year" f)) eqn:E; [reflexivity|].
  now rewrite (Hy eq_refl).
Qed.

Lemma filter_qids_complete (self : Engine.t) (q : QueryInput) (d : QuestionDocument) :
  In d (dict_values (docs self)) ->
  passes_filters (py_or (filters q) (VDict [])) (py_or (VDict (metadata d)) (VDict []))
  = true ->
  In (qid d) (_filter_qids self q).
Proof.
  unfold _filter_qids. cbv zeta. generalize (@nil string).
  induction (dict_values (docs self)) as [|d0 l IH]; intros s Hd P; cbn [fold_left];
    [destruct Hd|].
  destruct Hd as [<-|Hd].
  - rewrite P.
    apply (RetrieveFacts.fold_left_ind (fun s => In (qid d0) s)).
    + apply OrderFacts.set_add_adds.
    + intros s' d' _ Hs'.
      destruct (passes_filters _ (py_or (VDict (metadata d')) (VDict []))); [|exact Hs'].
      now apply OrderFacts.set_add_keeps.
  - now apply IH.
Qed.

Lemma filter_qids_nodup (self : Engine.t) (q : QueryInput) : NoDup (_filter_qids self q).
Proof.
  unfold _filter_qids. cbv zeta.
  apply (RetrieveFacts.fold_left_ind (fun s => NoDup s)); [constructor|].
  intros s d _ Hs. destruct (passes_filters _ _); [|exact Hs].
  now apply OrderFacts.set_add_nodup.
Qed.

End FilterFacts.

(** X24.  [_filter_qids] selects exactly the stored documents that satisfy
    every filter that applies: a qid is selected if and only if it is the
    qid of a stored document whose metadata equals, under [==], every
    filter among [subject], [gradeLevel], [difficulty], [questionType] and
    [examBoard] whose value is truthy, and the [year] filter when it is not
    null.  No qid is selected twice. *)
Theorem filter_qids_exact (self : Engine.t) (q : QueryInput) (k : string) :
  (In k (Engine._filter_qids self q) <->
   exists d,
     In d (dict_values (Engine.docs self)) /\ qid d = k /\
     (forall key,
         In key ["subject"; "gradeLevel"; "difficulty"; "questionType"; "examBoard"] ->
         truthy (get key (filters q)) = true ->
         py_eqb (get key (VDict (metadata d))) (get key (filters q)) = true) /\
     (is_none (get "year" (filters q)) = false ->
      py_eqb (get "year" (VDict (metadata d))) (get "year" (filters q)) = true)) /\
  NoDup (Engine._filter_qids self q).
Proof.
  split; [|apply FilterFacts.filter_qids_nodup]. split.
  - intros H. destruct (RetrieveFacts.filter_qids_sound self q k H) as [d [Hd [Hq P]]].
    exists d. split; [exact Hd|]. split; [exact Hq|].
    apply RetrieveFacts.passes_filters_sound in P. destruct P as [P5 Py]. split.
    + intros key Hk T. specialize (P5 key Hk).
      rewrite !RetrieveFacts.get_py_or_empty in P5. now apply P5.
    + intros N. rewrite !RetrieveFacts.get_py_or_empty in Py. now apply Py.
  - intros [d [Hd [<- [P5 Py]]]]. apply FilterFacts.filter_qids_complete; [exact Hd|].
    apply FilterFacts.passes_filters_complete.
    + intros key Hk. rewrite !RetrieveFacts.get_py_or_empty. now apply P5.
    + rewrite !RetrieveFacts.get_py_or_empty. exact Py.
Qed.

(** A query without filters selects every stored document. *)
Example no_filter_selects_all :
  Engine._filter_qids
    (fst (Engine.ingest Examples.bare_runtime Examples.new_engine
            (Examples.batch [Examples.row_a; Examples.row_a_again; Examples.row_other_answer])))
    (Examples.image_query VNone)
  = ["a"; "n"].
Proof. vm_compute. reflexivity. Qed.

(** ** Saving and loading *)

Module StoreFacts.
Import Utils Text TextFacts Engine Persist.

Lemma strip_idempotent (s : string) : strip (strip s) = strip s.
Proof.
  change (strip s) with (str (strip_chars (chars s))).
  rewrite strip_str. f_equal.
  destruct (strip_chars_split (chars s)) as [pre [post [_ [_ [_ [N1 N2]]]]]].
  now apply strip_chars_id.
Qed.

Lemma space_upper_char (c : ascii) : is_space (upper_char c) = is_space c.
Proof. by_cases c. Qed.

Lemma upper_upper_char (c : ascii) : upper_char (upper_char c) = upper_char c.
Proof. by_cases c. Qed.

Lemma lstrip_upper (cs : list ascii) :
  lstrip_chars (map upper_char cs) = map upper_char (lstrip_chars cs).
Proof.
  induction cs as [|c cs IH]; [reflexivity|]. cbn [map lstrip_chars].
  rewrite space_upper_char. destruct (is_space c); [exact IH|reflexivity].
Qed.

Lemma strip_upper (s : string) : strip (upper s) = upper (strip s).
Proof.
  unfold strip, upper. rewrite !chars_str. f_equal.
  now rewrite lstrip_upper, <- map_rev, lstrip_upper, <- map_rev.
Qed.

Lemma upper_idempotent (s : string) : upper (upper s) = upper s.
Proof.
  unfold upper. rewrite chars_str, map_map. f_equal.
  apply map_ext. apply upper_upper_char.
Qed.

Lemma upper_strip_idempotent (s : string) :
  upper (strip (upper (strip s))) = upper (strip s).
Proof. now rewrite strip_upper, strip_idempotent, upper_idempotent. Qed.

Lemma nonempty_or_none_some (s a : string) :
  nonempty_or_none s = Some a -> s = a /\ nonempty a = true.
Proof.
  unfold nonempty_or_none. destruct (nonempty s) eqn:E; [|discriminate].
  intros H. injection H as <-. auto.
Qed.

Section WithRuntime.
Variable rt : Runtime.

Lemma normalize_options_normal (opts : pyval) (o : string) :
  In o (_normalize_options rt opts) -> strip o = o /\ nonempty o = true.
Proof.
  assert (G : forall (A : Type) (l : list A) (f : A -> string) (p : A -> bool),
             In o (flat_map (fun x => if p x && nonempty (strip (f x))
                                      then [strip (f x)] else []) l) ->
             strip o = o /\ nonempty o = true).
  { intros A l f p H. apply in_flat_map in H. destruct H as [x [_ H]].
    destruct (p x); cbn [andb] in H; [|destruct H].
    destruct (nonempty (strip (f x))) eqn:E; [|destruct H].
    destruct H as [<-|[]]. split; [apply strip_idempotent|exact E]. }
  unfold _normalize_options. destruct opts as [| | | | |xs|kvs]; try (intros []).
  - intros H. apply (G pyval xs (py_str rt) (fun _ => true)). exact H.
  - intros H.
    apply (G string ["A"; "B"; "C"; "D"] (fun k => py_str rt (get k (VDict kvs)))
             (fun k => has_key k (VDict kvs))). exact H.
Qed.

(** The document of a question row is in normal form. *)
Lemma document_of_row_normal (emb : Embedder) (i : Z) (row : pyval) :
  normal (document_of_row rt emb i row).
Proof.
  constructor.
  - apply BankFacts.document_of_row_qid.
  - cbn [document_of_row stem]. unfold _resolve_stem. apply strip_idempotent.
  - cbn [document_of_row options]. apply normalize_options_normal.
  - cbn [document_of_row answer]. unfold _normalize_answer. intros a.
    destruct (is_none (get "answer" row)); [discriminate|].
    intros H. apply nonempty_or_none_some in H. destruct H as [<- N].
    split; [apply upper_strip_idempotent|exact N].
  - cbn [document_of_row explanation]. unfold _resolve_explanation. cbv zeta. intros e.
    destruct (is_none (if is_none (get "explanation" row)
                       then get "explanation_md" row else get "explanation" row));
      [discriminate|].
    intros H. apply nonempty_or_none_some in H. destruct H as [<- N].
    split; [apply strip_idempotent|exact N].
  - reflexivity.
Qed.

Lemma strip_nonempty_fixed (s : string) :
  strip s = s -> strip (py_str rt (py_or (VStr s) (py_or VNone (VStr "")))) = s.
Proof.
  intros H. unfold py_or. cbn [truthy]. destruct (nonempty s) eqn:E; cbn [py_str].
  - exact H.
  - unfold nonempty in E. apply negb_false_iff in E. apply String.eqb_eq in E.
    subst s. reflexivity.
Qed.

Lemma reload_options (opts : list string) :
  (forall o, In o opts -> strip o = o /\ nonempty o = true) ->
  _normalize_options rt (VList (map VStr opts)) = opts.
Proof.
  intros H. cbn [_normalize_options].
  induction opts as [|o opts IH]; [reflexivity|]. cbn [map flat_map py_str].
  destruct (H o (or_introl eq_refl)) as [S N]. rewrite S, N. cbn [app]. f_equal.
  apply IH. intros o' Ho'. apply H. now right.
Qed.

(** A saved line read back as a question row gives the document again,
    apart from its images. *)
Lemma reload_normal (emb : Embedder) (j : Z) (d : QuestionDocument) :
  normal d -> source d = VNone ->
  kept (document_of_row rt emb j (LocalStore.asdict d)) = kept d.
Proof.
  intros [Nq Ns No Na Ne Nf] Hsrc.
  assert (Eq : qid (document_of_row rt emb j (LocalStore.asdict d)) = qid d).
  { cbn. now rewrite Nq. }
  assert (Es : stem (document_of_row rt emb j (LocalStore.asdict d)) = stem d).
  { cbn [document_of_row stem]. unfold _resolve_stem.
    change (get "stem" (LocalStore.asdict d)) with (VStr (stem d)).
    change (get "stem_md" (LocalStore.asdict d)) with VNone.
    now apply strip_nonempty_fixed. }
  assert (Eo : options (document_of_row rt emb j (LocalStore.asdict d)) = options d).
  { cbn [document_of_row options].
    change (get "options" (LocalStore.asdict d)) with (VList (map VStr (options d))).
    now apply reload_options. }
  assert (Ea : answer (document_of_row rt emb j (LocalStore.asdict d)) = answer d).
  { cbn [document_of_row answer].
    change (get "answer" (LocalStore.asdict d)) with (opt_str (answer d)).
    unfold _normalize_answer. destruct (answer d) as [a|] eqn:A; [|reflexivity].
    cbn [opt_str is_none py_str]. destruct (Na a eq_refl) as [U N].
    unfold nonempty_or_none. now rewrite U, N. }
  assert (Ee : explanation (document_of_row rt emb j (LocalStore.asdict d))
               = explanation d).
  { cbn [document_of_row explanation]. unfold _resolve_explanation. cbv zeta.
    change (get "explanation" (LocalStore.asdict d)) with (opt_str (explanation d)).
    change (get "explanation_md" (LocalStore.asdict d)) with VNone.
    destruct (explanation d) as [e|] eqn:X; [|reflexivity].
    cbn [opt_str is_none py_str]. destruct (Ne e eq_refl) as [S N].
    unfold nonempty_or_none. now rewrite S, N. }
  assert (Et : tags (document_of_row rt emb j (LocalStore.asdict d)) = tags d).
  { cbn [document_of_row tags].
    change (get "tags" (LocalStore.asdict d)) with (VList (tags d)).
    destruct (tags d); reflexivity. }
  assert (Em : metadata (document_of_row rt emb j (LocalStore.asdict d)) = metadata d).
  { cbn [document_of_row metadata]. unfold _normalize_metadata.
    change (get "metadata" (LocalStore.asdict d)) with (VDict (metadata d)).
    change (get "id" (LocalStore.asdict d)) with VNone.
    change (get "skillIds" (LocalStore.asdict d)) with VNone.
    cbn [fold_left].
    change (get "area" (LocalStore.asdict d)) with VNone.
    change (get "subject" (LocalStore.asdict d)) with VNone.
    change (get "topic" (LocalStore.asdict d)) with VNone.
    change (get "difficulty" (LocalStore.asdict d)) with VNone.
    unfold promote. cbn [is_none negb andb].
    destruct (metadata d); reflexivity. }
  assert (Ef : fingerprints (document_of_row rt emb j (LocalStore.asdict d))
               = fingerprints d).
  { rewrite Nf. cbn [document_of_row fingerprints].
    cbn [document_of_row stem options answer] in Es, Eo, Ea.
    now rewrite Es, Eo, Ea. }
  unfold kept. rewrite Eq, Es, Eo, Ea, Ee, Et, Em, Ef, Hsrc. reflexivity.
Qed.

End WithRuntime.
End StoreFacts.

(** X25.  A saved line gives the document back.  The document of a
    question row, written by [save_questions_jsonl] as a line and read
    again as a question row, is the same document in its qid, stem,
    options, answer, explanation, tags, metadata, fingerprints and source;
    only the images are read differently. *)
Theorem saved_line_reloads_to_same_document (rt : Runtime) (emb emb' : Embedder)
        (i j : Z) (row : pyval) :
  let d := Engine.document_of_row rt emb i row in
  Persist.kept (Engine.document_of_row rt emb' j (LocalStore.asdict d)) = Persist.kept d.
Proof.
  cbv zeta. apply StoreFacts.reload_normal; [|reflexivity].
  apply StoreFacts.document_of_row_normal.
Qed.

(** X26.  The form of a normalised question.  In the document of every
    question row the stem has no surrounding whitespace; every option is
    non-empty and has none; the answer, when there is one, is non-empty,
    upper-cased and has none; the explanation, when there is one, is
    non-empty and has none; the qid is not empty; and the fingerprints are
    the hashes of that stem, those options and that answer. *)
Theorem normalized_question_form (rt : Runtime) (emb : Embedder) (i : Z) (row : pyval) :
  Persist.normal (Engine.document_of_row rt emb i row).
Proof. apply StoreFacts.document_of_row_normal. Qed.

Module ReloadFacts.
Import Engine Bank BankFacts IngestFacts OrderFacts Persist.

Section WithRuntime.
Variable rt : Runtime.

(** Documents with distinct qids and distinct exact hashes that the bank
    does not know are all stored, in their order. *)
Lemma loop_stores_all (normalized : list QuestionDocument) :
  forall (self : Engine.t) (out : list IngestedQuestion),
    searchable rt self ->
    NoDup (map qid normalized) ->
    NoDup (map (fun d => exact_hash (fingerprints d)) normalized) ->
    (forall d, In d normalized ->
               dict_get (exact_hash (fingerprints d)) (exact_hash_map self) = None /\
               ~ In (qid d) (dict_keys (docs self))) ->
    exists rows,
      snd (ingest_loop rt self normalized out) = Ok rows /\
      docs (fst (ingest_loop rt self normalized out))
      = (docs self ++ map (fun d => (qid d, d)) normalized)%list.
Proof.
  induction normalized as [|q rest IH]; intros self out Hs Nq Nh Hfresh;
    cbn [ingest_loop map].
  - exists out. cbn. now rewrite app_nil_r.
  - cbn [map] in Nq, Nh.
    inversion Nq as [|? ? Hq Nq']; subst. inversion Nh as [|? ? Hh Nh']; subst.
    destruct (Hfresh q (or_introl eq_refl)) as [Hnone Hkey].
    assert (S : exists row, ingest_step rt self q = (_store_question self q, Ok row)).
    { destruct (ingest_step_cases rt self q) as [[m [Gm _]]|[_ [[e He]|[row [He _]]]]].
      - congruence.
      - destruct (ingest_step_returns rt self q Hs) as [row Hrow].
        rewrite He in Hrow. discriminate.
      - eauto. }
    destruct S as [row ->].
    destruct (IH (_store_question self q) (out ++ [row])%list) as [rows [E D]].
    + apply (searchable_frame rt self); auto.
    + exact Nq'.
    + exact Nh'.
    + intros d Hd. destruct (Hfresh d (or_intror Hd)) as [Hn Hk].
      cbn [_store_question exact_hash_map docs]. split.
      * rewrite DictFacts.get_set_other; [exact Hn|].
        intros Eh. apply Hh. rewrite Eh.
        apply (in_map (fun d => exact_hash (fingerprints d))). exact Hd.
      * rewrite keys_set. intros [Ek|Hin]; [|contradiction].
        apply Hq. rewrite <- Ek. now apply in_map.
    + exists rows. split; [exact E|]. rewrite D.
      cbn [_store_question docs]. rewrite dict_set_fresh by exact Hkey.
      now rewrite <- app_assoc.
Qed.

(** The exact hashes of the stored documents are distinct. *)
Lemma stored_hashes_nodup (self : Engine.t) :
  bank_ok self ->
  NoDup (map (fun d => exact_hash (fingerprints d)) (dict_values (docs self))).
Proof.
  intros [Hn _ Hh _]. revert Hn Hh. unfold dict_values, dict_keys.
  generalize (exact_hash_map self). induction (docs self) as [|[k d] l IH];
    intros m Hn Hh; cbn [map]; [constructor|].
  cbn [map fst] in Hn. inversion Hn as [|? ? Hk' Hn']; subst.
  constructor.
  - intros Hin. apply in_map_iff in Hin. destruct Hin as [d' [E Hd']].
    apply in_map_iff in Hd'. destruct Hd' as [[k' d''] [E' Hin]]. cbn in E'. subst d''.
    pose proof (Hh k d (or_introl eq_refl)) as G1.
    pose proof (Hh k' d' (or_intror Hin)) as G2.
    cbn [snd] in E. rewrite E, G1 in G2. injection G2 as ->.
    apply Hk'. apply in_map_iff. now exists (k', d').
  - apply (IH m Hn'). intros k' d' Hin. apply Hh. now right.
Qed.

End WithRuntime.

Lemma kept_qids (l1 : list QuestionDocument) :
  forall l2,
    map kept l1 = map kept l2 ->
    map qid l1 = map qid l2 /\
    map (fun d => exact_hash (fingerprints d)) l1
    = map (fun d => exact_hash (fingerprints d)) l2.
Proof.
  induction l1 as [|a l1 IH]; intros [|b l2]; cbn [map]; try discriminate; [auto|].
  intros H. unfold kept at 1 3 in H. inversion H as [[Eq Es Eo Ea Ee Et Em Ef Ec Hl]].
  destruct (IH _ Hl) as [A B]. split; f_equal; auto; congruence.
Qed.

End ReloadFacts.

(** X27.  Saving and loading keeps the documents.  Take a reachable bank
    that is not empty and whose documents all came from question rows, and
    save it.  An engine with a configured dimension of at least 1 and whose
    vector searches return (a reachable engine without NumPy, or with an
    embedder of fixed length) that loads the file returns the number of
    documents of the bank and then holds the same documents in the same
    order, equal in qid, stem, options, answer, explanation, tags,
    metadata, fingerprints and source. *)
Theorem reload_keeps_documents (rt : Runtime) (self other : Engine.t) :
  Bank.reachable rt self ->
  Engine.docs self <> [] ->
  (forall k d, In (k, d) (Engine.docs self) ->
               exists emb i row, d = Engine.document_of_row rt emb i row) ->
  Bank.reachable rt other ->
  1 <= dense_dim (Engine.config other) ->
  numpy rt = None \/ (exists n, Bank.fixed_length (Engine.embedder other) n) ->
  let file := snd (Engine.save_local_bank self) in
  let loaded := Engine.load_local_bank rt other (Some file) in
  fst (Engine.save_local_bank self) = Z.of_nat (List.length (Engine.docs self)) /\
  snd loaded = Ok (Z.of_nat (List.length (Engine.docs self))) /\
  dict_keys (Engine.docs (fst loaded)) = dict_keys (Engine.docs self) /\
  map Persist.kept (dict_values (Engine.docs (fst loaded)))
  = map Persist.kept (dict_values (Engine.docs self)).
Proof.
  intros Hr Hne Hrows Hro _ Hs. cbv zeta.
  pose proof (BankFacts.reachable_ok rt self Hr) as Hok.
  pose proof (SearchFacts.reachable_searchable rt other Hro Hs) as Hsearch.
  unfold Engine.save_local_bank, LocalStore.save_questions_jsonl. cbn [fst snd].
  split; [unfold dict_values; now rewrite length_map|].
  unfold Engine.load_local_bank. cbn [LocalStore.load_questions_jsonl].
  set (ds := dict_values (Engine.docs self)).
  assert (Nds : ds <> []).
  { unfold ds, dict_values. destruct (Engine.docs self); [congruence|discriminate]. }
  destruct (map LocalStore.asdict ds) as [|l0 ls] eqn:Erows.
  { destruct ds; [congruence|discriminate]. }
  cbn [Numeric.is_empty]. rewrite <- Erows. clear Erows l0 ls.
  match goal with
  | |- context [Engine.ingest rt ?c ?p] => set (cleared := c); set (payload := p)
  end.
  set (normalized := Engine._normalize_input rt cleared payload).
  assert (K : map Persist.kept normalized = map Persist.kept ds).
  { unfold normalized, Engine._normalize_input, payload. cbn [questions files flat_map].
    rewrite app_nil_r. unfold Fusion.enumerate.
    assert (G : forall (l : list QuestionDocument) (idx : list Z),
               List.length idx = List.length l ->
               (forall d, In d l -> Persist.normal d /\ source d = VNone) ->
               map Persist.kept
                   (map (fun ir => Engine.document_of_row rt (Engine.embedder cleared)
                                     (fst ir) (snd ir))
                        (combine idx (map LocalStore.asdict l)))
               = map Persist.kept l).
    { induction l as [|d l IH]; intros [|i idx] L H; cbn in L; try discriminate;
        [reflexivity|].
      cbn [map combine fst snd]. destruct (H d (or_introl eq_refl)) as [Hn Hsrc].
      rewrite (StoreFacts.reload_normal rt _ i d Hn Hsrc). f_equal.
      apply IH; [now injection L|]. intros d' Hd'. apply H. now right. }
    apply G.
    - now rewrite length_map, length_seq, length_map.
    - intros d Hd. unfold ds, dict_values in Hd. apply in_map_iff in Hd.
      destruct Hd as [[k d'] [E Hin]]. cbn in E. subst d'.
      destruct (Hrows k d Hin) as [emb [i [row ->]]].
      split; [apply StoreFacts.document_of_row_normal|reflexivity]. }
  destruct (ReloadFacts.kept_qids normalized ds K) as [Kq Kh].
  destruct (ReloadFacts.loop_stores_all rt normalized cleared []) as [rows [E D]].
  - apply (IngestFacts.searchable_frame rt other); auto.
  - rewrite Kq. unfold ds. rewrite (SyncFacts.values_qids self Hok).
    exact (Bank.ok_keys self Hok).
  - rewrite Kh. apply (ReloadFacts.stored_hashes_nodup self Hok).
  - intros d _. cbn. auto.
  - unfold Engine.ingest, Engine.ingest_normalized. fold normalized.
    destruct (Engine.ingest_loop rt cleared normalized []) as [s [out|e]];
      cbn [fst snd] in *; [|discriminate].
    cbn [Engine._rebuild_indexes Engine.docs]. rewrite D.
    unfold cleared. cbn [Engine.docs app].
    assert (Len : List.length normalized = List.length (Engine.docs self)).
    { rewrite <- (length_map Persist.kept normalized), K, length_map.
      unfold ds, dict_values. apply length_map. }
    split; [|split].
    + now rewrite length_map, Len.
    + transitivity (map qid normalized).
      { unfold dict_keys. rewrite map_map. reflexivity. }
      rewrite Kq. exact (SyncFacts.values_qids self Hok).
    + transitivity (map Persist.kept normalized); [|exact K].
      f_equal. unfold dict_values. rewrite map_map. apply map_id.
Qed.

(** The theorem on the bank of the document with an image, saved and
    loaded by a new engine. *)
Lemma reload_keeps_documents_witness :
  let file := snd (Engine.save_local_bank Examples.bank_img) in
  let loaded := Engine.load_local_bank Examples.bare_runtime Examples.new_engine
                  (Some file) in
  fst (Engine.save_local_bank Examples.bank_img)
  = Z.of_nat (List.length (Engine.docs Examples.bank_img)) /\
  snd loaded = Ok (Z.of_nat (List.length (Engine.docs Examples.bank_img))) /\
  dict_keys (Engine.docs (fst loaded)) = dict_keys (Engine.docs Examples.bank_img) /\
  map Persist.kept (dict_values (Engine.docs (fst loaded)))
  = map Persist.kept (dict_values (Engine.docs Examples.bank_img)).
Proof.
  apply (reload_keeps_documents Examples.bare_runtime Examples.bank_img
           Examples.new_engine).
  - apply Bank.reach_ingest, Bank.reach_init.
  - vm_compute. discriminate.
  - intros k d H.
    exists (Engine.embedder Examples.new_engine), 0, Examples.row_img.
    vm_compute in H. destruct H as [H|[]]. injection H as <- <-.
    vm_compute. reflexivity.
  - apply Bank.reach_init.
  - vm_compute. discriminate.
  - left. reflexivity.
Defined.

(** ** Ingesting a batch again *)

Module ReingestFacts.
Import Engine Bank BankFacts IngestFacts OrderFacts.

Section WithRuntime.
Variable rt : Runtime.

(** After a turn of the loop that appends a row, the exact hash of the
    document is registered. *)
Lemma ingest_step_registers (self : Engine.t) (q : QuestionDocument)
      (row : IngestedQuestion) :
  snd (ingest_step rt self q) = Ok row ->
  exists m,
    dict_get (exact_hash (fingerprints q)) (exact_hash_map (fst (ingest_step rt self q)))
    = Some m.
Proof.
  destruct (ingest_step_cases rt self q) as [[m [Gm [_ ->]]]|[_ [[e ->]|[row' [-> _]]]]];
    cbn [fst snd]; intros H.
  - eauto.
  - discriminate.
  - cbn [_store_question exact_hash_map]. rewrite DictFacts.get_set_same. eauto.
Qed.

Lemma ingest_loop_registers (normalized : list QuestionDocument) :
  forall (self : Engine.t) (out rows : list IngestedQuestion),
    bank_ok self ->
    (forall q, In q normalized -> Utils.nonempty (qid q) = true) ->
    snd (ingest_loop rt self normalized out) = Ok rows ->
    forall q, In q normalized ->
              exists m,
                dict_get (exact_hash (fingerprints q))
                         (exact_hash_map (fst (ingest_loop rt self normalized out)))
                = Some m.
Proof.
  induction normalized as [|q0 rest IH]; intros self out rows Hok Hq; cbn [ingest_loop].
  - intros _ q [].
  - pose proof (ingest_step_registers self q0) as R.
    pose proof (ingest_step_ok rt self q0 Hok (Hq q0 (or_introl eq_refl))) as Hok1.
    destruct (ingest_step rt self q0) as [self1 [row|e]]; cbn [fst snd] in *;
      [|discriminate].
    assert (Hq' : forall q, In q rest -> Utils.nonempty (qid q) = true).
    { intros q Hin. apply Hq. now right. }
    intros E q [<-|Hin].
    + destruct (R row eq_refl) as [m G]. exists m.
      now apply ingest_loop_keeps_hash.
    + exact (IH self1 (out ++ [row])%list rows Hok1 Hq' E q Hin).
Qed.

(** A list of documents whose exact hashes are all registered leaves the
    engine as it is: every row is an exact duplicate. *)
Lemma ingest_loop_all_duplicates (normalized : list QuestionDocument) :
  forall (self : Engine.t) (out : list IngestedQuestion),
    bank_ok self ->
    (forall q, In q normalized ->
               exists m, dict_get (exact_hash (fingerprints q)) (exact_hash_map self)
                         = Some m) ->
    exists rows,
      ingest_loop rt self normalized out = (self, Ok (out ++ rows)%list) /\
      List.length rows = List.length normalized /\
      forall row, In row rows ->
                  status row = StatusExactDuplicate /\ score row = Some 1%float.
Proof.
  induction normalized as [|q rest IH]; intros self out Hok H; cbn [ingest_loop].
  - exists []. rewrite app_nil_r. split; [reflexivity|]. split; [reflexivity|intros row []].
  - destruct (H q (or_introl eq_refl)) as [m Gm].
    assert (E : ingest_step rt self q =
                (self, Ok {| question := q; status := StatusExactDuplicate;
                             matched_qid := Some m; score := Some 1%float |})).
    { destruct (ingest_step_cases rt self q) as [[m' [Gm' [_ ->]]]|[[G|G] _]];
        rewrite Gm in *.
      - now injection Gm' as <-.
      - discriminate.
      - injection G as G. apply (ok_truthy self Hok) in Gm. rewrite G in Gm.
        discriminate. }
    rewrite E.
    destruct (IH self (out ++ [{| question := q; status := StatusExactDuplicate;
                                  matched_qid := Some m; score := Some 1%float |}])%list
                 Hok (fun q' Hq' => H q' (or_intror Hq'))) as [rows [L [Len S]]].
    exists ({| question := q; status := StatusExactDuplicate;
               matched_qid := Some m; score := Some 1%float |} :: rows).
    split; [|split].
    + rewrite L. now rewrite <- app_assoc.
    + cbn. now rewrite Len.
    + intros row [<-|Hrow]; [cbn; auto|now apply S].
Qed.

Lemma normalize_input_embedder (self self' : Engine.t) (payload : IngestionInput) :
  embedder self' = embedder self ->
  _normalize_input rt self' payload = _normalize_input rt self payload.
Proof. intros E. unfold _normalize_input. now rewrite E. Qed.

Lemma rebuild_idempotent (self : Engine.t) :
  _rebuild_indexes rt (_rebuild_indexes rt self) = _rebuild_indexes rt self.
Proof. reflexivity. Qed.

End WithRuntime.
End ReingestFacts.

(** X28.  Ingesting a batch again changes nothing.  When [ingest] of a
    payload returns on a reachable bank, a second [ingest] of the same
    payload returns as many rows, all of them exact duplicates with the
    score 1.0, and leaves the engine exactly as the first call left it. *)
Theorem reingest_changes_nothing (rt : Runtime) (self : Engine.t)
        (payload : IngestionInput) (rows : list IngestedQuestion) :
  Bank.reachable rt self ->
  snd (Engine.ingest rt self payload) = Ok rows ->
  let self1 := fst (Engine.ingest rt self payload) in
  fst (Engine.ingest rt self1 payload) = self1 /\
  exists rows2,
    snd (Engine.ingest rt self1 payload) = Ok rows2 /\
    List.length rows2 = List.length rows /\
    forall row, In row rows2 ->
                status row = StatusExactDuplicate /\ score row = Some 1%float.
Proof.
  intros Hr E. cbv zeta.
  pose proof (BankFacts.reachable_ok rt self Hr) as Hok.
  pose proof (BankFacts.reachable_ok rt _ (Bank.reach_ingest rt self payload Hr)) as Hok1.
  pose proof (ReingestFacts.normalize_input_embedder rt self
                (fst (Engine.ingest rt self payload)) payload
                (SearchFacts.ingest_embedder rt self payload)) as En.
  set (normalized := Engine._normalize_input rt self payload) in *.
  assert (Hq : forall q, In q normalized -> Utils.nonempty (qid q) = true).
  { intros q. apply BankFacts.normalized_qid. }
  assert (R : (forall q, In q normalized ->
                         exists m,
                           dict_get (exact_hash (fingerprints q))
                                    (Engine.exact_hash_map (fst (Engine.ingest rt self payload)))
                           = Some m) /\
              List.length rows = List.length normalized /\
              exists s, fst (Engine.ingest rt self payload) = Engine._rebuild_indexes rt s).
  { revert E. unfold Engine.ingest, Engine.ingest_normalized. fold normalized.
    pose proof (ReingestFacts.ingest_loop_registers rt normalized self [] ) as G.
    destruct (Engine.ingest_loop rt self normalized []) as [s [out|e]] eqn:L;
      cbn [fst snd] in *; [|discriminate].
    intros E. injection E as <-. split; [|split].
    - intros q Hin. exact (G out Hok Hq eq_refl q Hin).
    - rewrite <- (length_map question out).
      rewrite (ReportFacts.ingest_loop_questions rt normalized self s [] out L).
      reflexivity.
    - now exists s. }
  destruct R as [Reg [Len [s Es]]].
  set (self1 := fst (Engine.ingest rt self payload)) in *.
  destruct (ReingestFacts.ingest_loop_all_duplicates rt normalized self1 [] Hok1 Reg)
    as [rows2 [L [Len2 S]]].
  unfold Engine.ingest, Engine.ingest_normalized. rewrite En, L. cbn [fst snd app]. split.
  - rewrite Es. apply ReingestFacts.rebuild_idempotent.
  - exists rows2. split; [reflexivity|]. split; [congruence|exact S].
Qed.

(** The theorem on a new engine and a batch of two rows. *)
Lemma reingest_changes_nothing_witness :
  let payload := Examples.batch [Examples.row_a; Examples.row_other_answer] in
  let self1 := fst (Engine.ingest Examples.bare_runtime Examples.new_engine payload) in
  fst (Engine.ingest Examples.bare_runtime self1 payload) = self1 /\
  exists rows2,
    snd (Engine.ingest Examples.bare_runtime self1 payload) = Ok rows2 /\
    List.length rows2 = 2%nat /\
    forall row, In row rows2 ->
                status row = StatusExactDuplicate /\ score row = Some 1%float.
Proof.
  cbv zeta.
  destruct (snd (Engine.ingest Examples.bare_runtime Examples.new_engine
                   (Examples.batch [Examples.row_a; Examples.row_other_answer])))
    as [rows|e] eqn:E; [|vm_compute in E; discriminate E].
  destruct (reingest_changes_nothing Examples.bare_runtime Examples.new_engine
              (Examples.batch [Examples.row_a; Examples.row_other_answer]) rows
              (Bank.reach_init _ None None) E) as [A [rows2 [B [C D]]]].
  split; [exact A|]. exists rows2. split; [exact B|]. split; [|exact D].
  rewrite C. vm_compute in E. injection E as <-. reflexivity.
Defined.

(** ** The metadata of a question row *)

Module MetadataFacts.
Import Engine.

Lemma mem_get {V : Type} (k : string) (d : dict V) (v : V) :
  dict_get k d = Some v -> dict_mem k d = true.
Proof. unfold dict_mem. now intros ->. Qed.

Lemma promote_keeps (k k' : string) (v v' : pyval) (md : dict pyval) :
  dict_get k md = Some v -> dict_get k (promote k' v' md) = Some v.
Proof.
  intros H. unfold promote.
  destruct (negb (is_none v') && negb (dict_mem k' md)) eqn:E; [|exact H].
  rewrite DictFacts.get_set_other; [exact H|].
  intros ->. rewrite (mem_get _ _ _ H) in E. now rewrite andb_false_r in E.
Qed.

Lemma promote_sets (k : string) (v : pyval) (md : dict pyval) :
  dict_get k md = None -> is_none v = false -> dict_get k (promote k v md) = Some v.
Proof.
  intros H N. unfold promote, dict_mem. rewrite H, N. cbn [negb andb].
  apply DictFacts.get_set_same.
Qed.

Lemma promote_other (k k' : string) (v' : pyval) (md : dict pyval) :
  k' <> k -> dict_get k (promote k' v' md) = dict_get k md.
Proof.
  intros N. unfold promote.
  destruct (negb (is_none v') && negb (dict_mem k' md)); [|reflexivity].
  now apply DictFacts.get_set_other.
Qed.

(** The last step, on [skillIds]. *)
Lemma skill_ids_keeps (k : string) (v w : pyval) (md : dict pyval) :
  dict_get k md = Some v ->
  dict_get k match w with
             | VList xs =>
                 if negb (dict_mem "skillIds" md) then dict_set "skillIds" (VList xs) md
                 else md
             | _ => md
             end = Some v.
Proof.
  intros H. destruct w; try exact H.
  destruct (negb (dict_mem "skillIds" md)) eqn:E; [|exact H].
  rewrite DictFacts.get_set_other; [exact H|].
  intros <-. now rewrite (mem_get _ _ _ H) in E.
Qed.

End MetadataFacts.

(** X29.  [_normalize_metadata] never overwrites what the row gives under
    [metadata]: every entry of the given mapping is in the result.  A
    top-level [area], [subject], [topic] or [difficulty] that is not null
    is copied under its name, and a top-level [id] under [source_id], when
    the given mapping has no such key. *)
Theorem normalize_metadata_keeps_given (row : pyval) :
  let given := match py_or (get "metadata" row) (VDict []) with
               | VDict kvs => kvs
               | _ => []
               end in
  (forall key v,
      dict_get key given = Some v ->
      dict_get key (Engine._normalize_metadata row) = Some v) /\
  (forall key,
      In key ["area"; "subject"; "topic"; "difficulty"] ->
      dict_get key given = None -> is_none (get key row) = false ->
      dict_get key (Engine._normalize_metadata row) = Some (get key row)) /\
  (dict_get "source_id" given = None -> is_none (get "id" row) = false ->
   dict_get "source_id" (Engine._normalize_metadata row) = Some (get "id" row)).
Proof.
  cbv zeta. unfold Engine._normalize_metadata. cbv zeta. cbn [fold_left].
  set (given := match py_or (get "metadata" row) (VDict []) with
                | VDict kvs => kvs
                | _ => []
                end).
  split; [|split].
  - intros key v H. apply MetadataFacts.skill_ids_keeps.
    now repeat apply MetadataFacts.promote_keeps.
  - intros key Hkey Hnone Hval. apply MetadataFacts.skill_ids_keeps.
    destruct Hkey as [<-|[<-|[<-|[<-|[]]]]].
    + do 3 apply MetadataFacts.promote_keeps. apply MetadataFacts.promote_sets; [|exact Hval].
      rewrite MetadataFacts.promote_other by discriminate. exact Hnone.
    + do 2 apply MetadataFacts.promote_keeps. apply MetadataFacts.promote_sets; [|exact Hval].
      rewrite !MetadataFacts.promote_other by discriminate. exact Hnone.
    + apply MetadataFacts.promote_keeps. apply MetadataFacts.promote_sets; [|exact Hval].
      rewrite !MetadataFacts.promote_other by discriminate. exact Hnone.
    + apply MetadataFacts.promote_sets; [|exact Hval].
      rewrite !MetadataFacts.promote_other by discriminate. exact Hnone.
  - intros Hnone Hval. apply MetadataFacts.skill_ids_keeps.
    do 4 apply MetadataFacts.promote_keeps.
    now apply MetadataFacts.promote_sets.
Qed.

(** A row with a top-level subject and a metadata mapping that has its
    own difficulty. *)
Example normalize_metadata_ex :
  Engine._normalize_metadata
    (VDict [("id", VInt 7); ("subject", VStr "math"); ("difficulty", VInt 1);
            ("metadata", VDict [("difficulty", VInt 3)])])
  = [("difficulty", VInt 3); ("source_id", VInt 7); ("subject", VStr "math")].
Proof. vm_compute. reflexivity. Qed.

(** ** Loading replaces the documents *)

Module LoadFacts.
Import Engine Bank IngestFacts OrderFacts.

Section WithRuntime.
Variable rt : Runtime.

(** The keys of [docs] after the loop are those before it and the qids of
    the documents of the loop. *)
Lemma ingest_loop_keys (normalized : list QuestionDocument) :
  forall (self : Engine.t) (out : list IngestedQuestion) (k : string),
    In k (dict_keys (docs (fst (ingest_loop rt self normalized out)))) ->
    In k (dict_keys (docs self)) \/ exists q, In q normalized /\ qid q = k.
Proof.
  induction normalized as [|q rest IH]; intros self out k; cbn [ingest_loop].
  - auto.
  - pose proof (ingest_step_docs rt self q) as D.
    assert (S : In k (dict_keys (docs (fst (ingest_step rt self q)))) ->
                In k (dict_keys (docs self)) \/ qid q = k).
    { destruct D as [-> | ->]; [auto|]. rewrite keys_set. intros [->|H]; auto. }
    destruct (ingest_step rt self q) as [self1 [row|e]]; cbn [fst] in *.
    + intros H. destruct (IH self1 _ k H) as [H1|[q' [Hq' E]]].
      * destruct (S H1) as [H0|E]; [now left|]. right. exists q. split; [now left|exact E].
      * right. exists q'. split; [now right|exact E].
    + intros H. destruct (S H) as [H0|E]; [now left|].
      right. exists q. split; [now left|exact E].
Qed.

End WithRuntime.
End LoadFacts.

(** X30.  [load_local_bank] replaces the documents, it does not merge.  A
    file that is missing or has no line leaves the engine as it is and
    gives the count 0.  After a file with lines, whether the call returns
    or raises, every qid of [docs] is the qid of the document of a line of
    the file: no document of the bank as it was before is kept. *)
Theorem load_replaces_documents (rt : Runtime) (self : Engine.t)
        (file : option LocalStore.jsonl) :
  (LocalStore.load_questions_jsonl file = [] ->
   Engine.load_local_bank rt self file = (self, Ok 0)) /\
  (LocalStore.load_questions_jsonl file <> [] ->
   forall k,
     In k (dict_keys (Engine.docs (fst (Engine.load_local_bank rt self file)))) ->
     exists i row,
       In row (LocalStore.load_questions_jsonl file) /\
       qid (Engine.document_of_row rt (Engine.embedder self) i row) = k).
Proof.
  unfold Engine.load_local_bank. cbv zeta.
  destruct (LocalStore.load_questions_jsonl file) as [|l ls] eqn:R.
  - split; [reflexivity|congruence].
  - split; [discriminate|]. intros _ k. cbn [Numeric.is_empty].
    match goal with
    | |- context [Engine.ingest rt ?c ?p] => set (cleared := c); set (payload := p)
    end.
    assert (K : In k (dict_keys (Engine.docs (fst (Engine.ingest rt cleared payload)))) ->
                exists q, In q (Engine._normalize_input rt cleared payload) /\ qid q = k).
    { unfold Engine.ingest, Engine.ingest_normalized.
      pose proof (LoadFacts.ingest_loop_keys rt
                    (Engine._normalize_input rt cleared payload) cleared [] k) as G.
      destruct (Engine.ingest_loop rt cleared _ []) as [s [out|e]]; cbn [fst] in *;
        intros H; destruct (G H) as [[]|Q]; exact Q. }
    intros H.
    assert (H' : In k (dict_keys (Engine.docs (fst (Engine.ingest rt cleared payload))))).
    { destruct (Engine.ingest rt cleared payload) as [s [out|e]]; exact H. }
    destruct (K H') as [q [Hq E]].
    unfold Engine._normalize_input, payload in Hq. cbn [questions files flat_map] in Hq.
    rewrite app_nil_r in Hq. apply in_map_iff in Hq. destruct Hq as [[i row] [<- Hin]].
    apply RetrieveFacts.enumerate_in in Hin. exists i, row. auto.
Qed.

(** A bank that holds ["a"] loads a file that holds ["c"]: it then holds
    ["c"] only; loading no file changes nothing. *)
Example load_replaces_ex :
  dict_keys (Engine.docs
               (fst (Engine.load_local_bank Examples.bare_runtime Examples.bank_a
                       (Some (snd (Engine.save_local_bank
                                     (fst (Engine.ingest Examples.bare_runtime
                                             Examples.new_engine
                                             (Examples.batch [Examples.row_caption])))))))))
  = ["c"] /\
  Engine.load_local_bank Examples.bare_runtime Examples.bank_a None
  = (Examples.bank_a, Ok 0).
Proof. split; [vm_compute; reflexivity|reflexivity]. Qed.
